(** * Rock Mass Rating calculator: scorer, support planner and bolt layout

    A shallow embedding of the decision logic of [streamlit_app.py]:
    the RMR score and class (lines 31-148), the results table and the
    gauge of the RMR tab (lines 157-191), the support recommendation
    table (lines 211-249), the bolt quantities (lines 252-261), the
    bolt positions and the shapes drawn by [generate_bolt_pattern_image]
    (lines 291-357) and its call (lines 360-362).

    Python [int] is [Z]; Python [float] is an IEEE 754 binary64 value,
    taken from the operational specification [SpecFloat] of the standard
    library ([prec = 53], [emax = 1024]); Python exceptions are the
    [Err] side of a small error monad. *)

From Stdlib Require Import ZArith List String Ascii Bool Lia DecimalString.
From Stdlib Require Import Floats.SpecFloat.
Import ListNotations.

Local Open Scope string_scope.
Local Open Scope list_scope.
Local Open Scope Z_scope.

(** ** Python values and exceptions *)

Module Py.

Inductive exn : Type :=
| ZeroDivisionError
| OverflowError
| ValueError
| IndexError.

Inductive result (A : Type) : Type :=
| Ok (a : A)
| Err (e : exn).
Arguments Ok {A} a.
Arguments Err {A} e.

Definition bind {A B : Type} (r : result A) (k : A -> result B) : result B :=
  match r with
  | Ok a => k a
  | Err e => Err e
  end.

Definition prec : Z := 53.
Definition emax : Z := 1024.

Definition float : Type := spec_float.

Definition fadd : float -> float -> float := SFadd prec emax.
Definition fmul : float -> float -> float := SFmul prec emax.
Definition fdiv : float -> float -> float := SFdiv prec emax.
Definition fltb : float -> float -> bool := SFltb.
Definition fleb : float -> float -> bool := SFleb.

(** The binary64 value nearest to the integer [n]. *)
Definition float_of_Z (n : Z) : float := binary_normalize prec emax n 0 false.

(** A decimal literal [n/d] of the source ([1.2] is [lit 12 10]): numerator
    and denominator are exact in binary64 and the division rounds to
    nearest-even, which is what the Python parser produces. *)
Definition lit (n d : Z) : float := fdiv (float_of_Z n) (float_of_Z d).

Definition is_zero (x : float) : bool :=
  match x with
  | S754_zero _ => true
  | _ => false
  end.

(** [a / b] on floats. *)
Definition truediv (a b : float) : result float :=
  if is_zero b then Err ZeroDivisionError else Ok (fdiv a b).

(** Conversion of an [int] operand in mixed arithmetic. *)
Definition to_float (n : Z) : result float :=
  match float_of_Z n with
  | S754_infinity _ => Err OverflowError
  | f => Ok f
  end.

(** [int(x)]: truncation toward zero. *)
Definition int (x : float) : result Z :=
  match x with
  | S754_zero _ => Ok 0
  | S754_infinity _ => Err OverflowError
  | S754_nan => Err ValueError
  | S754_finite s m e =>
      Ok (cond_Zopp s (if 0 <=? e then Zpos m * 2 ^ e else Zpos m / 2 ^ (- e)))
  end.

(** [round(x)] with one argument: nearest integer, ties to even. *)
Definition round_half_even (m d : Z) : Z :=
  let q := m / d in
  let r := m mod d in
  match 2 * r ?= d with
  | Lt => q
  | Gt => q + 1
  | Eq => if Z.even q then q else q + 1
  end.

Definition round (x : float) : result Z :=
  match x with
  | S754_zero _ => Ok 0
  | S754_infinity _ => Err OverflowError
  | S754_nan => Err ValueError
  | S754_finite s m e =>
      Ok (cond_Zopp s (if 0 <=? e then Zpos m * 2 ^ e
                       else round_half_even (Zpos m) (2 ^ (- e))))
  end.

(** [max(a, b)]: the later argument wins only when strictly greater. *)
Definition max_float (a b : float) : float := if fltb a b then b else a.
Definition max_int (a b : Z) : Z := if a <? b then b else a.

(** [range(n)] *)
Definition range (n : Z) : list Z := map Z.of_nat (seq 0 (Z.to_nat n)).

(** [l.index(x)] *)
Fixpoint index_from (x : string) (l : list string) (i : Z) : result Z :=
  match l with
  | [] => Err ValueError
  | y :: l' => if String.eqb y x then Ok i else index_from x l' (i + 1)
  end.
Definition index (l : list string) (x : string) : result Z := index_from x l 0.

(** [l[i]] for a non-negative index *)
Definition subscript {A : Type} (l : list A) (i : Z) : result A :=
  if i <? 0 then Err IndexError
  else match nth_error l (Z.to_nat i) with
       | Some a => Ok a
       | None => Err IndexError
       end.

(** [x in l] on strings *)
Definition mem (x : string) (l : list string) : bool :=
  existsb (String.eqb x) l.

(** [for x in xs: body], threading the loop state. *)
Fixpoint for_each {A S : Type} (xs : list A) (body : A -> S -> result S) (s : S)
  : result S :=
  match xs with
  | [] => Ok s
  | x :: xs' => bind (body x s) (for_each xs' body)
  end.

End Py.

Import Py.

Notation "x <- c ;; k" := (Py.bind c (fun x => k))
  (at level 61, c at next level, right associativity).

(** ** RMR scorer (lines 31-126) *)

Definition ucs_options : list string :=
  [ "> 250 MPa (15 points)";
    "100-250 MPa (12 points)";
    "50-100 MPa (7 points)";
    "25-50 MPa (4 points)";
    "5-25 MPa (2 points)";
    "1-5 MPa (1 point)";
    "< 1 MPa (0 points)" ].
Definition ucs_ratings : list Z := [15; 12; 7; 4; 2; 1; 0].

Definition rqd_options : list string :=
  [ "90-100% (20 points)";
    "75-90% (17 points)";
    "50-75% (13 points)";
    "25-50% (8 points)";
    "< 25% (3 points)" ].
Definition rqd_ratings : list Z := [20; 17; 13; 8; 3].

Definition spacing_options : list string :=
  [ "> 2 m (20 points)";
    "0.6-2 m (15 points)";
    "200-600 mm (10 points)";
    "60-200 mm (8 points)";
    "< 60 mm (5 points)" ].
Definition spacing_ratings : list Z := [20; 15; 10; 8; 5].

Definition condition_options : list string :=
  [ "Very rough, not continuous, no separation, unweathered (30 points)";
    "Slightly rough, separation < 1 mm, slightly weathered (25 points)";
    "Slightly rough, separation < 1 mm, highly weathered (20 points)";
    "Slickensided/gouge < 5 mm, or separation 1-5 mm (10 points)";
    "Soft gouge > 5 mm, or separation > 5 mm (0 points)" ].
Definition condition_ratings : list Z := [30; 25; 20; 10; 0].

Definition water_options : list string :=
  [ "Completely dry (15 points)";
    "Damp (10 points)";
    "Wet (7 points)";
    "Dripping (4 points)";
    "Flowing (0 points)" ].
Definition water_ratings : list Z := [15; 10; 7; 4; 0].

(** [ratings[options.index(option)]] *)
Definition rating (options : list string) (ratings : list Z) (option : string)
  : result Z :=
  i <- index options option ;; subscript ratings i.

Definition rmr_value
  (ucs_option rqd_option spacing_option condition_option water_option : string)
  : result Z :=
  a1_rating <- rating ucs_options ucs_ratings ucs_option ;;
  a2_rating <- rating rqd_options rqd_ratings rqd_option ;;
  a3_rating <- rating spacing_options spacing_ratings spacing_option ;;
  a4_rating <- rating condition_options condition_ratings condition_option ;;
  a5_rating <- rating water_options water_ratings water_option ;;
  Ok (a1_rating + a2_rating + a3_rating + a4_rating + a5_rating).

(** ** Rock mass class (lines 129-148) *)

Record RockClass : Type := mkRockClass {
  rock_class : string;
  description : string;
  class_color : string
}.

Definition classify (rmr_value : Z) : RockClass :=
  if (81 <=? rmr_value) && (rmr_value <=? 100) then
    mkRockClass "I" "Very good rock" "green"
  else if (61 <=? rmr_value) && (rmr_value <=? 80) then
    mkRockClass "II" "Good rock" "lightgreen"
  else if (41 <=? rmr_value) && (rmr_value <=? 60) then
    mkRockClass "III" "Fair rock" "yellow"
  else if (21 <=? rmr_value) && (rmr_value <=? 40) then
    mkRockClass "IV" "Poor rock" "orange"
  else
    mkRockClass "V" "Very poor rock" "red".

(** ** Support recommendation (lines 211-249) *)

Record Support : Type := mkSupport {
  bolt_length : float;
  bolt_spacing : float;
  bolt_pattern : string;
  bolt_type : string;
  bolt_capacity : string;
  additional_support : string
}.

Definition support_recommendation (rock_class : string) (excavation_width : float)
  : result Support :=
  if String.eqb rock_class "I" then
    q <- truediv excavation_width (lit 5 1) ;;
    Ok (mkSupport (max_float (lit 20 10) q) (lit 20 10)
          "Spot bolting only where necessary"
          "Friction or Fully Grouted Bolts"
          "Low capacity (10-15 tons)"
          "Generally no additional support required")
  else if String.eqb rock_class "II" then
    q <- truediv excavation_width (lit 4 1) ;;
    Ok (mkSupport (max_float (lit 25 10) q) (lit 15 10)
          "Systematic bolting at 1.5-2.0m spacing"
          "Fully Grouted Rebar or Friction Bolts"
          "Medium capacity (15-20 tons)"
          "Spot mesh in crown where needed")
  else if String.eqb rock_class "III" then
    q <- truediv excavation_width (lit 3 1) ;;
    Ok (mkSupport (max_float (lit 30 10) q) (lit 12 10)
          "Systematic bolting at 1.0-1.5m spacing in crown and walls"
          "Fully Grouted Rebar"
          "Medium-high capacity (20-25 tons)"
          "Wire mesh in crown; spot fiber-reinforced shotcrete (50mm)")
  else if String.eqb rock_class "IV" then
    q <- truediv excavation_width (lit 25 10) ;;
    Ok (mkSupport (max_float (lit 40 10) q) (lit 10 10)
          "Systematic bolting at 1.0m spacing with wire mesh in crown and walls"
          "Fully Grouted Rebar or Cable Bolts"
          "High capacity (25-30 tons)"
          "Wire mesh in crown and walls; fiber-reinforced shotcrete (100-150mm)")
  else
    q <- truediv excavation_width (lit 2 1) ;;
    Ok (mkSupport (max_float (lit 45 10) q) (lit 6 10)
          "Systematic bolting at 0.5-0.8m spacing with wire mesh and straps"
          "Fully Grouted Cable Bolts and Rebar"
          "Very high capacity (>30 tons)"
          "Wire mesh with straps in crown and walls; fiber-reinforced shotcrete (150-200mm); light steel sets").

(** ** Bolt quantities (lines 252-261) *)

Record Quantities : Type := mkQuantities {
  bolts_per_row : Z;
  rows_per_meter : float;
  bolt_density : float;
  total_bolts : float;
  total_bolt_length : float
}.

Definition bolt_quantities (rock_class : string)
  (excavation_width tunnel_length bolt_length bolt_spacing : float)
  : result Quantities :=
  per_row <-
    (if String.eqb rock_class "I" then
       q <- truediv excavation_width bolt_spacing ;;
       r <- round q ;;
       Ok (max_int 2 r, lit 5 10)
     else
       q <- truediv excavation_width bolt_spacing ;;
       r <- round q ;;
       rows_per_meter <- truediv (lit 1 1) bolt_spacing ;;
       Ok (max_int 3 r, rows_per_meter)) ;;
  let bolts_per_row := fst per_row in
  let rows_per_meter := snd per_row in
  f <- to_float bolts_per_row ;;
  let bolt_density := fmul f rows_per_meter in
  let total_bolts := fmul bolt_density tunnel_length in
  let total_bolt_length := fmul total_bolts bolt_length in
  Ok (mkQuantities bolts_per_row rows_per_meter bolt_density total_bolts
        total_bolt_length).

(** The support table and the quantities derived from it, in sequence. *)
Definition support_plan (rock_class : string) (excavation_width tunnel_length : float)
  : result (Support * Quantities) :=
  s <- support_recommendation rock_class excavation_width ;;
  q <- bolt_quantities rock_class excavation_width tunnel_length
         (bolt_length s) (bolt_spacing s) ;;
  Ok (s, q).

(** ** Bolt positions of [generate_bolt_pattern_image] (lines 309-334) *)

Definition position : Type := (float * float)%type.

(** Body of the inner loop (lines 324-334) for one [row] and [col]. *)
Definition place_bolt (width height : float) (rock_class : string)
  (rows cols row col : Z) (bolt_positions : list position)
  : result (list position) :=
  fcol <- to_float col ;;
  fcols <- to_float cols ;;
  q <- truediv width fcols ;;
  let x := fmul (fadd fcol (lit 5 10)) q in
  if mem rock_class ["II"; "III"] && (1 <? row) then
    Ok bolt_positions
  else
    frow <- to_float row ;;
    frows <- to_float rows ;;
    q <- truediv height frows ;;
    let y := fmul (fadd frow (lit 5 10)) q in
    Ok (bolt_positions ++ [(x, y)]).

Definition bolt_positions (width height spacing : float) (rock_class : string)
  : result (list position) :=
  if String.eqb rock_class "I" then
    x1 <- truediv width (lit 4 1) ;;
    x2 <- truediv width (lit 2 1) ;;
    x3 <- truediv (fmul (lit 3 1) width) (lit 4 1) ;;
    let x_positions := [x1; x2; x3] in
    for_each x_positions
      (fun x bolt_positions => Ok (bolt_positions ++ [(x, lit 5 10)])) []
  else
    rows <-
      (if mem rock_class ["IV"; "V"] then
         q <- truediv height spacing ;; int q
       else
         q <- truediv height spacing ;; r <- int q ;; Ok (max_int 2 r)) ;;
    q <- truediv width spacing ;;
    r <- int q ;;
    let cols := max_int 3 r in
    for_each (range rows)
      (fun row bolt_positions =>
         for_each (range cols)
           (place_bolt width height rock_class rows cols row) bolt_positions)
      [].

(** ** The support tab (lines 207-362)

    The table row and the quantities, then the call of
    [generate_bolt_pattern_image] with the width, the height and the
    spacing of the table row (lines 360-362). *)
Definition support_tab (rock_class : string)
  (excavation_width excavation_height tunnel_length : float)
  : result (Support * Quantities * list position) :=
  plan <- support_plan rock_class excavation_width tunnel_length ;;
  bolt_pattern <- bolt_positions excavation_width excavation_height
                    (bolt_spacing (fst plan)) rock_class ;;
  Ok (plan, bolt_pattern).

(** ** Tables of the specification, for comparison with the code *)

(** The pairs (label, points) of one rating table, position by position. *)
Definition point_table (options : list string) (ratings : list Z)
  : list (string * Z) :=
  combine options ratings.

(** The class table of the specification: the score band of each class. *)
Definition band (c : string) (score : Z) : Prop :=
  (c = "I" /\ 81 <= score <= 100) \/
  (c = "II" /\ 61 <= score <= 80) \/
  (c = "III" /\ 41 <= score <= 60) \/
  (c = "IV" /\ 21 <= score <= 40) \/
  (c = "V" /\ score <= 20).

(** The five classes the classifier can produce. *)
Definition rock_classes : list string := ["I"; "II"; "III"; "IV"; "V"].

(** [math.floor(x)], the rounding the specification names for the grid. *)
Definition floor (x : float) : result Z :=
  match x with
  | S754_zero _ => Ok 0
  | S754_infinity _ => Err OverflowError
  | S754_nan => Err ValueError
  | S754_finite s m e =>
      Ok (if 0 <=? e then cond_Zopp s (Zpos m * 2 ^ e)
          else if s then - ((Zpos m + 2 ^ (- e) - 1) / 2 ^ (- e))
               else Zpos m / 2 ^ (- e))
  end.

(** The grid of the specification: cell [index] of [count] equal parts of
    [extent] has coordinate [(index + 0.5) * (extent / count)]. *)
Definition coordinate (extent : float) (count index : Z) : result float :=
  findex <- to_float index ;;
  fcount <- to_float count ;;
  q <- truediv extent fcount ;;
  Ok (fmul (fadd findex (lit 5 10)) q).

Definition cell_position (width height : float) (rows cols : Z) (cell : Z * Z)
  : result position :=
  x <- coordinate width cols (snd cell) ;;
  y <- coordinate height rows (fst cell) ;;
  Ok (x, y).

Fixpoint traverse {A B : Type} (f : A -> result B) (l : list A) : result (list B) :=
  match l with
  | [] => Ok []
  | a :: l' => b <- f a ;; bs <- traverse f l' ;; Ok (b :: bs)
  end.

(** Cells (row, col) in row-major order. *)
Definition grid_cells (rows cols : Z) : list (Z * Z) :=
  flat_map (fun row => map (fun col => (row, col)) (range cols)) (range rows).

(** Positions of the first [emitted] rows of a [rows] x [cols] grid. *)
Definition grid (width height : float) (rows cols emitted : Z)
  : result (list position) :=
  traverse (cell_position width height rows cols) (grid_cells emitted cols).

(** ** Binary64 values as integers *)

Definition mantissa (x : float) : Z :=
  match x with S754_finite _ m _ => Zpos m | _ => 0 end.
Definition exponent (x : float) : Z :=
  match x with S754_finite _ _ e => e | _ => 0 end.

(** The value of a finite float in units of [2 ^ -1074]. *)
Definition scaled (x : float) : Z := mantissa x * 2 ^ (exponent x + 1074).

(** Positive floats with a full 53-bit mantissa and exponent in a window. *)
Definition normal_in (lo hi : Z) (x : float) : bool :=
  match x with
  | S754_finite false m e =>
      (Zpos (digits2_pos m) =? 53) && (lo <=? e) && (e <=? hi)
  | _ => false
  end.

(** Result of rounding with mantissa [R] in [2^52, 2^53] at exponent [e]. *)
Definition pack (s : bool) (R e : Z) : float :=
  if R <? 2 ^ 53 then
    if e <=? 971 then S754_finite s (Z.to_pos R) e else S754_infinity s
  else
    if e + 1 <=? 971 then S754_finite s (Z.to_pos (2 ^ 52)) (e + 1)
    else S754_infinity s.

(** Width and height as the sidebar delivers them (lines 121-122): binary64
    values between 1.0 and 30.0. *)
Definition in_ui_range (x : float) : Prop :=
  valid_binary prec emax x = true /\
  fleb (lit 1 1) x = true /\ fleb x (lit 30 1) = true.

(** A spacing of the table: a normal float [s] with [30 / s < 51] even after
    rounding. *)
Definition table_spacing (s : float) : bool :=
  normal_in (-53) (-51) s &&
  (scaled (lit 30 1) * (2 ^ 52 + 1) <? 51 * scaled s * 2 ^ 52).

Definition converts (n : Z) : bool :=
  match to_float n with Ok _ => true | Err _ => false end.

(** The centre of cell [index] stays below the extent even after the two
    roundings: [(index + 0.5) * (1 + 2^-52)^2 <= count], checked on the
    binary64 values. *)
Definition coordinate_check (count index : Z) : bool :=
  match to_float index, to_float count with
  | Ok fi, Ok fc =>
      normal_in (-53) (-47) (fadd fi (lit 5 10)) &&
      normal_in (-52) (-47) fc &&
      (scaled (fadd fi (lit 5 10)) * (2 ^ 52 + 1) * (2 ^ 52 + 1)
       <=? scaled fc * 2 ^ 52 * 2 ^ 52)
  | _, _ => false
  end.

(** A position inside the excavation cross-section. *)
Definition inside (width height : float) (p : position) : Prop :=
  fleb (float_of_Z 0) (fst p) = true /\ fleb (fst p) width = true /\
  fleb (float_of_Z 0) (snd p) = true /\ fleb (snd p) height = true.

(** ** The results tab (lines 31-191): condition labels, table rows, gauge *)

Definition ucs_values : list string :=
  [">250 MPa"; "100-250 MPa"; "50-100 MPa"; "25-50 MPa"; "5-25 MPa"; "1-5 MPa";
   "<1 MPa"].
Definition rqd_values : list string :=
  ["90-100%"; "75-90%"; "50-75%"; "25-50%"; "<25%"].
Definition spacing_values : list string :=
  [">2 m"; "0.6-2 m"; "200-600 mm"; "60-200 mm"; "<60 mm"].
Definition condition_values : list string :=
  [ "Very rough, not continuous, no separation, unweathered";
    "Slightly rough, separation < 1 mm, slightly weathered";
    "Slightly rough, separation < 1 mm, highly weathered";
    "Slickensided/gouge < 5 mm, or separation 1-5 mm";
    "Soft gouge > 5 mm, or separation > 5 mm" ].
Definition water_values : list string :=
  ["Completely dry"; "Damp"; "Wet"; "Dripping"; "Flowing"].

(** One sidebar parameter (lines 45-47 and alike): the index of the chosen
    option, then the rating and the condition label at that index. *)
Definition parameter (options : list string) (ratings : list Z)
  (values : list string) (option : string) : result (Z * string) :=
  i <- index options option ;;
  a <- subscript ratings i ;;
  v <- subscript values i ;;
  Ok (a, v).

(** The gauge of lines 167-191: value, axis range, bar colour and steps. *)
Record Gauge : Type := mkGauge {
  gauge_value : Z;
  gauge_axis : Z * Z;
  gauge_bar : string;
  gauge_steps : list (Z * Z * string);
  gauge_threshold : Z
}.

Definition gauge (rmr_value : Z) (class_color : string) : Gauge :=
  mkGauge rmr_value (0, 100) class_color
    [ (0, 20, "red"); (20, 40, "orange"); (40, 60, "yellow");
      (60, 80, "lightgreen"); (80, 100, "green") ]
    rmr_value.

(** The RMR tab: the five parameters in sidebar order, the total, the class
    and the gauge. *)
Record RmrTab : Type := mkRmrTab {
  tab_parameters : list (Z * string);
  tab_rmr_value : Z;
  tab_class : RockClass;
  tab_gauge : Gauge
}.

Definition rmr_tab
  (ucs_option rqd_option spacing_option condition_option water_option : string)
  : result RmrTab :=
  a1 <- parameter ucs_options ucs_ratings ucs_values ucs_option ;;
  a2 <- parameter rqd_options rqd_ratings rqd_values rqd_option ;;
  a3 <- parameter spacing_options spacing_ratings spacing_values spacing_option ;;
  a4 <- parameter condition_options condition_ratings condition_values
          condition_option ;;
  a5 <- parameter water_options water_ratings water_values water_option ;;
  let rmr_value := fst a1 + fst a2 + fst a3 + fst a4 + fst a5 in
  let c := classify rmr_value in
  Ok (mkRmrTab [a1; a2; a3; a4; a5] rmr_value c (gauge rmr_value (class_color c))).

(** The class as a number, I = 1 to V = 5. *)
Definition class_number (c : string) : Z :=
  if String.eqb c "I" then 1
  else if String.eqb c "II" then 2
  else if String.eqb c "III" then 3
  else if String.eqb c "IV" then 4
  else 5.

(** A label without its blanks. *)
Fixpoint remove_spaces (s : string) : string :=
  match s with
  | EmptyString => EmptyString
  | String c s' =>
      if Ascii.eqb c " "%char then remove_spaces s' else String c (remove_spaces s')
  end.

(** The points as an option label prints them. *)
Definition points_suffix (n : Z) : string :=
  "(" ++ NilZero.string_of_uint (N.to_uint (Z.to_N n)) ++
  (if n =? 1 then "point)" else "points)").

(** All five options are entries of their tables. *)
Definition valid_options (o1 o2 o3 o4 o5 : string) : Prop :=
  In o1 ucs_options /\ In o2 rqd_options /\ In o3 spacing_options /\
  In o4 condition_options /\ In o5 water_options.

(** ** Sidebar tunnel length and finite results *)

(** The tunnel length as the sidebar delivers it (line 123): a binary64
    value between 1.0 and 1000.0. *)
Definition in_length_range (x : float) : Prop :=
  valid_binary prec emax x = true /\
  fleb (lit 1 1) x = true /\ fleb x (lit 1000 1) = true.

(** A finite float above zero: neither NaN, nor infinite, nor zero. *)
Definition positive_finite (x : float) : bool :=
  match x with
  | S754_finite false _ _ => true
  | _ => false
  end.

(** A bolt count from 2 on converts to a float between 2.0 and 50.0
    (smaller counts are not used). *)
Definition count_check (n : Z) : bool :=
  (n <? 2) ||
  match to_float n with
  | Ok f => normal_in (-51) (-47) f
  | Err _ => false
  end.

(** A spacing of the table, with [30 / s < 50.5] even after rounding. *)
Definition tight_spacing (s : float) : bool :=
  normal_in (-53) (-51) s &&
  (2 * scaled (lit 30 1) * (2 ^ 52 + 1) <? 101 * scaled s * 2 ^ 52).

(** ** The bolt pattern picture (lines 291-362)

    The picture is kept as the arguments the function hands to the imaging
    library: the mode, size and background of [Image.new] and, in drawing
    order, the shapes of the [draw.rectangle], [draw.ellipse] and [draw.line]
    calls.  What the library does with them (rasterising, clipping, its own
    argument checks) is outside the model. *)

Definition scale : Z := 50.
Definition padding : Z := 20.
Definition bolt_radius : Z := 5.

Inductive Shape : Type :=
| Rectangle (xy : list Z) (outline : string) (width : Z)
| Ellipse (xy : list Z) (fill outline : string)
| Line (xy : list Z) (fill : string) (width : Z).

Record Image : Type := mkImage {
  img_mode : string;
  img_size : Z * Z;
  img_color : string;
  img_shapes : list Shape
}.

(** One call on the drawing context of [img]. *)
Definition draw (img : Image) (s : Shape) : Image :=
  mkImage (img_mode img) (img_size img) (img_color img) (img_shapes img ++ [s]).

(** [int(x * scale)]: metres to pixels. *)
Definition pixels (x : float) : result Z :=
  fscale <- to_float scale ;;
  int (fmul x fscale).

(** [int(length * scale * 0.75)]: the drawn length of a bolt. *)
Definition line_pixels (length : float) : result Z :=
  fscale <- to_float scale ;;
  int (fmul (fmul length fscale) (lit 75 100)).

(** Body of the drawing loop (lines 338-354) for one position. *)
Definition draw_bolt (length : float) (rock_class : string) (p : position)
  (img : Image) : result Image :=
  ix <- pixels (fst p) ;;
  let px := padding + ix in
  iy <- pixels (snd p) ;;
  let py := padding + iy in
  let img :=
    draw img (Ellipse [px - bolt_radius; py - bolt_radius;
                       px + bolt_radius; py + bolt_radius] "blue" "black") in
  if negb (String.eqb rock_class "I") then
    il <- line_pixels length ;;
    Ok (draw img (Line [px; py; px; py + il] "blue" 2))
  else
    Ok img.

Definition generate_bolt_pattern_image
  (width height spacing length : float) (rock_class : string) : result Image :=
  iw <- pixels width ;;
  let img_width := iw + 2 * padding in
  ih <- pixels height ;;
  let img_height := ih + 2 * padding in
  let img := mkImage "RGB" (img_width, img_height) "white" [] in
  x1 <- pixels width ;;
  y1 <- pixels height ;;
  let img :=
    draw img (Rectangle [padding; padding; padding + x1; padding + y1] "black" 3) in
  bolt_positions <- bolt_positions width height spacing rock_class ;;
  for_each bolt_positions (draw_bolt length rock_class) img.

(** The support tab with its picture (lines 207-362): the table row, the
    quantities and the picture drawn for the spacing and the bolt length of
    the row. *)
Definition support_tab_image (rock_class : string)
  (excavation_width excavation_height tunnel_length : float)
  : result (Support * Quantities * Image) :=
  plan <- support_plan rock_class excavation_width tunnel_length ;;
  bolt_pattern_img <-
    generate_bolt_pattern_image excavation_width excavation_height
      (bolt_spacing (fst plan)) (bolt_length (fst plan)) rock_class ;;
  Ok (plan, bolt_pattern_img).

(** One run of the script: the RMR tab, then the support tab for the class
    the RMR tab found. *)
Definition script
  (ucs_option rqd_option spacing_option condition_option water_option : string)
  (excavation_width excavation_height tunnel_length : float)
  : result (RmrTab * (Support * Quantities * Image)) :=
  tab1 <- rmr_tab ucs_option rqd_option spacing_option condition_option
            water_option ;;
  tab2 <- support_tab_image (rock_class (tab_class tab1)) excavation_width
            excavation_height tunnel_length ;;
  Ok (tab1, tab2).

(** The shapes drawn for one bolt whose head has its centre at pixel [c]. *)
Definition bolt_shapes (rock_class : string) (il : Z) (c : Z * Z) : list Shape :=
  Ellipse [fst c - bolt_radius; snd c - bolt_radius;
           fst c + bolt_radius; snd c + bolt_radius] "blue" "black" ::
  (if String.eqb rock_class "I" then []
   else [Line [fst c; snd c; fst c; snd c + il] "blue" 2]).

(** The pixel at which the head of the bolt at position [p] is drawn. *)
Definition head_pixel (p : position) (c : Z * Z) : Prop :=
  pixels (fst p) = Ok (fst c - padding) /\ pixels (snd p) = Ok (snd c - padding).

(** A coordinate below an extent by more than two roundings. *)
Definition below (x w : float) : Prop :=
  normal_in (-60) (-40) x = true /\
  scaled x * (2 ^ 52 + 1) * (2 ^ 52 + 1) <= scaled w * 2 ^ 52 * 2 ^ 52.

(** The centre of cell [index] stays below the extent with room for two
    more roundings: [(index + 0.5) * (1 + 2^-52)^4 <= count]. *)
Definition pixel_check (count index : Z) : bool :=
  match to_float index, to_float count with
  | Ok fi, Ok fc =>
      normal_in (-53) (-47) (fadd fi (lit 5 10)) &&
      normal_in (-52) (-47) fc &&
      (scaled (fadd fi (lit 5 10)) * (2 ^ 52 + 1) * (2 ^ 52 + 1)
         * (2 ^ 52 + 1) * (2 ^ 52 + 1)
       <=? scaled fc * 2 ^ 52 * 2 ^ 52 * 2 ^ 52 * 2 ^ 52)
  | _, _ => false
  end.

(** ** Orders with room for roundings *)

(** [x] stays below [y] with room for [n] roundings:
    [x * (1 + 2^-52)^n <= y], on the values in units of [2^-1074]. *)
Definition margin (n : nat) (x y : float) : Prop :=
  scaled x * (2 ^ 52 + 1) ^ Z.of_nat n <= scaled y * (2 ^ 52) ^ Z.of_nat n.

Definition marginb (n : nat) (x y : float) : bool :=
  scaled x * (2 ^ 52 + 1) ^ Z.of_nat n <=? scaled y * (2 ^ 52) ^ Z.of_nat n.

(** ** Rounding to nearest, exactly *)

(** The position of a remainder [r] of a division by [d] against the half
    of [d]: 0 no remainder, 1 below the half, 2 the half, 3 above it. *)
Definition remainder_class (r d : Z) : Z :=
  if r =? 0 then 0
  else match 2 * r ?= d with
       | Lt => 1
       | Eq => 2
       | Gt => 3
       end.

(** The same position as the rounding code records it. *)
Definition loc_code (l : location) : Z :=
  match l with
  | loc_Exact => 0
  | loc_Inexact Lt => 1
  | loc_Inexact Eq => 2
  | loc_Inexact Gt => 3
  end.

(** The record [mrs] holds the quotient of [N] by [D] and the position of
    the remainder. *)
Definition holds_quotient (N D : Z) (mrs : shr_record) : Prop :=
  shr_m mrs = N / D /\
  loc_code (loc_of_shr_record mrs) = remainder_class (N mod D) D.

(** * Properties *)

(** ** Literals and the scenarios of the specification *)

Example literal_1_2 : lit 12 10 = S754_finite false 5404319552844595 (-52).
Proof. vm_compute. reflexivity. Qed.

Example literal_0_6 : lit 6 10 = S754_finite false 5404319552844595 (-53).
Proof. vm_compute. reflexivity. Qed.

Example literal_0_5 : lit 5 10 = S754_finite false 4503599627370496 (-53).
Proof. vm_compute. reflexivity. Qed.

Example scenario_best_rock :
  rmr_value "> 250 MPa (15 points)" "90-100% (20 points)" "> 2 m (20 points)"
    "Very rough, not continuous, no separation, unweathered (30 points)"
    "Completely dry (15 points)" = Ok 100 /\
  classify 100 = mkRockClass "I" "Very good rock" "green".
Proof. split; reflexivity. Qed.

Example scenario_worst_rock :
  rmr_value "< 1 MPa (0 points)" "< 25% (3 points)" "< 60 mm (5 points)"
    "Soft gouge > 5 mm, or separation > 5 mm (0 points)" "Flowing (0 points)"
  = Ok 8 /\
  classify 8 = mkRockClass "V" "Very poor rock" "red".
Proof. split; reflexivity. Qed.

Example scenario_fair_rock :
  rmr_value "50-100 MPa (7 points)" "50-75% (13 points)" "200-600 mm (10 points)"
    "Slightly rough, separation < 1 mm, highly weathered (20 points)"
    "Damp (10 points)" = Ok 60 /\
  rock_class (classify 60) = "III" /\
  exists s q, support_plan "III" (lit 5 1) (lit 100 1) = Ok (s, q) /\
              bolt_length s = lit 30 10 /\ bolt_spacing s = lit 12 10 /\
              bolts_per_row q = 4 /\
              rows_per_meter q = S754_finite false 7505999378950827 (-53) /\
              bolt_density q = S754_finite false 7505999378950827 (-51).
Proof.
  split; [reflexivity|]. split; [reflexivity|].
  eexists. eexists. split; [vm_compute; reflexivity|].
  repeat split; vm_compute; reflexivity.
Qed.

Example scenario_no_rows :
  bolt_positions (lit 5 1) (lit 5 10) (lit 10 10) "IV" = Ok [].
Proof. vm_compute. reflexivity. Qed.

Example scenario_above_100 : rock_class (classify 101) = "V".
Proof. reflexivity. Qed.

(** ** Binary64 rounding: digits, shifts and bounds

    The operations of [SpecFloat] round through [binary_round_aux].  For a
    positive mantissa of at least 53 bits and no underflow, the result is the
    truncated mantissa [T] or [T + 1] at the shifted exponent
    ([round_aux_normal]); with [2^52 <= T] this gives the one-sided error
    model used below for normal positive floats: [fl(a * b)] is at most
    [a * b * (1 + 2^-52)] ([fmul_normal]) and [fl(a / b)] at most
    [a / b * (1 + 2^-52)] ([fdiv_normal]), stated on integers through
    [scaled], the value in units of [2^-1074]. *)

(** *** Number of binary digits *)

Lemma digits2_pos_bounds (p : positive) :
  2 ^ (Zpos (digits2_pos p) - 1) <= Zpos p < 2 ^ Zpos (digits2_pos p).
Proof.
  induction p as [p IH|p IH|]; simpl digits2_pos.
  - rewrite Pos2Z.inj_succ.
    replace (Z.succ (Zpos (digits2_pos p)) - 1) with (Zpos (digits2_pos p)) by lia.
    rewrite Z.pow_succ_r by lia.
    assert (H : 2 ^ Zpos (digits2_pos p) = 2 * 2 ^ (Zpos (digits2_pos p) - 1)).
    { rewrite <- Z.pow_succ_r by lia. f_equal. lia. }
    lia.
  - rewrite Pos2Z.inj_succ.
    replace (Z.succ (Zpos (digits2_pos p)) - 1) with (Zpos (digits2_pos p)) by lia.
    rewrite Z.pow_succ_r by lia.
    assert (H : 2 ^ Zpos (digits2_pos p) = 2 * 2 ^ (Zpos (digits2_pos p) - 1)).
    { rewrite <- Z.pow_succ_r by lia. f_equal. lia. }
    lia.
  - simpl. lia.
Qed.

Lemma digits2_pos_unique (p : positive) (d : Z) :
  2 ^ (d - 1) <= Zpos p < 2 ^ d -> Zpos (digits2_pos p) = d.
Proof.
  intros [Hlo Hhi].
  pose proof (digits2_pos_bounds p) as [Blo Bhi].
  set (n := Zpos (digits2_pos p)) in *.
  assert (0 < n) by (subst n; lia).
  destruct (Z_lt_le_dec d 1) as [Hd|Hd].
  { assert (2 ^ d <= 2 ^ 0) by (destruct (Z_lt_le_dec d 0);
      [rewrite Z.pow_neg_r by lia; simpl; lia | apply Z.pow_le_mono_r; lia]).
    simpl in *. lia. }
  destruct (Z.lt_trichotomy n d) as [Hlt|[Heq|Hgt]]; [|assumption|].
  - assert (2 ^ n <= 2 ^ (d - 1)) by (apply Z.pow_le_mono_r; lia). lia.
  - assert (2 ^ d <= 2 ^ (n - 1)) by (apply Z.pow_le_mono_r; lia). lia.
Qed.

(** *** Right shifts and rounding of the mantissa *)

Lemma shr_1_m (mrs : shr_record) :
  0 <= shr_m mrs -> shr_m (shr_1 mrs) = shr_m mrs / 2.
Proof.
  destruct mrs as [m r s]. simpl shr_m. intros Hm.
  destruct m as [|p|p]; [reflexivity| |lia].
  destruct p as [p|p|]; simpl shr_m.
  - rewrite Pos2Z.inj_xI. apply Z.div_unique with (r := 1); lia.
  - rewrite Pos2Z.inj_xO. apply Z.div_unique with (r := 0); lia.
  - reflexivity.
Qed.

Lemma iter_shr_1_m (p : positive) :
  forall mrs, 0 <= shr_m mrs ->
    shr_m (iter_pos shr_1 p mrs) = shr_m mrs / 2 ^ Zpos p.
Proof.
  assert (Hnn : forall mrs, 0 <= shr_m mrs -> 0 <= shr_m mrs / 2)
    by (intros; apply Z.div_pos; lia).
  induction p as [p IH|p IH|]; intros mrs Hm; simpl iter_pos.
  - assert (H1 : 0 <= shr_m (shr_1 mrs)) by (rewrite shr_1_m; auto).
    assert (H2 : 0 <= shr_m (iter_pos shr_1 p (shr_1 mrs))).
    { rewrite IH by assumption. apply Z.div_pos; [assumption|]. apply Z.pow_pos_nonneg; lia. }
    rewrite IH, IH, shr_1_m by assumption.
    rewrite !Z.div_div by (try apply Z.pow_pos_nonneg; lia).
    f_equal.
    replace (Zpos p~1) with (1 + Zpos p + Zpos p) by lia.
    rewrite !Z.pow_add_r by lia. simpl (2 ^ 1). lia.
  - assert (H2 : 0 <= shr_m (iter_pos shr_1 p mrs)).
    { rewrite IH by assumption. apply Z.div_pos; [assumption|]. apply Z.pow_pos_nonneg; lia. }
    rewrite IH, IH by assumption.
    rewrite !Z.div_div by (try apply Z.pow_pos_nonneg; lia).
    f_equal.
    replace (Zpos p~0) with (Zpos p + Zpos p) by lia.
    rewrite !Z.pow_add_r by lia. lia.
  - rewrite shr_1_m by assumption. reflexivity.
Qed.

Lemma shr_m_shift (mrs : shr_record) (e k : Z) :
  0 <= shr_m mrs -> 0 <= k ->
  shr_m (fst (shr mrs e k)) = shr_m mrs / 2 ^ k /\ snd (shr mrs e k) = e + k.
Proof.
  intros Hm Hk. destruct k as [|p|p]; simpl; try lia.
  - rewrite Z.div_1_r. split; [reflexivity|lia].
  - split; [|reflexivity]. apply iter_shr_1_m; assumption.
Qed.

Lemma shr_record_of_loc_m (m : Z) (l : location) : shr_m (shr_record_of_loc m l) = m.
Proof. destruct l as [|[| |]]; reflexivity. Qed.

Lemma round_nearest_even_cases (m : Z) (l : location) :
  round_nearest_even m l = m \/ round_nearest_even m l = m + 1.
Proof.
  destruct l as [|[| |]]; simpl; auto.
  destruct (Z.even m); auto.
Qed.

Lemma Zdigits2_bounds (m : Z) :
  0 < m -> 2 ^ (Zdigits2 m - 1) <= m < 2 ^ Zdigits2 m.
Proof.
  destruct m as [|p|p]; try lia. intros _. apply digits2_pos_bounds.
Qed.

Lemma Zdigits2_unique (m d : Z) :
  0 < m -> 2 ^ (d - 1) <= m < 2 ^ d -> Zdigits2 m = d.
Proof.
  destruct m as [|p|p]; try lia. intros _. apply digits2_pos_unique.
Qed.

Lemma fexp_normal (x : Z) : -1074 <= x - 53 -> fexp prec emax x = x - 53.
Proof. intros H. unfold fexp, emin, prec, emax. lia. Qed.

Lemma truncated_mantissa (m : Z) :
  0 < m -> 53 <= Zdigits2 m ->
  2 ^ 52 <= m / 2 ^ (Zdigits2 m - 53) < 2 ^ 53.
Proof.
  intros Hm Hd. pose proof (Zdigits2_bounds m Hm) as [Hlo Hhi].
  set (d := Zdigits2 m) in *.
  assert (Hk : 0 < 2 ^ (d - 53)) by (apply Z.pow_pos_nonneg; lia).
  split.
  - apply Z.div_le_lower_bound; [assumption|].
    rewrite Z.mul_comm, <- Z.pow_add_r by lia.
    replace (52 + (d - 53)) with (d - 1) by lia. assumption.
  - apply Z.div_lt_upper_bound; [assumption|].
    rewrite <- Z.pow_add_r by lia.
    replace (d - 53 + 53) with d by lia. assumption.
Qed.

Lemma round_aux_normal (s : bool) (m e : Z) (l : location) :
  0 < m -> 53 <= Zdigits2 m -> -1074 <= e + (Zdigits2 m - 53) ->
  exists R,
    (R = m / 2 ^ (Zdigits2 m - 53) \/ R = m / 2 ^ (Zdigits2 m - 53) + 1) /\
    binary_round_aux prec emax s m e l = pack s R (e + (Zdigits2 m - 53)).
Proof.
  intros Hm Hd He.
  pose proof (truncated_mantissa m Hm Hd) as HT.
  set (k := Zdigits2 m - 53) in *.
  set (T := m / 2 ^ k) in *.
  unfold binary_round_aux, shr_fexp.
  rewrite fexp_normal by lia.
  replace (Zdigits2 m + e - 53 - e) with k by lia.
  destruct (shr_m_shift (shr_record_of_loc m l) e k) as [Hm' He'];
    [rewrite shr_record_of_loc_m; lia | lia |].
  rewrite shr_record_of_loc_m in Hm'. fold T in Hm'.
  destruct (shr (shr_record_of_loc m l) e k) as [mrs' e'].
  simpl fst in Hm'. simpl snd in He'. subst e'. rewrite Hm'.
  set (R := round_nearest_even T (loc_of_shr_record mrs')).
  assert (HR : R = T \/ R = T + 1) by apply round_nearest_even_cases.
  exists R. split; [assumption|].
  assert (HRpos : 0 < R) by (assert (0 < 2 ^ 52) by (apply Z.pow_pos_nonneg; lia); lia).
  unfold pack.
  destruct (Z.ltb_spec R (2 ^ 53)) as [Hlt|Hge].
  - assert (HdR : Zdigits2 R = 53) by (apply Zdigits2_unique; [assumption|]; simpl (53 - 1); lia).
    rewrite HdR, fexp_normal by lia.
    replace (53 + (e + k) - 53 - (e + k)) with 0 by lia.
    simpl shr. simpl shr_m.
    destruct R as [|p|p]; try lia. reflexivity.
  - assert (HR53 : R = 2 ^ 53) by lia.
    assert (HdR : Zdigits2 R = 54) by (rewrite HR53; reflexivity).
    rewrite HdR, fexp_normal by lia.
    replace (54 + (e + k) - 53 - (e + k)) with 1 by lia.
    rewrite HR53. simpl shr. simpl shr_m.
    replace (e + k + 1 <=? emax - prec) with (e + k + 1 <=? 971) by reflexivity.
    reflexivity.
Qed.

(** *** Normal positive floats *)

Lemma normal_in_inv (lo hi : Z) (x : float) :
  normal_in lo hi x = true ->
  exists m e, x = S754_finite false m e /\ 2 ^ 52 <= Zpos m < 2 ^ 53 /\ lo <= e <= hi.
Proof.
  destruct x as [| | |[|] m e]; try discriminate. unfold normal_in.
  intros H. apply andb_prop in H as [H H3]. apply andb_prop in H as [H1 H2].
  exists m, e. split; [reflexivity|].
  pose proof (digits2_pos_bounds m) as B.
  apply Z.eqb_eq in H1. rewrite H1 in B. simpl (53 - 1) in B. lia.
Qed.

Lemma normal_in_intro (lo hi : Z) (m : positive) (e : Z) :
  2 ^ 52 <= Zpos m < 2 ^ 53 -> lo <= e <= hi ->
  normal_in lo hi (S754_finite false m e) = true.
Proof.
  intros Hm He. unfold normal_in.
  rewrite (digits2_pos_unique m 53) by (simpl (53 - 1); lia).
  rewrite Z.eqb_refl. simpl. apply andb_true_intro; split; lia.
Qed.

Lemma normal_nonzero (lo hi : Z) (x : float) :
  normal_in lo hi x = true -> is_zero x = false.
Proof.
  intros H. destruct (normal_in_inv _ _ _ H) as (m & e & -> & _). reflexivity.
Qed.

Lemma pack_normal (R e : Z) :
  2 ^ 52 <= R <= 2 ^ 53 -> e + 1 <= 971 ->
  exists m' c, pack false R e = S754_finite false m' (e + c) /\
               2 ^ 52 <= Zpos m' < 2 ^ 53 /\ 0 <= c <= 1 /\ Zpos m' * 2 ^ c = R.
Proof.
  intros HR He. unfold pack.
  destruct (Z.ltb_spec R (2 ^ 53)) as [Hlt|Hge].
  - destruct (Z.leb_spec e 971); [|lia].
    exists (Z.to_pos R), 0. rewrite Z.add_0_r.
    assert (0 < R) by (assert (0 < 2 ^ 52) by (apply Z.pow_pos_nonneg; lia); lia).
    rewrite Z2Pos.id by assumption. repeat split; try lia.
  - destruct (Z.leb_spec (e + 1) 971); [|lia].
    exists (Z.to_pos (2 ^ 52)), 1.
    rewrite Z2Pos.id by (apply Z.pow_pos_nonneg; lia).
    repeat split; lia.
Qed.

Lemma pow2_split (a b : Z) : 0 <= a -> 0 <= b -> 2 ^ (a + b) = 2 ^ a * 2 ^ b.
Proof. intros. apply Z.pow_add_r; assumption. Qed.

Lemma pow2_pos (a : Z) : 0 <= a -> 0 < 2 ^ a.
Proof. intros. apply Z.pow_pos_nonneg; lia. Qed.

(** Rounding a positive integer mantissa of at least 53 bits: the result is a
    normal float whose value exceeds the exact one by a factor of at most
    [1 + 2 ^ -52]. *)
Lemma round_aux_upper (m e : Z) (l : location) :
  0 < m -> 53 <= Zdigits2 m -> -1074 <= e + (Zdigits2 m - 53) ->
  e + (Zdigits2 m - 53) + 1 <= 971 ->
  exists m' j,
    binary_round_aux prec emax false m e l = S754_finite false m' (e + j) /\
    2 ^ 52 <= Zpos m' < 2 ^ 53 /\
    Zdigits2 m - 53 <= j <= Zdigits2 m - 53 + 1 /\
    Zpos m' * 2 ^ j * 2 ^ 52 <= m * (2 ^ 52 + 1).
Proof.
  intros Hm Hd Hlo Hhi.
  destruct (round_aux_normal false m e l Hm Hd Hlo) as (R & HR & ->).
  pose proof (truncated_mantissa m Hm Hd) as HT.
  set (k := Zdigits2 m - 53) in *.
  set (T := m / 2 ^ k) in *.
  assert (Hk : 0 < 2 ^ k) by (apply pow2_pos; lia).
  assert (HTm : T * 2 ^ k <= m).
  { unfold T. rewrite Z.mul_comm. apply Z.mul_div_le. assumption. }
  destruct (pack_normal R (e + k)) as (m' & c & -> & Hm' & Hc & Hv); [lia|lia|].
  exists m', (k + c). rewrite Z.add_assoc. repeat split; try lia.
  rewrite pow2_split by lia.
  assert (HRT : R * 2 ^ 52 <= T * (2 ^ 52 + 1)) by lia.
  replace (Zpos m' * (2 ^ k * 2 ^ c) * 2 ^ 52) with (R * 2 ^ 52 * 2 ^ k)
    by (rewrite <- Hv; ring).
  apply Z.le_trans with (T * (2 ^ 52 + 1) * 2 ^ k).
  - apply Z.mul_le_mono_nonneg_r; lia.
  - replace (T * (2 ^ 52 + 1) * 2 ^ k) with (T * 2 ^ k * (2 ^ 52 + 1)) by ring.
    apply Z.mul_le_mono_nonneg_r; lia.
Qed.

(** *** Multiplication and division *)

Lemma scaled_finite (s : bool) (m : positive) (e : Z) :
  scaled (S754_finite s m e) = Zpos m * 2 ^ (e + 1074).
Proof. reflexivity. Qed.

Lemma Zdigits2_range (m lo hi : Z) :
  0 < m -> 0 <= lo -> 2 ^ lo <= m < 2 ^ hi -> lo + 1 <= Zdigits2 m <= hi.
Proof.
  intros Hm Hlo [H1 H2]. pose proof (Zdigits2_bounds m Hm) as [B1 B2].
  assert (Hd : 0 < Zdigits2 m) by (destruct m; simpl; lia).
  split.
  - destruct (Z_lt_le_dec (Zdigits2 m) (lo + 1)); [|assumption].
    assert (2 ^ Zdigits2 m <= 2 ^ lo) by (apply Z.pow_le_mono_r; lia). lia.
  - destruct (Z_lt_le_dec hi (Zdigits2 m)); [|assumption].
    assert (2 ^ hi <= 2 ^ (Zdigits2 m - 1)) by (apply Z.pow_le_mono_r; lia). lia.
Qed.

Lemma fmul_normal (lo1 hi1 lo2 hi2 : Z) (a b : float) :
  normal_in lo1 hi1 a = true -> normal_in lo2 hi2 b = true ->
  -1074 <= lo1 -> -1074 <= lo2 -> -1074 <= lo1 + lo2 + 52 ->
  hi1 + hi2 + 54 <= 971 ->
  normal_in (lo1 + lo2 + 52) (hi1 + hi2 + 54) (fmul a b) = true /\
  scaled (fmul a b) * 2 ^ 1074 * 2 ^ 52 <= scaled a * scaled b * (2 ^ 52 + 1).
Proof.
  intros Ha Hb Hl1 Hl2 Hlo Hhi.
  destruct (normal_in_inv _ _ _ Ha) as (ma & ea & -> & Hma & Hea).
  destruct (normal_in_inv _ _ _ Hb) as (mb & eb & -> & Hmb & Heb).
  unfold fmul, SFmul. simpl xorb.
  set (m := Zpos (ma * mb)).
  assert (Hm : m = Zpos ma * Zpos mb) by (unfold m; apply Pos2Z.inj_mul).
  assert (Hmpos : 0 < m) by (unfold m; lia).
  assert (Hmr : 2 ^ 104 <= m < 2 ^ 106).
  { rewrite Hm. change (2 ^ 104) with (2 ^ 52 * 2 ^ 52).
    change (2 ^ 106) with (2 ^ 53 * 2 ^ 53). split.
    - apply Z.mul_le_mono_nonneg; lia.
    - apply Z.mul_lt_mono_nonneg; lia. }
  pose proof (Zdigits2_range m 104 106 Hmpos ltac:(lia) Hmr) as Hd.
  destruct (round_aux_upper m (ea + eb) loc_Exact) as (m' & j & -> & Hm' & Hj & Hv);
    try lia.
  split; [apply normal_in_intro; lia|].
  rewrite !scaled_finite.
  assert (Hpa : 0 < 2 ^ (ea + 1074)) by (apply pow2_pos; lia).
  assert (Hpb : 0 < 2 ^ (eb + 1074)) by (apply pow2_pos; lia).
  replace (ea + eb + j + 1074) with (j + (ea + 1074) + (eb + 1074) - 1074) by lia.
  assert (Hsplit : 2 ^ (j + (ea + 1074) + (eb + 1074) - 1074) * 2 ^ 1074 =
                   2 ^ j * 2 ^ (ea + 1074) * 2 ^ (eb + 1074)).
  { rewrite <- !pow2_split by lia. f_equal. lia. }
  set (X := 2 ^ (j + (ea + 1074) + (eb + 1074) - 1074)) in *.
  replace (Zpos m' * X * 2 ^ 1074 * 2 ^ 52) with (Zpos m' * (X * 2 ^ 1074) * 2 ^ 52)
    by ring.
  rewrite Hsplit.
  replace (Zpos m' * (2 ^ j * 2 ^ (ea + 1074) * 2 ^ (eb + 1074)) * 2 ^ 52)
    with (Zpos m' * 2 ^ j * 2 ^ 52 * (2 ^ (ea + 1074) * 2 ^ (eb + 1074))) by ring.
  replace (Zpos ma * 2 ^ (ea + 1074) * (Zpos mb * 2 ^ (eb + 1074)) * (2 ^ 52 + 1))
    with (m * (2 ^ 52 + 1) * (2 ^ (ea + 1074) * 2 ^ (eb + 1074)))
    by (rewrite Hm; ring).
  apply Z.mul_le_mono_nonneg_r; [|assumption].
  apply Z.lt_le_incl, Z.mul_pos_pos; assumption.
Qed.

Lemma fdiv_core_normal (ma mb : positive) (ea eb : Z) :
  2 ^ 52 <= Zpos ma < 2 ^ 53 -> 2 ^ 52 <= Zpos mb < 2 ^ 53 ->
  -1074 <= ea - eb - 53 ->
  exists l,
    SFdiv_core_binary prec emax (Zpos ma) ea (Zpos mb) eb =
      (Zpos ma * 2 ^ 53 / Zpos mb, ea - eb - 53, l).
Proof.
  intros Hma Hmb He. unfold SFdiv_core_binary.
  change (Zdigits2 (Zpos ma)) with (Zpos (digits2_pos ma)).
  change (Zdigits2 (Zpos mb)) with (Zpos (digits2_pos mb)).
  rewrite (digits2_pos_unique ma 53), (digits2_pos_unique mb 53)
    by (simpl (53 - 1); lia).
  replace (53 + ea - (53 + eb)) with (ea - eb) by lia.
  rewrite fexp_normal by lia.
  rewrite Z.min_l by lia.
  replace (ea - eb - (ea - eb - 53)) with 53 by lia.
  cbv beta iota zeta.
  rewrite Z.shiftl_mul_pow2 by lia.
  unfold Z.div.
  destruct (Z.div_eucl (Zpos ma * 2 ^ 53) (Zpos mb)) as [q r].
  eexists. reflexivity.
Qed.

Lemma fdiv_normal (lo1 hi1 lo2 hi2 : Z) (a b : float) :
  normal_in lo1 hi1 a = true -> normal_in lo2 hi2 b = true ->
  -1074 <= lo1 -> -1074 <= lo2 -> -1074 <= lo1 - hi2 - 53 ->
  hi1 - lo2 - 51 <= 971 ->
  normal_in (lo1 - hi2 - 53) (hi1 - lo2 - 51) (fdiv a b) = true /\
  scaled (fdiv a b) * scaled b * 2 ^ 52 <= scaled a * 2 ^ 1074 * (2 ^ 52 + 1).
Proof.
  intros Ha Hb Hl1 Hl2 Hlo Hhi.
  destruct (normal_in_inv _ _ _ Ha) as (ma & ea & -> & Hma & Hea).
  destruct (normal_in_inv _ _ _ Hb) as (mb & eb & -> & Hmb & Heb).
  unfold fdiv, SFdiv. simpl xorb.
  destruct (fdiv_core_normal ma mb ea eb Hma Hmb ltac:(lia)) as [l ->].
  set (q := Zpos ma * 2 ^ 53 / Zpos mb).
  assert (Hqm : q * Zpos mb <= Zpos ma * 2 ^ 53).
  { unfold q. rewrite Z.mul_comm. apply Z.mul_div_le. lia. }
  assert (Hqr : 2 ^ 52 <= q < 2 ^ 54).
  { unfold q. split.
    - apply Z.div_le_lower_bound; [lia|].
      apply Z.le_trans with (2 ^ 53 * 2 ^ 52); [|].
      + apply Z.mul_le_mono_nonneg_r; lia.
      + rewrite Z.mul_comm. apply Z.mul_le_mono_nonneg_r; lia.
    - apply Z.div_lt_upper_bound; [lia|].
      apply Z.lt_le_trans with (2 ^ 53 * 2 ^ 53).
      + apply Z.mul_lt_mono_pos_r; lia.
      + change (2 ^ 53 * 2 ^ 53) with (2 ^ 52 * 2 ^ 54).
        apply Z.mul_le_mono_nonneg_r; lia. }
  assert (Hqpos : 0 < q) by lia.
  pose proof (Zdigits2_range q 52 54 Hqpos ltac:(lia) Hqr) as Hd.
  destruct (round_aux_upper q (ea - eb - 53) l) as (m' & j & -> & Hm' & Hj & Hv);
    try lia.
  assert (Hj2 : 0 <= j <= 2) by (clear - Hj Hd; lia).
  split; [apply normal_in_intro; [assumption|]; clear - Hj2 Hea Heb; lia|].
  rewrite !scaled_finite.
  assert (Hpb : 0 < 2 ^ (eb + 1074)) by (apply pow2_pos; lia).
  assert (Hpe : 0 < 2 ^ (ea - 53 + 2148)) by (apply pow2_pos; lia).
  assert (Hs1 : 2 ^ (ea - eb - 53 + j + 1074) * 2 ^ (eb + 1074) =
                2 ^ j * 2 ^ (ea - 53 + 2148)).
  { rewrite <- !pow2_split by lia. f_equal. lia. }
  assert (Hs2 : 2 ^ (ea + 1074) * 2 ^ 1074 = 2 ^ 53 * 2 ^ (ea - 53 + 2148)).
  { rewrite <- !pow2_split by lia. f_equal. lia. }
  set (X := 2 ^ (ea - eb - 53 + j + 1074)) in *.
  replace (Zpos m' * X * (Zpos mb * 2 ^ (eb + 1074)) * 2 ^ 52)
    with (Zpos m' * (X * 2 ^ (eb + 1074)) * Zpos mb * 2 ^ 52) by ring.
  replace (Zpos ma * 2 ^ (ea + 1074) * 2 ^ 1074 * (2 ^ 52 + 1))
    with (Zpos ma * (2 ^ (ea + 1074) * 2 ^ 1074) * (2 ^ 52 + 1)) by ring.
  rewrite Hs1, Hs2.
  set (Y := 2 ^ (ea - 53 + 2148)) in *.
  replace (Zpos m' * (2 ^ j * Y) * Zpos mb * 2 ^ 52)
    with (Zpos m' * 2 ^ j * 2 ^ 52 * Zpos mb * Y) by ring.
  replace (Zpos ma * (2 ^ 53 * Y) * (2 ^ 52 + 1))
    with (Zpos ma * 2 ^ 53 * (2 ^ 52 + 1) * Y) by ring.
  apply Z.mul_le_mono_nonneg_r; [lia|].
  apply Z.le_trans with (q * (2 ^ 52 + 1) * Zpos mb).
  - apply Z.mul_le_mono_nonneg_r; lia.
  - replace (q * (2 ^ 52 + 1) * Zpos mb) with (q * Zpos mb * (2 ^ 52 + 1)) by ring.
    apply Z.mul_le_mono_nonneg_r; lia.
Qed.

(** *** Conversion to integers *)

Lemma scaled_pos (lo hi : Z) (x : float) :
  normal_in lo hi x = true -> -1074 <= lo -> 0 < scaled x.
Proof.
  intros H Hlo. destruct (normal_in_inv _ _ _ H) as (m & e & -> & Hm & He).
  rewrite scaled_finite. apply Z.mul_pos_pos; [lia|apply pow2_pos; lia].
Qed.

Lemma int_normal_bound (lo hi : Z) (x : float) (B : Z) :
  normal_in lo hi x = true -> -1074 <= lo ->
  scaled x < (B + 1) * 2 ^ 1074 ->
  exists n, int x = Ok n /\ 0 <= n <= B.
Proof.
  intros H Hlo Hs. destruct (normal_in_inv _ _ _ H) as (m & e & -> & Hm & He).
  rewrite scaled_finite in Hs. unfold int, cond_Zopp.
  destruct (Z.leb_spec 0 e) as [Hpos|Hneg].
  - exists (Zpos m * 2 ^ e). split; [reflexivity|].
    assert (0 < 2 ^ e) by (apply pow2_pos; lia).
    rewrite pow2_split in Hs by lia.
    assert (0 < 2 ^ 1074) by (apply pow2_pos; lia).
    split; [apply Z.mul_nonneg_nonneg; lia|].
    assert (Zpos m * 2 ^ e < B + 1); [|lia].
    apply Z.mul_lt_mono_pos_r with (2 ^ 1074); [assumption|].
    rewrite <- Z.mul_assoc. exact Hs.
  - exists (Zpos m / 2 ^ (- e)). split; [reflexivity|].
    assert (Hd : 0 < 2 ^ (- e)) by (apply pow2_pos; lia).
    assert (Hp : 0 < 2 ^ (e + 1074)) by (apply pow2_pos; lia).
    split; [apply Z.div_pos; lia|].
    assert (Zpos m / 2 ^ (- e) < B + 1); [|lia].
    apply Z.div_lt_upper_bound; [assumption|].
    apply Z.mul_lt_mono_pos_r with (2 ^ (e + 1074)); [assumption|].
    replace (2 ^ (- e) * (B + 1) * 2 ^ (e + 1074))
      with ((B + 1) * (2 ^ (- e) * 2 ^ (e + 1074))) by ring.
    rewrite <- pow2_split by lia.
    replace (- e + (e + 1074)) with 1074 by lia. exact Hs.
Qed.

Lemma round_half_even_bounds (m d : Z) :
  0 < d -> m / d <= round_half_even m d <= m / d + 1.
Proof.
  intros Hd. unfold round_half_even.
  destruct (2 * (m mod d) ?= d); try lia.
  destruct (Z.even (m / d)); lia.
Qed.

Lemma round_normal_bound (lo hi : Z) (x : float) (B : Z) :
  normal_in lo hi x = true -> -1074 <= lo ->
  scaled x < (B + 1) * 2 ^ 1074 ->
  exists n, round x = Ok n /\ 0 <= n <= B + 1.
Proof.
  intros H Hlo Hs.
  destruct (int_normal_bound lo hi x B H Hlo Hs) as (n & Hn & Hb).
  destruct (normal_in_inv _ _ _ H) as (m & e & -> & Hm & He).
  unfold int, round, cond_Zopp in *.
  destruct (Z.leb_spec 0 e) as [Hpos|Hneg].
  - exists n. split; [assumption|lia].
  - exists (round_half_even (Zpos m) (2 ^ (- e))). split; [reflexivity|].
    inversion Hn; subst n.
    pose proof (round_half_even_bounds (Zpos m) (2 ^ (- e))
                  ltac:(apply pow2_pos; lia)). lia.
Qed.

(** *** Comparisons *)

Lemma fleb_scaled (lo hi lo' hi' : Z) (x y : float) :
  normal_in lo hi x = true -> normal_in lo' hi' y = true ->
  -1074 <= lo -> -1074 <= lo' ->
  (fleb x y = true <-> scaled x <= scaled y).
Proof.
  intros Hx Hy Hlo Hlo'.
  destruct (normal_in_inv _ _ _ Hx) as (mx & ex & -> & Hmx & Hex).
  destruct (normal_in_inv _ _ _ Hy) as (my & ey & -> & Hmy & Hey).
  rewrite !scaled_finite. unfold fleb, SFleb, SFcompare.
  assert (Hpx : 0 < 2 ^ (ex + 1074)) by (apply pow2_pos; lia).
  assert (Hpy : 0 < 2 ^ (ey + 1074)) by (apply pow2_pos; lia).
  destruct (Z.compare_spec ex ey) as [Heq|Hlt|Hgt].
  - subst ey. change (Pos.compare_cont Eq mx my) with (Pos.compare mx my).
    destruct (Pos.compare_spec mx my) as [E|L|G].
    + subst. split; [lia|reflexivity].
    + split; [intros _|reflexivity].
      apply Z.mul_le_mono_nonneg_r; lia.
    + split; [discriminate|]. intros Hle. exfalso.
      assert (Zpos my * 2 ^ (ex + 1074) < Zpos mx * 2 ^ (ex + 1074))
        by (apply Z.mul_lt_mono_pos_r; lia). lia.
  - split; [intros _|reflexivity].
    assert (Hs : 2 ^ (ey + 1074) = 2 ^ (ey - ex) * 2 ^ (ex + 1074)).
    { rewrite <- pow2_split by lia. f_equal. lia. }
    assert (2 ^ 1 <= 2 ^ (ey - ex)) by (apply Z.pow_le_mono_r; lia).
    rewrite Hs. rewrite Z.mul_assoc.
    apply Z.mul_le_mono_nonneg_r; [lia|].
    apply Z.le_trans with (2 ^ 52 * 2 ^ 1); [simpl (2 ^ 52 * 2 ^ 1); lia|].
    apply Z.mul_le_mono_nonneg; lia.
  - split; [discriminate|]. intros Hle. exfalso.
    assert (Hs : 2 ^ (ex + 1074) = 2 ^ (ex - ey) * 2 ^ (ey + 1074)).
    { rewrite <- pow2_split by lia. f_equal. lia. }
    assert (2 ^ 1 <= 2 ^ (ex - ey)) by (apply Z.pow_le_mono_r; lia).
    rewrite Hs, Z.mul_assoc in Hle.
    apply Z.mul_le_mono_pos_r in Hle; [|assumption].
    assert (2 ^ 52 * 2 ^ 1 <= Zpos mx * 2 ^ (ex - ey))
      by (apply Z.mul_le_mono_nonneg; lia).
    simpl (2 ^ 52 * 2 ^ 1) in *. lia.
Qed.

Lemma fleb_zero_normal (lo hi : Z) (x : float) :
  normal_in lo hi x = true -> fleb (S754_zero false) x = true.
Proof.
  intros H. destruct (normal_in_inv _ _ _ H) as (m & e & -> & _). reflexivity.
Qed.

Lemma fltb_scaled (lo hi lo' hi' : Z) (x y : float) :
  normal_in lo hi x = true -> normal_in lo' hi' y = true ->
  -1074 <= lo -> -1074 <= lo' ->
  (fltb x y = true <-> scaled x < scaled y).
Proof.
  intros Hx Hy Hlo Hlo'.
  pose proof (fleb_scaled _ _ _ _ y x Hy Hx Hlo' Hlo) as Hle.
  destruct (normal_in_inv _ _ _ Hx) as (mx & ex & -> & Hmx & Hex).
  destruct (normal_in_inv _ _ _ Hy) as (my & ey & -> & Hmy & Hey).
  unfold fltb, SFltb. unfold fleb, SFleb in Hle. unfold SFcompare in *.
  rewrite (Z.compare_antisym ex ey) in Hle.
  destruct (ex ?= ey); cbn [CompOpp] in Hle.
  - change (Pos.compare_cont Eq mx my) with (Pos.compare mx my).
    change (Pos.compare_cont Eq my mx) with (Pos.compare my mx) in Hle.
    rewrite (Pos.compare_antisym mx my) in Hle.
    destruct (mx ?= my)%positive; cbn [CompOpp] in Hle.
    + split; [discriminate|]. intros H. destruct Hle as [Hle _].
      specialize (Hle eq_refl). lia.
    + split; [intros _|reflexivity].
      destruct (Z_lt_le_dec (scaled (S754_finite false mx ex))
                  (scaled (S754_finite false my ey))); [assumption|].
      destruct Hle as [_ Hle]. specialize (Hle ltac:(assumption)). discriminate.
    + split; [discriminate|]. intros H. destruct Hle as [Hle _].
      specialize (Hle eq_refl). lia.
  - split; [intros _|reflexivity].
    destruct (Z_lt_le_dec (scaled (S754_finite false mx ex))
                (scaled (S754_finite false my ey))); [assumption|].
    destruct Hle as [_ Hle]. specialize (Hle ltac:(assumption)). discriminate.
  - split; [discriminate|]. intros H. destruct Hle as [Hle _].
    specialize (Hle eq_refl). lia.
Qed.

(** On normal floats Python's [max] returns the larger value. *)
Lemma max_float_scaled (lo hi lo' hi' : Z) (a b : float) :
  normal_in lo hi a = true -> normal_in lo' hi' b = true ->
  -1074 <= lo -> -1074 <= lo' ->
  scaled (max_float a b) = Z.max (scaled a) (scaled b).
Proof.
  intros Ha Hb Hlo Hlo'. unfold max_float.
  pose proof (fltb_scaled _ _ _ _ a b Ha Hb Hlo Hlo') as H.
  destruct (fltb a b).
  - destruct H as [H _]. specialize (H eq_refl). lia.
  - destruct (Z_lt_le_dec (scaled a) (scaled b)) as [Hlt|Hge]; [|lia].
    destruct H as [_ H]. specialize (H Hlt). discriminate.
Qed.

(** *** Sidebar values *)

Lemma lit_1_1 : lit 1 1 = S754_finite false 4503599627370496 (-52).
Proof. vm_compute. reflexivity. Qed.
Lemma lit_30_1 : lit 30 1 = S754_finite false 8444249301319680 (-48).
Proof. vm_compute. reflexivity. Qed.

Lemma in_ui_range_normal (x : float) :
  in_ui_range x ->
  normal_in (-52) (-48) x = true /\
  scaled (lit 1 1) <= scaled x <= scaled (lit 30 1).
Proof.
  intros (Hv & H1 & H30).
  assert (Hn : normal_in (-52) (-48) x = true).
  { rewrite lit_1_1 in H1. rewrite lit_30_1 in H30.
    destruct x as [s|s| |s m e]; try discriminate.
    - destruct s; discriminate.
    - destruct s; [discriminate|].
      unfold fleb, SFleb, SFcompare in H1, H30.
      destruct (Z.compare_spec (-52) e) as [E1|L1|G1]; try discriminate;
      destruct (Z.compare_spec e (-48)) as [E2|L2|G2]; try discriminate;
      (assert (He : -52 <= e <= -48) by lia);
      unfold valid_binary, bounded, canonical_mantissa in Hv;
      apply andb_prop in Hv as [Hc _]; apply Z.eqb_eq in Hc;
      unfold fexp, emin, prec, emax in Hc;
      unfold normal_in;
      (replace (Zpos (digits2_pos m)) with 53 by lia);
      simpl; apply andb_true_intro; split; lia. }
  split; [assumption|].
  assert (N1 : normal_in (-52) (-48) (lit 1 1) = true) by (vm_compute; reflexivity).
  assert (N30 : normal_in (-52) (-48) (lit 30 1) = true) by (vm_compute; reflexivity).
  split.
  - apply (fleb_scaled _ _ _ _ _ _ N1 Hn); [lia|lia|assumption].
  - apply (fleb_scaled _ _ _ _ _ _ Hn N30); [lia|lia|assumption].
Qed.

(** ** The scorer *)

Lemma index_from_combine (options : list string) :
  forall (ratings : list Z) (o : string) (a : Z) (i : Z),
    NoDup options ->
    In (o, a) (combine options ratings) ->
    exists j, index_from o options i = Ok (i + j) /\ 0 <= j /\
              nth_error ratings (Z.to_nat j) = Some a.
Proof.
  induction options as [|y options IH]; intros ratings o a i Hnd Hin.
  - contradiction.
  - destruct ratings as [|r ratings]; [contradiction|].
    inversion Hnd as [|? ? Hny Hnd']; subst.
    simpl in Hin. simpl index_from.
    destruct (String.eqb_spec y o) as [->|Hne].
    + exists 0. rewrite Z.add_0_r. repeat split; try lia.
      destruct Hin as [Heq|Hin]; [now inversion Heq|].
      exfalso. apply Hny. eapply in_combine_l; eauto.
    + destruct Hin as [Heq|Hin]; [inversion Heq; congruence|].
      destruct (IH ratings o a (i + 1) Hnd' Hin) as (j & Hj & Hj0 & Hnth).
      exists (j + 1). repeat split; try lia.
      * rewrite Hj. f_equal. lia.
      * rewrite Z2Nat.inj_add by lia. rewrite Nat.add_comm. exact Hnth.
Qed.

Section RatingLookup.

Variables (options : list string) (ratings : list Z).
Hypothesis options_distinct : NoDup options.

Lemma rating_point (o : string) (a : Z) :
  In (o, a) (point_table options ratings) ->
  rating options ratings o = Ok a /\ In a ratings.
Proof.
  intros Hin. split.
  - destruct (index_from_combine options ratings o a 0 options_distinct Hin)
      as (j & Hj & Hj0 & Hnth).
    unfold rating, index. rewrite Hj. simpl. unfold subscript.
    destruct (Z.ltb_spec j 0); [lia|]. now rewrite Hnth.
  - eapply in_combine_r; eauto.
Qed.

End RatingLookup.

Ltac nodup_strings :=
  repeat (constructor; [simpl; intuition discriminate|]); constructor.

Lemma ucs_options_NoDup : NoDup ucs_options.
Proof. unfold ucs_options. nodup_strings. Qed.
Lemma rqd_options_NoDup : NoDup rqd_options.
Proof. unfold rqd_options. nodup_strings. Qed.
Lemma spacing_options_NoDup : NoDup spacing_options.
Proof. unfold spacing_options. nodup_strings. Qed.
Lemma condition_options_NoDup : NoDup condition_options.
Proof. unfold condition_options. nodup_strings. Qed.
Lemma water_options_NoDup : NoDup water_options.
Proof. unfold water_options. nodup_strings. Qed.

Ltac in_ratings H := simpl in H; intuition lia.

(** C1: for every choice of one (label, points) pair from each of the five
    rating tables, the score computed from the five labels is the sum of the
    five point values; that sum lies between 0 and 100, it is never below 8,
    and 8 is reached by a valid choice. *)
Theorem rmr_value_sum_in_range :
  (forall o1 a1 o2 a2 o3 a3 o4 a4 o5 a5,
      In (o1, a1) (point_table ucs_options ucs_ratings) ->
      In (o2, a2) (point_table rqd_options rqd_ratings) ->
      In (o3, a3) (point_table spacing_options spacing_ratings) ->
      In (o4, a4) (point_table condition_options condition_ratings) ->
      In (o5, a5) (point_table water_options water_ratings) ->
      rmr_value o1 o2 o3 o4 o5 = Ok (a1 + a2 + a3 + a4 + a5) /\
      0 <= a1 + a2 + a3 + a4 + a5 <= 100 /\
      8 <= a1 + a2 + a3 + a4 + a5) /\
  (exists o1 o2 o3 o4 o5,
      In o1 ucs_options /\ In o2 rqd_options /\ In o3 spacing_options /\
      In o4 condition_options /\ In o5 water_options /\
      rmr_value o1 o2 o3 o4 o5 = Ok 8).
Proof.
  split.
  - intros o1 a1 o2 a2 o3 a3 o4 a4 o5 a5 H1 H2 H3 H4 H5.
    destruct (rating_point _ _ ucs_options_NoDup _ _ H1) as [E1 I1].
    destruct (rating_point _ _ rqd_options_NoDup _ _ H2) as [E2 I2].
    destruct (rating_point _ _ spacing_options_NoDup _ _ H3) as [E3 I3].
    destruct (rating_point _ _ condition_options_NoDup _ _ H4) as [E4 I4].
    destruct (rating_point _ _ water_options_NoDup _ _ H5) as [E5 I5].
    split.
    + unfold rmr_value. rewrite E1, E2, E3, E4, E5. reflexivity.
    + assert (0 <= a1 <= 15) by in_ratings I1.
      assert (3 <= a2 <= 20) by in_ratings I2.
      assert (5 <= a3 <= 20) by in_ratings I3.
      assert (0 <= a4 <= 30) by in_ratings I4.
      assert (0 <= a5 <= 15) by in_ratings I5.
      lia.
  - exists "< 1 MPa (0 points)", "< 25% (3 points)", "< 60 mm (5 points)",
      "Soft gouge > 5 mm, or separation > 5 mm (0 points)", "Flowing (0 points)".
    simpl. intuition.
Qed.

Lemma rmr_value_sum_in_range_witness :
  rmr_value "50-100 MPa (7 points)" "50-75% (13 points)"
    "200-600 mm (10 points)"
    "Slightly rough, separation < 1 mm, highly weathered (20 points)"
    "Damp (10 points)" = Ok (7 + 13 + 10 + 20 + 10).
Proof.
  apply (proj1 rmr_value_sum_in_range); simpl; auto 10.
Defined.

(** ** The classifier *)

Lemma classify_cases (score : Z) :
  (81 <= score <= 100 /\ classify score = mkRockClass "I" "Very good rock" "green") \/
  (61 <= score <= 80 /\ classify score = mkRockClass "II" "Good rock" "lightgreen") \/
  (41 <= score <= 60 /\ classify score = mkRockClass "III" "Fair rock" "yellow") \/
  (21 <= score <= 40 /\ classify score = mkRockClass "IV" "Poor rock" "orange") \/
  ((score <= 20 \/ 100 < score) /\
   classify score = mkRockClass "V" "Very poor rock" "red").
Proof.
  unfold classify.
  destruct (Z.leb_spec 81 score), (Z.leb_spec score 100); cbn [andb];
    try (left; split; [lia|reflexivity]); right.
  all: destruct (Z.leb_spec 61 score), (Z.leb_spec score 80); cbn [andb];
    try lia; try (left; split; [lia|reflexivity]); right.
  all: destruct (Z.leb_spec 41 score), (Z.leb_spec score 60); cbn [andb];
    try lia; try (left; split; [lia|reflexivity]); right.
  all: destruct (Z.leb_spec 21 score), (Z.leb_spec score 40); cbn [andb];
    try lia; try (left; split; [lia|reflexivity]); right.
  all: split; [lia|reflexivity].
Qed.

(** C2: the classifier sends 81-100 to class I, 61-80 to II, 41-60 to III,
    21-40 to IV and every score below 21, negative ones included, to V, each
    with its description; on scores up to 100 the class it returns is the one
    class whose band of the table contains the score. *)
Theorem classify_partition (score : Z) :
  (81 <= score <= 100 -> classify score = mkRockClass "I" "Very good rock" "green") /\
  (61 <= score <= 80 -> classify score = mkRockClass "II" "Good rock" "lightgreen") /\
  (41 <= score <= 60 -> classify score = mkRockClass "III" "Fair rock" "yellow") /\
  (21 <= score <= 40 -> classify score = mkRockClass "IV" "Poor rock" "orange") /\
  (score < 21 -> classify score = mkRockClass "V" "Very poor rock" "red") /\
  (score <= 100 -> forall c, rock_class (classify score) = c <-> band c score).
Proof.
  unfold band.
  destruct (classify_cases score) as [[H ->]|[[H ->]|[[H ->]|[[H ->]|[H ->]]]]];
    cbn [rock_class];
    (repeat split; try (intros; (reflexivity || lia)));
    try (intros <-; auto 10 with zarith; intuition lia);
    intros [[-> ?]|[[-> ?]|[[-> ?]|[[-> ?]|[-> ?]]]]]; (reflexivity || lia).
Qed.

Lemma classify_partition_witness :
  classify 81 = mkRockClass "I" "Very good rock" "green" /\
  classify 61 = mkRockClass "II" "Good rock" "lightgreen" /\
  classify 41 = mkRockClass "III" "Fair rock" "yellow" /\
  classify 21 = mkRockClass "IV" "Poor rock" "orange" /\
  classify (-3) = mkRockClass "V" "Very poor rock" "red" /\
  (rock_class (classify 60) = "III" <-> band "III" 60).
Proof.
  split; [apply (proj1 (classify_partition 81)); lia|].
  split; [apply (proj1 (proj2 (classify_partition 61))); lia|].
  split; [apply (proj1 (proj2 (proj2 (classify_partition 41)))); lia|].
  split; [apply (proj1 (proj2 (proj2 (proj2 (classify_partition 21))))); lia|].
  split;
    [apply (proj1 (proj2 (proj2 (proj2 (proj2 (classify_partition (-3))))))); lia|].
  apply (proj2 (proj2 (proj2 (proj2 (proj2 (classify_partition 60)))))); lia.
Defined.

(** ** Loops and traversals *)

Lemma truediv_nonzero (a b : float) :
  is_zero b = false -> truediv a b = Ok (fdiv a b).
Proof. intros H. unfold truediv. now rewrite H. Qed.

Lemma bind_Ok {A B : Type} (r : result A) (k : A -> result B) (b : B) :
  bind r k = Ok b -> exists a, r = Ok a /\ k a = Ok b.
Proof. destruct r as [a|e]; simpl; [eauto|discriminate]. Qed.

Lemma max_int_max (a b : Z) : max_int a b = Z.max a b.
Proof. unfold max_int. destruct (Z.ltb_spec a b); lia. Qed.

Lemma in_range (n i : Z) : In i (range n) <-> 0 <= i < n.
Proof.
  unfold range. rewrite in_map_iff. split.
  - intros (k & <- & Hk). apply in_seq in Hk. lia.
  - intros H. exists (Z.to_nat i). split; [lia|]. apply in_seq. lia.
Qed.

Lemma range_nonpos (n : Z) : n <= 0 -> range n = [].
Proof. intros H. unfold range. replace (Z.to_nat n) with 0%nat by lia. reflexivity. Qed.

Lemma range_two (n : Z) :
  2 <= n -> exists rest, range n = 0 :: 1 :: rest /\ Forall (fun i => 1 < i) rest.
Proof.
  intros H. unfold range.
  replace (Z.to_nat n) with (S (S (Z.to_nat n - 2))) by lia.
  simpl seq. simpl map. eexists. split; [reflexivity|].
  apply Forall_forall. intros i Hi. apply in_map_iff in Hi as (k & <- & Hk).
  apply in_seq in Hk. lia.
Qed.

Lemma traverse_app {A B : Type} (f : A -> result B) (l1 l2 : list A) :
  traverse f (l1 ++ l2) =
  (b1 <- traverse f l1 ;; b2 <- traverse f l2 ;; Ok (b1 ++ b2)).
Proof.
  induction l1 as [|a l1 IH]; simpl.
  - destruct (traverse f l2); reflexivity.
  - destruct (f a) as [b|e]; simpl; [|reflexivity].
    rewrite IH. destruct (traverse f l1) as [b1|e]; simpl; [|reflexivity].
    destruct (traverse f l2); reflexivity.
Qed.

Lemma traverse_Forall2 {A B : Type} (f : A -> result B) (l : list A) (bs : list B) :
  traverse f l = Ok bs <-> Forall2 (fun a b => f a = Ok b) l bs.
Proof.
  revert bs. induction l as [|a l IH]; intros bs; simpl.
  - split; [intros H; inversion H; constructor|intros H; inversion H; reflexivity].
  - split.
    + intros H. apply bind_Ok in H as (b & Hb & H).
      apply bind_Ok in H as (bs' & Hbs & H). inversion H; subst.
      constructor; [assumption|]. apply IH. assumption.
    + intros H. inversion H as [|? b ? bs' Hb Hbs]; subst.
      apply IH in Hbs. rewrite Hb, Hbs. reflexivity.
Qed.

Lemma traverse_total {A B : Type} (f : A -> result B) (P : B -> Prop) (l : list A) :
  (forall a, In a l -> exists b, f a = Ok b /\ P b) ->
  exists bs, traverse f l = Ok bs /\ Forall P bs.
Proof.
  induction l as [|a l IH]; intros H; simpl.
  - exists []. split; [reflexivity|constructor].
  - destruct (H a (or_introl eq_refl)) as (b & Hb & HP).
    destruct IH as (bs & Hbs & HF); [intros; apply H; now right|].
    exists (b :: bs). rewrite Hb, Hbs. split; [reflexivity|]. constructor; assumption.
Qed.

Lemma in_grid_cells (rows cols : Z) (cell : Z * Z) :
  In cell (grid_cells rows cols) <->
  0 <= fst cell < rows /\ 0 <= snd cell < cols.
Proof.
  unfold grid_cells. rewrite in_flat_map. split.
  - intros (row & Hrow & Hin). apply in_map_iff in Hin as (col & <- & Hcol).
    apply in_range in Hrow, Hcol. simpl. lia.
  - intros [Hr Hc]. exists (fst cell). split; [apply in_range; lia|].
    apply in_map_iff. exists (snd cell). split; [now destruct cell|].
    apply in_range; lia.
Qed.

(** ** The nested loops as a traversal of the grid *)

Section GridLoops.

Variables (width height : float) (rock_class : string) (rows cols : Z).

Lemma place_bolt_emit (row col : Z) (acc : list position) :
  mem rock_class ["II"; "III"] && (1 <? row) = false ->
  place_bolt width height rock_class rows cols row col acc =
  (p <- cell_position width height rows cols (row, col) ;; Ok (acc ++ [p])).
Proof.
  intros Hskip. unfold place_bolt, cell_position, coordinate. rewrite Hskip. simpl.
  destruct (to_float col); simpl; [|reflexivity].
  destruct (to_float cols); simpl; [|reflexivity].
  destruct (truediv width _); simpl; [|reflexivity].
  destruct (to_float row); simpl; [|reflexivity].
  destruct (to_float rows); simpl; [|reflexivity].
  destruct (truediv height _); reflexivity.
Qed.

Lemma place_bolt_skip (row col : Z) (acc : list position) :
  mem rock_class ["II"; "III"] && (1 <? row) = true ->
  place_bolt width height rock_class rows cols row col acc =
  (x <- coordinate width cols col ;; Ok acc).
Proof.
  intros Hskip. unfold place_bolt, coordinate. rewrite Hskip.
  destruct (to_float col); simpl; [|reflexivity].
  destruct (to_float cols); simpl; [|reflexivity].
  destruct (truediv width _); reflexivity.
Qed.

Lemma row_loop_emit (row : Z) (l : list Z) :
  mem rock_class ["II"; "III"] && (1 <? row) = false ->
  forall acc,
    for_each l (place_bolt width height rock_class rows cols row) acc =
    (bs <- traverse (cell_position width height rows cols)
             (map (fun col => (row, col)) l) ;;
     Ok (acc ++ bs)).
Proof.
  intros Hskip. induction l as [|col l IH]; intros acc; simpl.
  - now rewrite app_nil_r.
  - rewrite place_bolt_emit by assumption.
    destruct (cell_position width height rows cols (row, col)) as [p|e]; simpl;
      [|reflexivity].
    rewrite IH.
    destruct (traverse _ _) as [bs|e]; simpl; [|reflexivity].
    now rewrite <- app_assoc.
Qed.

Lemma row_loop_skip (row : Z) (l : list Z) (acc : list position) :
  mem rock_class ["II"; "III"] && (1 <? row) = true ->
  for_each l (place_bolt width height rock_class rows cols row) acc =
  (xs <- traverse (coordinate width cols) l ;; Ok acc).
Proof.
  intros Hskip. induction l as [|col l IH]; simpl; [reflexivity|].
  rewrite place_bolt_skip by assumption.
  destruct (coordinate width cols col); simpl; [|reflexivity].
  rewrite IH. destruct (traverse _ l); reflexivity.
Qed.

Lemma row_cells_coordinates (row : Z) (l : list Z) (bs : list position) :
  traverse (cell_position width height rows cols)
    (map (fun col => (row, col)) l) = Ok bs ->
  exists xs, traverse (coordinate width cols) l = Ok xs.
Proof.
  revert bs. induction l as [|col l IH]; intros bs; simpl; [eauto|].
  intros H. apply bind_Ok in H as (p & Hp & H).
  apply bind_Ok in H as (bs' & Hbs & _).
  unfold cell_position in Hp. simpl in Hp.
  apply bind_Ok in Hp as (x & Hx & _). rewrite Hx.
  destruct (IH _ Hbs) as (xs & ->). simpl. eauto.
Qed.

Lemma rows_loop_emit (cs rs : list Z) :
  Forall (fun row => mem rock_class ["II"; "III"] && (1 <? row) = false) rs ->
  forall acc,
    for_each rs
      (fun row bolt_positions =>
         for_each cs (place_bolt width height rock_class rows cols row)
           bolt_positions) acc =
    (bs <- traverse (cell_position width height rows cols)
             (flat_map (fun row => map (fun col => (row, col)) cs) rs) ;;
     Ok (acc ++ bs)).
Proof.
  induction rs as [|row rs IH]; intros HF acc; simpl.
  - now rewrite app_nil_r.
  - inversion HF as [|? ? Hrow HF']; subst.
    rewrite row_loop_emit by assumption. rewrite traverse_app.
    destruct (traverse _ (map _ cs)) as [b1|e]; simpl; [|reflexivity].
    rewrite IH by assumption.
    destruct (traverse _ (flat_map _ rs)) as [b2|e]; simpl; [|reflexivity].
    now rewrite app_assoc.
Qed.

Lemma rows_loop_skip (cs rs : list Z) (xs : list float) (acc : list position) :
  traverse (coordinate width cols) cs = Ok xs ->
  Forall (fun row => mem rock_class ["II"; "III"] && (1 <? row) = true) rs ->
  for_each rs
    (fun row bolt_positions =>
       for_each cs (place_bolt width height rock_class rows cols row)
         bolt_positions) acc = Ok acc.
Proof.
  intros Hxs. induction rs as [|row rs IH]; intros HF; simpl; [reflexivity|].
  inversion HF as [|? ? Hrow HF']; subst.
  rewrite row_loop_skip by assumption. rewrite Hxs. simpl. apply IH. assumption.
Qed.

End GridLoops.

Lemma bind_ret {A : Type} (r : result A) : (a <- r ;; Ok a) = r.
Proof. destruct r; reflexivity. Qed.

Lemma loops_grid (width height : float) (rock_class : string) (rows cols : Z) :
  (mem rock_class ["II"; "III"] = true -> 2 <= rows) ->
  for_each (range rows)
    (fun row bolt_positions =>
       for_each (range cols)
         (place_bolt width height rock_class rows cols row) bolt_positions) [] =
  grid width height rows cols
    (if mem rock_class ["II"; "III"] then 2 else rows).
Proof.
  intros Hrows. unfold grid, grid_cells.
  destruct (mem rock_class ["II"; "III"]) eqn:Hmem.
  - destruct (range_two rows (Hrows eq_refl)) as (rest & -> & Hrest).
    change (range 2) with [0; 1].
    cbn [for_each flat_map]. rewrite app_nil_r.
    rewrite row_loop_emit by (rewrite Hmem; reflexivity).
    rewrite traverse_app.
    destruct (traverse _ (map (fun col => (0, col)) (range cols))) as [b0|e] eqn:E0;
      simpl; [|reflexivity].
    rewrite row_loop_emit by (rewrite Hmem; reflexivity).
    destruct (traverse _ (map (fun col => (1, col)) (range cols))) as [b1|e] eqn:E1;
      simpl; [|reflexivity].
    destruct (row_cells_coordinates width height rows cols 0 (range cols) b0 E0)
      as (xs & Hxs).
    eapply rows_loop_skip; [exact Hxs|].
    eapply Forall_impl; [|exact Hrest].
    intros row Hrow. rewrite Hmem. simpl. apply Z.ltb_lt. exact Hrow.
  - rewrite rows_loop_emit.
    + simpl. apply bind_ret.
    + apply Forall_forall. intros row _. rewrite Hmem. reflexivity.
Qed.

Lemma mem_upper_not_lower (rock_class : string) :
  mem rock_class ["II"; "III"] = true -> mem rock_class ["IV"; "V"] = false.
Proof.
  unfold mem. simpl.
  destruct (String.eqb_spec rock_class "II") as [E|_]; [now rewrite E|].
  destruct (String.eqb_spec rock_class "III") as [E|_]; [now rewrite E|].
  discriminate.
Qed.

(** For every class but I, the positions are those of the grid, row by row. *)
Lemma bolt_positions_grid (width height spacing : float) (rock_class : string) :
  String.eqb rock_class "I" = false ->
  bolt_positions width height spacing rock_class =
  (rows <-
     (if mem rock_class ["IV"; "V"] then
        q <- truediv height spacing ;; int q
      else
        q <- truediv height spacing ;; r <- int q ;; Ok (max_int 2 r)) ;;
   q <- truediv width spacing ;;
   r <- int q ;;
   grid width height rows (max_int 3 r)
     (if mem rock_class ["II"; "III"] then 2 else rows)).
Proof.
  intros HI. unfold bolt_positions. rewrite HI.
  destruct (mem rock_class ["IV"; "V"]) eqn:Hlow.
  - destruct (truediv height spacing) as [qh|e]; simpl; [|reflexivity].
    destruct (int qh) as [rows|e]; simpl; [|reflexivity].
    destruct (truediv width spacing) as [qw|e]; simpl; [|reflexivity].
    destruct (int qw) as [r|e]; simpl; [|reflexivity].
    apply loops_grid. intros H. apply mem_upper_not_lower in H. congruence.
  - destruct (truediv height spacing) as [qh|e]; simpl; [|reflexivity].
    destruct (int qh) as [rh|e]; simpl; [|reflexivity].
    destruct (truediv width spacing) as [qw|e]; simpl; [|reflexivity].
    destruct (int qw) as [r|e]; simpl; [|reflexivity].
    apply loops_grid. intros _. rewrite max_int_max. lia.
Qed.

Lemma floor_int (x : float) :
  match floor x, int x with
  | Ok f, Ok i => f = i \/ (f <= 0 /\ i <= 0)
  | Err e1, Err e2 => e1 = e2
  | _, _ => False
  end.
Proof.
  destruct x as [s|s| |s m e]; try (simpl; auto; fail).
  unfold floor, int, cond_Zopp.
  destruct (Z.leb_spec 0 e) as [Hpos|Hneg]; [now left|].
  destruct s; [right|now left].
  assert (Hd : 0 < 2 ^ (- e)) by (apply Z.pow_pos_nonneg; lia).
  assert (0 <= (Zpos m + 2 ^ (- e) - 1) / 2 ^ (- e)) by (apply Z.div_pos; lia).
  assert (0 <= Zpos m / 2 ^ (- e)) by (apply Z.div_pos; lia).
  lia.
Qed.

Lemma grid_nonpos (width height : float) (rows cols emitted : Z) :
  emitted <= 0 -> grid width height rows cols emitted = Ok [].
Proof.
  intros H. unfold grid, grid_cells.
  rewrite (range_nonpos emitted) by assumption. reflexivity.
Qed.

Lemma not_class_I (c : string) :
  In c ["II"; "III"; "IV"; "V"] -> String.eqb c "I" = false.
Proof. simpl. intros [<-|[<-|[<-|[<-|[]]]]]; reflexivity. Qed.

(** C7: for classes II to V the layout is the grid with
    rows = floor(height/spacing) (IV, V) or max(2, floor(height/spacing))
    (II, III) and cols = max(3, floor(width/spacing)); cell (row, col) has
    x = (col + 0.5) * (width / cols) and y = (row + 0.5) * (height / rows), the
    cells come in row-major order, and classes II and III emit rows 0 and 1
    only.  The equation includes the exceptions: both sides fail alike. *)
Theorem grid_layout_rows_cols (rock_class : string) (width height spacing : float) :
  In rock_class ["II"; "III"; "IV"; "V"] ->
  bolt_positions width height spacing rock_class =
  (qh <- truediv height spacing ;;
   fh <- floor qh ;;
   qw <- truediv width spacing ;;
   fw <- floor qw ;;
   let rows := if mem rock_class ["IV"; "V"] then fh else Z.max 2 fh in
   let cols := Z.max 3 fw in
   grid width height rows cols
     (if mem rock_class ["II"; "III"] then 2 else rows)).
Proof.
  intros Hin. rewrite bolt_positions_grid by (apply not_class_I; assumption).
  assert (Hcases :
            (mem rock_class ["IV"; "V"] = false /\ mem rock_class ["II"; "III"] = true) \/
            (mem rock_class ["IV"; "V"] = true /\ mem rock_class ["II"; "III"] = false)).
  { simpl in Hin. destruct Hin as [<-|[<-|[<-|[<-|[]]]]]; auto. }
  pose proof (floor_int) as FI.
  destruct Hcases as [[Hlow Hup]|[Hlow Hup]]; rewrite Hlow, Hup; clear Hlow Hup Hin;
    (destruct (truediv height spacing) as [qh|e]; cbn [bind]; [|reflexivity]);
    (pose proof (FI qh) as Hh;
     destruct (floor qh) as [fh|e1], (int qh) as [ih|e2]; cbn [bind];
     try contradiction; [|subst; reflexivity]);
    (destruct (truediv width spacing) as [qw|e]; cbn [bind]; [|reflexivity]);
    (pose proof (FI qw) as Hw;
     destruct (floor qw) as [fw|e1], (int qw) as [iw|e2]; cbn [bind];
     try contradiction; [|subst; reflexivity]);
    rewrite !max_int_max;
    (replace (Z.max 3 iw) with (Z.max 3 fw) by lia).
  - replace (Z.max 2 ih) with (Z.max 2 fh) by lia. reflexivity.
  - destruct Hh as [->|[Hf Hi]]; [reflexivity|].
    rewrite !grid_nonpos by assumption. reflexivity.
Qed.

Lemma grid_layout_rows_cols_witness :
  bolt_positions (lit 5 1) (lit 35 10) (lit 10 10) "IV" =
  (qh <- truediv (lit 35 10) (lit 10 10) ;;
   fh <- floor qh ;;
   qw <- truediv (lit 5 1) (lit 10 10) ;;
   fw <- floor qw ;;
   let rows := if mem "IV" ["IV"; "V"] then fh else Z.max 2 fh in
   let cols := Z.max 3 fw in
   grid (lit 5 1) (lit 35 10) rows cols
     (if mem "IV" ["II"; "III"] then 2 else rows)).
Proof.
  apply (grid_layout_rows_cols "IV" (lit 5 1) (lit 35 10) (lit 10 10)).
  simpl. auto.
Defined.

(** C6: for classes II and III every emitted position is the position of a
    grid cell of row 0 or row 1: the layout is exactly the traversal of the
    first two rows of the grid the code computed. *)
Theorem upper_classes_first_two_rows
  (rock_class : string) (width height spacing : float) (l : list position) :
  In rock_class ["II"; "III"] ->
  bolt_positions width height spacing rock_class = Ok l ->
  exists qh rh qw rw,
    truediv height spacing = Ok qh /\ int qh = Ok rh /\
    truediv width spacing = Ok qw /\ int qw = Ok rw /\
    Forall2
      (fun cell p =>
         0 <= fst cell <= 1 /\ 0 <= snd cell < Z.max 3 rw /\
         cell_position width height (Z.max 2 rh) (Z.max 3 rw) cell = Ok p)
      (grid_cells 2 (Z.max 3 rw)) l.
Proof.
  intros Hin Hl.
  assert (HI : String.eqb rock_class "I" = false)
    by (simpl in Hin; destruct Hin as [<-|[<-|[]]]; reflexivity).
  assert (Hup : mem rock_class ["II"; "III"] = true)
    by (simpl in Hin; destruct Hin as [<-|[<-|[]]]; reflexivity).
  rewrite bolt_positions_grid in Hl by assumption.
  rewrite (mem_upper_not_lower _ Hup), Hup in Hl.
  apply bind_Ok in Hl as (rows & Hrows & Hl).
  apply bind_Ok in Hrows as (qh & Hqh & Hrows).
  apply bind_Ok in Hrows as (rh & Hrh & Hrows).
  apply bind_Ok in Hl as (qw & Hqw & Hl).
  apply bind_Ok in Hl as (rw & Hrw & Hl).
  inversion Hrows; subst rows. rewrite !max_int_max in Hl.
  exists qh, rh, qw, rw. repeat (split; [assumption|]).
  unfold grid in Hl. apply traverse_Forall2 in Hl.
  assert (Hcells : Forall (fun cell => 0 <= fst cell <= 1 /\ 0 <= snd cell < Z.max 3 rw)
                     (grid_cells 2 (Z.max 3 rw))).
  { apply Forall_forall. intros cell Hc. apply in_grid_cells in Hc. lia. }
  revert Hcells. induction Hl as [|cell p cells ps Hp Hl IH]; intros Hcells.
  - constructor.
  - inversion Hcells; subst. constructor; [tauto|auto].
Qed.

(* Class II, 5.0 x 7.5 m, spacing 1.5: int(7.5/1.5) = 5 rows and 3 columns
   are computed, and only the six positions of rows 0 and 1 are emitted. *)
Lemma upper_classes_first_two_rows_witness :
  int (fdiv (lit 75 10) (lit 15 10)) = Ok 5 /\
  exists qh rh qw rw,
    truediv (lit 75 10) (lit 15 10) = Ok qh /\ int qh = Ok rh /\
    truediv (lit 5 1) (lit 15 10) = Ok qw /\ int qw = Ok rw /\
    Forall2
      (fun cell p =>
         0 <= fst cell <= 1 /\ 0 <= snd cell < Z.max 3 rw /\
         cell_position (lit 5 1) (lit 75 10) (Z.max 2 rh) (Z.max 3 rw) cell = Ok p)
      (grid_cells 2 (Z.max 3 rw))
      [(S754_finite false 7505999378950827 (-53),
        S754_finite false 6755399441055744 (-53));
       (S754_finite false 5629499534213120 (-51),
        S754_finite false 6755399441055744 (-53));
       (S754_finite false 4691249611844267 (-50),
        S754_finite false 6755399441055744 (-53));
       (S754_finite false 7505999378950827 (-53),
        S754_finite false 5066549580791808 (-51));
       (S754_finite false 5629499534213120 (-51),
        S754_finite false 5066549580791808 (-51));
       (S754_finite false 4691249611844267 (-50),
        S754_finite false 5066549580791808 (-51))].
Proof.
  split; [vm_compute; reflexivity|].
  apply (upper_classes_first_two_rows "II" (lit 5 1) (lit 75 10) (lit 15 10)).
  - simpl. auto.
  - vm_compute. reflexivity.
Defined.

(** C5: for class I the layout is the three positions (width/4, 0.5),
    (width/2, 0.5), (3*width/4, 0.5), in that order, whatever the height and
    the spacing. *)
Theorem class_I_three_positions (width height spacing : float) :
  bolt_positions width height spacing "I" =
  Ok [ (fdiv width (lit 4 1), lit 5 10);
       (fdiv width (lit 2 1), lit 5 10);
       (fdiv (fmul (lit 3 1) width) (lit 4 1), lit 5 10) ].
Proof.
  unfold bolt_positions.
  change (String.eqb "I" "I") with true. cbv iota.
  rewrite !truediv_nonzero by (vm_compute; reflexivity).
  reflexivity.
Qed.

(** ** The support table *)

(** C3: for every width, each class gets the bolt length and the fixed
    spacing of the table: I max(2.0, width/5) and 2.0, II max(2.5, width/4)
    and 1.5, III max(3.0, width/3) and 1.2, IV max(4.0, width/2.5) and 1.0,
    V max(4.5, width/2) and 0.6. *)
Theorem support_table (width : float) :
  (exists s, support_recommendation "I" width = Ok s /\
             bolt_length s = max_float (lit 20 10) (fdiv width (lit 5 1)) /\
             bolt_spacing s = lit 20 10) /\
  (exists s, support_recommendation "II" width = Ok s /\
             bolt_length s = max_float (lit 25 10) (fdiv width (lit 4 1)) /\
             bolt_spacing s = lit 15 10) /\
  (exists s, support_recommendation "III" width = Ok s /\
             bolt_length s = max_float (lit 30 10) (fdiv width (lit 3 1)) /\
             bolt_spacing s = lit 12 10) /\
  (exists s, support_recommendation "IV" width = Ok s /\
             bolt_length s = max_float (lit 40 10) (fdiv width (lit 25 10)) /\
             bolt_spacing s = lit 10 10) /\
  (exists s, support_recommendation "V" width = Ok s /\
             bolt_length s = max_float (lit 45 10) (fdiv width (lit 2 1)) /\
             bolt_spacing s = lit 6 10).
Proof.
  unfold support_recommendation.
  repeat split; cbn [String.eqb Ascii.eqb Bool.eqb];
    rewrite truediv_nonzero by (vm_compute; reflexivity);
    eexists; repeat split; reflexivity.
Qed.

(** ** Ties of [round] *)

Lemma round_half_even_tie (n P : Z) :
  0 < P -> round_half_even ((2 * n + 1) * P) (2 * P) = if Z.even n then n else n + 1.
Proof.
  intros HP. unfold round_half_even.
  assert (Hq : ((2 * n + 1) * P) / (2 * P) = n)
    by (symmetry; apply Z.div_unique with (r := P); lia).
  assert (Hr : ((2 * n + 1) * P) mod (2 * P) = P)
    by (symmetry; apply Z.mod_unique with (q := n); lia).
  rewrite Hq, Hr, Z.compare_refl. reflexivity.
Qed.

(** ** Quotients of sidebar values by a table spacing *)

Lemma quotient_bound (s w : float) :
  table_spacing s = true -> in_ui_range w ->
  normal_in (-54) (-46) (fdiv w s) = true /\
  scaled (fdiv w s) < 51 * 2 ^ 1074.
Proof.
  intros Hs Hw. apply andb_prop in Hs as [Hn Hc]. apply Z.ltb_lt in Hc.
  destruct (in_ui_range_normal w Hw) as (Hwn & _ & Hw30).
  destruct (fdiv_normal (-52) (-48) (-53) (-51) w s Hwn Hn) as [Hq Hv]; try lia.
  split; [exact Hq|].
  pose proof (scaled_pos _ _ _ Hn ltac:(lia)) as Hspos.
  pose proof (scaled_pos _ _ _ Hq ltac:(lia)) as Hqpos.
  assert (HK : 0 < 2 ^ 1074) by (apply pow2_pos; lia).
  set (K := 2 ^ 1074) in *. set (E := 2 ^ 52) in *.
  set (Q := scaled (fdiv w s)) in *. set (S := scaled s) in *.
  set (W := scaled w) in *. set (W30 := scaled (lit 30 1)) in *.
  assert (HE : 0 < E) by (unfold E; apply pow2_pos; lia).
  apply Z.mul_lt_mono_pos_r with (S * E); [apply Z.mul_pos_pos; assumption|].
  apply Z.le_lt_trans with (W * K * (E + 1)); [lia|].
  apply Z.le_lt_trans with (W30 * K * (E + 1)).
  - apply Z.mul_le_mono_nonneg_r; [lia|]. apply Z.mul_le_mono_nonneg_r; lia.
  - replace (W30 * K * (E + 1)) with (W30 * (E + 1) * K) by ring.
    replace (51 * K * (S * E)) with (51 * S * E * K) by ring.
    apply Z.mul_lt_mono_pos_r; assumption.
Qed.

Lemma converts_small (n : Z) : 0 <= n <= 51 -> exists f, to_float n = Ok f.
Proof.
  intros Hn.
  assert (H : forallb converts (range 52) = true) by (vm_compute; reflexivity).
  rewrite forallb_forall in H. specialize (H n ltac:(apply in_range; lia)).
  unfold converts in H. destruct (to_float n) as [f|e]; [eauto|discriminate].
Qed.

(** ** The quantities *)

Lemma bolt_quantities_ui (rock_class : string) (w L bl s : float) :
  table_spacing s = true -> in_ui_range w ->
  exists r f,
    round (fdiv w s) = Ok r /\
    to_float (Z.max (if String.eqb rock_class "I" then 2 else 3) r) = Ok f /\
    bolt_quantities rock_class w L bl s =
    Ok (let rows_per_meter :=
          if String.eqb rock_class "I" then lit 5 10 else fdiv (lit 1 1) s in
        mkQuantities
          (Z.max (if String.eqb rock_class "I" then 2 else 3) r)
          rows_per_meter
          (fmul f rows_per_meter)
          (fmul (fmul f rows_per_meter) L)
          (fmul (fmul (fmul f rows_per_meter) L) bl)).
Proof.
  intros Hs Hw.
  destruct (quotient_bound s w Hs Hw) as [Hq Hv].
  destruct (round_normal_bound _ _ _ 50 Hq ltac:(lia) Hv) as (r & Hr & Hrb).
  assert (Hnz : is_zero s = false).
  { apply andb_prop in Hs as [Hn _].
    destruct (normal_in_inv _ _ _ Hn) as (m & e & -> & _). reflexivity. }
  destruct (converts_small (Z.max (if String.eqb rock_class "I" then 2 else 3) r))
    as (f & Hf); [destruct (String.eqb rock_class "I"); lia|].
  exists r, f. split; [assumption|]. split; [assumption|].
  unfold bolt_quantities. rewrite !truediv_nonzero by assumption.
  revert Hf.
  destruct (String.eqb rock_class "I"); intros Hf; cbn [bind]; rewrite Hr;
    cbn [bind fst snd]; rewrite max_int_max, Hf; reflexivity.
Qed.

Lemma bolt_quantities_eq (rock_class : string) (w L bl s : float) :
  is_zero s = false ->
  bolt_quantities rock_class w L bl s =
  (r <- round (fdiv w s) ;;
   f <- to_float (Z.max (if String.eqb rock_class "I" then 2 else 3) r) ;;
   Ok (let rows_per_meter :=
         if String.eqb rock_class "I" then lit 5 10 else fdiv (lit 1 1) s in
       mkQuantities
         (Z.max (if String.eqb rock_class "I" then 2 else 3) r)
         rows_per_meter
         (fmul f rows_per_meter)
         (fmul (fmul f rows_per_meter) L)
         (fmul (fmul (fmul f rows_per_meter) L) bl))).
Proof.
  intros Hs. unfold bolt_quantities. rewrite !truediv_nonzero by assumption.
  destruct (String.eqb rock_class "I"); cbn [bind];
    (destruct (round (fdiv w s)) as [r|e]; cbn [bind fst snd]; [|reflexivity]);
    rewrite max_int_max;
    (destruct (to_float _) as [f|e]; reflexivity).
Qed.

Lemma table_row (rock_class : string) (width : float) :
  In rock_class rock_classes ->
  exists s, support_recommendation rock_class width = Ok s /\
            table_spacing (bolt_spacing s) = true.
Proof.
  unfold rock_classes. simpl. intros Hin.
  destruct Hin as [<-|[<-|[<-|[<-|[<-|[]]]]]]; unfold support_recommendation;
    cbn [String.eqb Ascii.eqb Bool.eqb];
    rewrite truediv_nonzero by (vm_compute; reflexivity);
    eexists; (split; [reflexivity|]); cbn [bolt_spacing]; vm_compute; reflexivity.
Qed.

Lemma table_spacing_nonzero (s : float) : table_spacing s = true -> is_zero s = false.
Proof.
  intros Hs. apply andb_prop in Hs as [Hn _]. eapply normal_nonzero. exact Hn.
Qed.

(** C4: for every class, width and tunnel length the plan is the table row
    with bolts_per_row = max(2, round(width/spacing)) for class I and
    max(3, round(width/spacing)) otherwise, rows_per_meter = 0.5 for class I
    and 1/spacing otherwise, bolt_density = bolts_per_row * rows_per_meter,
    total_bolts = bolt_density * tunnel_length and total_bolt_length =
    total_bolts * bolt_length; the plan fails exactly when the rounding or the
    conversion of bolts_per_row fails, which no sidebar width causes. *)
Theorem bolt_quantities_formulas (rock_class : string) (width tunnel_length : float) :
  In rock_class rock_classes ->
  exists s,
    support_recommendation rock_class width = Ok s /\
    support_plan rock_class width tunnel_length =
    (r <- round (fdiv width (bolt_spacing s)) ;;
     f <- to_float (Z.max (if String.eqb rock_class "I" then 2 else 3) r) ;;
     Ok (s,
         let rows_per_meter :=
           if String.eqb rock_class "I" then lit 5 10
           else fdiv (lit 1 1) (bolt_spacing s) in
         mkQuantities
           (Z.max (if String.eqb rock_class "I" then 2 else 3) r)
           rows_per_meter
           (fmul f rows_per_meter)
           (fmul (fmul f rows_per_meter) tunnel_length)
           (fmul (fmul (fmul f rows_per_meter) tunnel_length) (bolt_length s)))) /\
    (in_ui_range width ->
     exists r f,
       round (fdiv width (bolt_spacing s)) = Ok r /\
       to_float (Z.max (if String.eqb rock_class "I" then 2 else 3) r) = Ok f).
Proof.
  intros Hin. destruct (table_row rock_class width Hin) as (s & Hs & Hts).
  exists s. split; [assumption|]. split.
  - unfold support_plan. rewrite Hs. cbn [bind].
    rewrite bolt_quantities_eq by (apply table_spacing_nonzero; assumption).
    destruct (round _) as [r|e]; cbn [bind]; [|reflexivity].
    destruct (to_float _) as [f|e]; reflexivity.
  - intros Hw.
    destruct (bolt_quantities_ui rock_class width tunnel_length (bolt_length s)
                (bolt_spacing s) Hts Hw) as (r & f & Hr & Hf & _).
    eauto.
Qed.

Lemma bolt_quantities_formulas_witness :
  exists s,
    support_recommendation "III" (lit 5 1) = Ok s /\
    support_plan "III" (lit 5 1) (lit 100 1) =
    (r <- round (fdiv (lit 5 1) (bolt_spacing s)) ;;
     f <- to_float (Z.max (if String.eqb "III" "I" then 2 else 3) r) ;;
     Ok (s,
         let rows_per_meter :=
           if String.eqb "III" "I" then lit 5 10
           else fdiv (lit 1 1) (bolt_spacing s) in
         mkQuantities
           (Z.max (if String.eqb "III" "I" then 2 else 3) r)
           rows_per_meter
           (fmul f rows_per_meter)
           (fmul (fmul f rows_per_meter) (lit 100 1))
           (fmul (fmul (fmul f rows_per_meter) (lit 100 1)) (bolt_length s)))) /\
    (in_ui_range (lit 5 1) ->
     exists r f,
       round (fdiv (lit 5 1) (bolt_spacing s)) = Ok r /\
       to_float (Z.max (if String.eqb "III" "I" then 2 else 3) r) = Ok f).
Proof.
  apply (bolt_quantities_formulas "III" (lit 5 1) (lit 100 1)).
  unfold rock_classes. simpl. auto.
Defined.

(** ** Rounding of bolts per row *)

Lemma round_tie (sg : bool) (m : positive) (e n : Z) :
  e < 0 -> Zpos m = (2 * n + 1) * 2 ^ (- e - 1) ->
  round (S754_finite sg m e) = Ok (cond_Zopp sg (if Z.even n then n else n + 1)).
Proof.
  intros He Hm. unfold round.
  destruct (Z.leb_spec 0 e); [lia|].
  replace (2 ^ (- e)) with (2 * 2 ^ (- e - 1)).
  - rewrite Hm, round_half_even_tie by (apply Z.pow_pos_nonneg; lia). reflexivity.
  - rewrite <- Z.pow_succ_r by lia. f_equal. lia.
Qed.

Lemma table_row_spacing (rock_class : string) (width : float) (s : Support) :
  support_recommendation rock_class width = Ok s ->
  table_spacing (bolt_spacing s) = true.
Proof.
  unfold support_recommendation. intros Hs.
  destruct (String.eqb rock_class "I");
    [|destruct (String.eqb rock_class "II");
      [|destruct (String.eqb rock_class "III");
        [|destruct (String.eqb rock_class "IV")]]];
    rewrite truediv_nonzero in Hs by (vm_compute; reflexivity);
    inversion Hs; subst s; cbn [bolt_spacing]; vm_compute; reflexivity.
Qed.

Lemma tie_plan (rock_class : string) (width tunnel_length : float) (s : Support)
  (sg : bool) (m : positive) (e n : Z) :
  support_recommendation rock_class width = Ok s ->
  fdiv width (bolt_spacing s) = S754_finite sg m e ->
  e < 0 -> Zpos m = (2 * n + 1) * 2 ^ (- e - 1) ->
  (forall plan,
      support_plan rock_class width tunnel_length = Ok plan ->
      bolts_per_row (snd plan) =
      Z.max (if String.eqb rock_class "I" then 2 else 3)
            (cond_Zopp sg (if Z.even n then n else n + 1))) /\
  (in_ui_range width ->
   exists q,
     support_plan rock_class width tunnel_length = Ok (s, q) /\
     bolts_per_row q =
     Z.max (if String.eqb rock_class "I" then 2 else 3)
           (cond_Zopp sg (if Z.even n then n else n + 1))).
Proof.
  intros Hs Hq He Hm.
  pose proof (table_row_spacing _ _ _ Hs) as Ht.
  pose proof (round_tie sg m e n He Hm) as Hr. rewrite <- Hq in Hr.
  split.
  - intros plan Hp. unfold support_plan in Hp. rewrite Hs in Hp. cbn [bind] in Hp.
    rewrite bolt_quantities_eq in Hp by (apply table_spacing_nonzero; exact Ht).
    rewrite Hr in Hp. cbn [bind] in Hp.
    destruct (to_float _) as [f|err]; cbn [bind] in Hp; [|discriminate].
    inversion Hp; subst plan. reflexivity.
  - intros Hw.
    destruct (bolt_quantities_ui rock_class width tunnel_length (bolt_length s)
                (bolt_spacing s) Ht Hw) as (r & f & Hr' & _ & Hb).
    rewrite Hr in Hr'. inversion Hr'; subst r.
    unfold support_plan. rewrite Hs. cbn [bind]. rewrite Hb. cbn [bind].
    eexists. split; reflexivity.
Qed.

Lemma class_I_row (width tunnel_length : float) (r : Z) :
  round (fdiv width (lit 20 10)) = Ok r -> 0 <= r <= 51 ->
  exists s q, support_plan "I" width tunnel_length = Ok (s, q) /\
              bolts_per_row q = Z.max 2 r.
Proof.
  intros Hr Hb.
  destruct (converts_small (Z.max 2 r)) as (f & Hf); [lia|].
  unfold support_plan, support_recommendation.
  cbn [String.eqb Ascii.eqb Bool.eqb].
  rewrite truediv_nonzero by (vm_compute; reflexivity).
  cbn [bind bolt_length bolt_spacing].
  rewrite bolt_quantities_eq by (vm_compute; reflexivity).
  rewrite Hr. cbn [bind]. cbn [String.eqb Ascii.eqb Bool.eqb]. rewrite Hf. cbn [bind].
  eexists. eexists. split; reflexivity.
Qed.

(** C10: bolts_per_row rounds a quotient that is exactly halfway between two
    integers to the even one.  Whenever width / bolt_spacing is the float
    n + 1/2 (or its opposite), every plan the code returns has bolts_per_row =
    max(2, n) for class I and max(3, n) otherwise when n is even, and
    max(2, n + 1), max(3, n + 1) when n is odd, and a sidebar width does get
    a plan.  For class I the quotient 5.0/2.0 is 2.5 and bolts_per_row is
    max(2, 2) = 2; above the minimum, 9.0/2.0 = 4.5 gives 4 (not 5),
    7.0/2.0 = 3.5 gives 4 (not 3), and for class IV 4.5/1.0 gives 4 and
    5.5/1.0 gives 6. *)
Theorem round_ties_to_even :
  (forall rock_class width tunnel_length s sg m e n,
      support_recommendation rock_class width = Ok s ->
      fdiv width (bolt_spacing s) = S754_finite sg m e ->
      e < 0 -> Zpos m = (2 * n + 1) * 2 ^ (- e - 1) ->
      round (fdiv width (bolt_spacing s)) =
      Ok (cond_Zopp sg (if Z.even n then n else n + 1)) /\
      (forall plan,
          support_plan rock_class width tunnel_length = Ok plan ->
          bolts_per_row (snd plan) =
          Z.max (if String.eqb rock_class "I" then 2 else 3)
                (cond_Zopp sg (if Z.even n then n else n + 1))) /\
      (in_ui_range width ->
       exists q,
         support_plan rock_class width tunnel_length = Ok (s, q) /\
         bolts_per_row q =
         Z.max (if String.eqb rock_class "I" then 2 else 3)
               (cond_Zopp sg (if Z.even n then n else n + 1)))) /\
  fdiv (lit 5 1) (lit 20 10) = lit 25 10 /\
  round (lit 25 10) = Ok 2 /\
  (forall tunnel_length,
      exists s q, support_plan "I" (lit 5 1) tunnel_length = Ok (s, q) /\
                  bolts_per_row q = 2) /\
  (forall tunnel_length,
      exists s q, support_plan "I" (lit 9 1) tunnel_length = Ok (s, q) /\
                  bolts_per_row q = 4) /\
  (forall tunnel_length,
      exists s q, support_plan "I" (lit 7 1) tunnel_length = Ok (s, q) /\
                  bolts_per_row q = 4) /\
  (forall tunnel_length,
      exists s q, support_plan "IV" (lit 45 10) tunnel_length = Ok (s, q) /\
                  bolts_per_row q = 4) /\
  (forall tunnel_length,
      exists s q, support_plan "IV" (lit 55 10) tunnel_length = Ok (s, q) /\
                  bolts_per_row q = 6).
Proof.
  split.
  { intros rock_class width tunnel_length s sg m e n Hs Hq He Hm. split.
    - rewrite Hq. apply round_tie; assumption.
    - exact (tie_plan rock_class width tunnel_length s sg m e n Hs Hq He Hm). }
  split; [vm_compute; reflexivity|].
  split; [vm_compute; reflexivity|].
  assert (HI : forall width r, round (fdiv width (lit 20 10)) = Ok r -> 0 <= r <= 51 ->
               forall tunnel_length,
                 exists s q, support_plan "I" width tunnel_length = Ok (s, q) /\
                             bolts_per_row q = Z.max 2 r)
    by (intros; apply class_I_row; assumption).
  assert (HIV : forall width m e n,
             fdiv width (lit 10 10) = S754_finite false m e ->
             e < 0 -> Zpos m = (2 * n + 1) * 2 ^ (- e - 1) -> in_ui_range width ->
             forall tunnel_length,
               exists s q, support_plan "IV" width tunnel_length = Ok (s, q) /\
                           bolts_per_row q = Z.max 3 (if Z.even n then n else n + 1)).
  { intros width m e n Hq He Hm Hw tunnel_length.
    destruct (table_row "IV" width) as (s & Hs & _); [simpl; auto 6|].
    assert (Hsp : bolt_spacing s = lit 10 10).
    { unfold support_recommendation in Hs. cbn [String.eqb Ascii.eqb Bool.eqb] in Hs.
      rewrite truediv_nonzero in Hs by (vm_compute; reflexivity).
      inversion Hs; reflexivity. }
    rewrite <- Hsp in Hq.
    destruct (proj2 (tie_plan "IV" width tunnel_length s false m e n Hs Hq He Hm) Hw)
      as (q & Hp & Hb).
    exists s, q. split; [exact Hp|exact Hb]. }
  repeat split.
  - apply (HI (lit 5 1) 2); [vm_compute; reflexivity|lia].
  - apply (HI (lit 9 1) 4); [vm_compute; reflexivity|lia].
  - apply (HI (lit 7 1) 4); [vm_compute; reflexivity|lia].
  - apply (HIV (lit 45 10) 5066549580791808%positive (-50) 4);
      [vm_compute; reflexivity|lia|reflexivity|repeat split; vm_compute; reflexivity].
  - apply (HIV (lit 55 10) 6192449487634432%positive (-50) 5);
      [vm_compute; reflexivity|lia|reflexivity|repeat split; vm_compute; reflexivity].
Qed.

Lemma round_ties_to_even_witness :
  fdiv (lit 9 1) (lit 20 10) = S754_finite false 5066549580791808 (-50) /\
  round (fdiv (lit 9 1) (lit 20 10)) = Ok 4 /\
  (forall plan,
      support_plan "I" (lit 9 1) (lit 100 1) = Ok plan ->
      bolts_per_row (snd plan) = 4) /\
  (exists plan,
      support_plan "I" (lit 9 1) (lit 100 1) = Ok plan /\
      bolts_per_row (snd plan) = 4).
Proof.
  destruct (support_recommendation "I" (lit 9 1)) as [s|err] eqn:Hs;
    [|vm_compute in Hs; discriminate].
  assert (Hsp : bolt_spacing s = lit 20 10)
    by (vm_compute in Hs; inversion Hs; vm_compute; reflexivity).
  assert (Hq : fdiv (lit 9 1) (lit 20 10) = S754_finite false 5066549580791808 (-50))
    by (vm_compute; reflexivity).
  destruct (proj1 round_ties_to_even "I" (lit 9 1) (lit 100 1) s false
              5066549580791808%positive (-50) 4 Hs) as (Hr & Hall & Hex).
  - rewrite Hsp. exact Hq.
  - lia.
  - reflexivity.
  - rewrite Hsp in Hr. split; [exact Hq|]. split; [exact Hr|]. split; [exact Hall|].
    destruct Hex as (q & Hp & Hb); [repeat split; vm_compute; reflexivity|].
    exists (s, q). split; [exact Hp|exact Hb].
Defined.

(** ** Divisors are never zero *)

Lemma pack_nonzero (s : bool) (R e : Z) : is_zero (pack s R e) = false.
Proof.
  unfold pack.
  destruct (R <? 2 ^ 53); [destruct (e <=? 971)|destruct (e + 1 <=? 971)];
    reflexivity.
Qed.

Lemma shl_align_digits (p : positive) (k : positive) :
  Zpos (digits2_pos p) + Zpos k = 53 ->
  Zdigits2 (Zpos (Pos.iter xO p k)) = 53.
Proof.
  intros Hd. apply Zdigits2_unique; [lia|].
  change (Pos.iter xO p k) with (shift_pos k p).
  rewrite shift_pos_correct. change (Zpower_pos 2 k) with (2 ^ Zpos k).
  pose proof (digits2_pos_bounds p) as [Hlo Hhi].
  set (d := Zpos (digits2_pos p)) in *.
  assert (Hk : 0 < 2 ^ Zpos k) by (apply pow2_pos; lia).
  assert (E1 : 2 ^ (53 - 1) = 2 ^ Zpos k * 2 ^ (d - 1))
    by (rewrite <- pow2_split by lia; f_equal; lia).
  assert (E2 : 2 ^ 53 = 2 ^ Zpos k * 2 ^ d)
    by (rewrite <- pow2_split by lia; f_equal; lia).
  rewrite E1, E2. split.
  - apply Z.mul_le_mono_nonneg_l; lia.
  - apply Z.mul_lt_mono_pos_l; lia.
Qed.

Lemma binary_round_nonzero (s : bool) (p : positive) :
  is_zero (binary_round prec emax s p 0) = false.
Proof.
  unfold binary_round, shl_align.
  assert (Hd : 0 < Zpos (digits2_pos p)) by lia.
  rewrite fexp_normal by lia.
  destruct (Zpos (digits2_pos p) + 0 - 53 - 0) as [|k|k] eqn:Hk.
  - destruct (round_aux_normal s (Zpos p) 0 loc_Exact) as (R & _ & ->);
      [lia | simpl Zdigits2; lia | simpl Zdigits2; lia |].
    apply pack_nonzero.
  - destruct (round_aux_normal s (Zpos p) 0 loc_Exact) as (R & _ & ->);
      [lia | simpl Zdigits2; lia | simpl Zdigits2; lia |].
    apply pack_nonzero.
  - assert (H53 : Zdigits2 (Zpos (Pos.iter xO p k)) = 53)
      by (apply shl_align_digits; lia).
    destruct (round_aux_normal s (Zpos (Pos.iter xO p k))
                (Zpos (digits2_pos p) + 0 - 53) loc_Exact) as (R & _ & ->);
      [lia | lia | lia |].
    apply pack_nonzero.
Qed.

Lemma to_float_nonzero (n : Z) (f : float) :
  0 < n -> to_float n = Ok f -> is_zero f = false.
Proof.
  intros Hn. unfold to_float, float_of_Z, binary_normalize.
  destruct n as [|p|p]; try lia.
  pose proof (binary_round_nonzero false p) as Hnz.
  destruct (binary_round prec emax false p 0); intros H; inversion H; subst;
    try discriminate; reflexivity.
Qed.

Lemma to_float_error (n : Z) (e : exn) : to_float n = Err e -> e = OverflowError.
Proof.
  unfold to_float. destruct (float_of_Z n); intros H; inversion H; reflexivity.
Qed.

Lemma int_error (x : float) (e : exn) : int x = Err e -> e <> ZeroDivisionError.
Proof. destruct x; simpl; intros H; inversion H; discriminate. Qed.

Lemma round_error (x : float) (e : exn) : round x = Err e -> e <> ZeroDivisionError.
Proof. destruct x; simpl; intros H; inversion H; discriminate. Qed.

Lemma coordinate_no_zero_division (extent : float) (count index : Z) :
  0 < count -> coordinate extent count index <> Err ZeroDivisionError.
Proof.
  intros Hc. unfold coordinate.
  destruct (to_float index) as [fi|e] eqn:Ei; cbn [bind];
    [|apply to_float_error in Ei; subst; discriminate].
  destruct (to_float count) as [fc|e] eqn:Ec; cbn [bind];
    [|apply to_float_error in Ec; subst; discriminate].
  rewrite truediv_nonzero by (eapply to_float_nonzero; eauto).
  discriminate.
Qed.

Lemma cell_position_no_zero_division
  (width height : float) (rows cols : Z) (cell : Z * Z) :
  0 < rows -> 0 < cols ->
  cell_position width height rows cols cell <> Err ZeroDivisionError.
Proof.
  intros Hr Hc. unfold cell_position.
  pose proof (coordinate_no_zero_division width cols (snd cell) Hc) as Hx.
  pose proof (coordinate_no_zero_division height rows (fst cell) Hr) as Hy.
  destruct (coordinate width cols (snd cell)); cbn [bind]; [|congruence].
  destruct (coordinate height rows (fst cell)); cbn [bind]; [discriminate|congruence].
Qed.

Lemma traverse_no_error {A B : Type} (f : A -> result B) (l : list A) (e : exn) :
  (forall a, In a l -> f a <> Err e) -> traverse f l <> Err e.
Proof.
  induction l as [|a l IH]; intros H; simpl; [discriminate|].
  pose proof (H a (or_introl eq_refl)) as Ha.
  destruct (f a); cbn [bind]; [|congruence].
  assert (IH' : traverse f l <> Err e) by (apply IH; intros; apply H; now right).
  destruct (traverse f l); cbn [bind]; [discriminate|congruence].
Qed.

Lemma grid_no_zero_division (width height : float) (rows cols emitted : Z) :
  emitted <= rows -> 0 < cols ->
  grid width height rows cols emitted <> Err ZeroDivisionError.
Proof.
  intros Hr Hc. unfold grid. apply traverse_no_error.
  intros cell Hin. apply in_grid_cells in Hin.
  apply cell_position_no_zero_division; lia.
Qed.

Lemma bolt_positions_no_zero_division
  (rock_class : string) (width height spacing : float) :
  is_zero spacing = false ->
  bolt_positions width height spacing rock_class <> Err ZeroDivisionError.
Proof.
  intros Hs. destruct (String.eqb rock_class "I") eqn:HI.
  - unfold bolt_positions. rewrite HI.
    rewrite !truediv_nonzero by (vm_compute; reflexivity). discriminate.
  - rewrite bolt_positions_grid by assumption.
    rewrite !truediv_nonzero by assumption.
    assert (Hrows :
              forall k : Z -> result (list position),
                (forall rows, (mem rock_class ["II"; "III"] = true -> 2 <= rows) ->
                              k rows <> Err ZeroDivisionError) ->
                (rows <-
                   (if mem rock_class ["IV"; "V"]
                    then q <- Ok (fdiv height spacing) ;; int q
                    else q <- Ok (fdiv height spacing) ;; r <- int q ;;
                         Ok (max_int 2 r)) ;; k rows) <> Err ZeroDivisionError).
    { intros k Hk. cbn [bind].
      destruct (mem rock_class ["IV"; "V"]) eqn:Hlow;
        destruct (int (fdiv height spacing)) as [rh|e] eqn:Eh; cbn [bind];
        try (apply int_error in Eh; congruence).
      - apply Hk. intros Hup. apply mem_upper_not_lower in Hup. congruence.
      - apply Hk. intros _. rewrite max_int_max. lia. }
    apply Hrows. intros rows Hr2. cbn [bind].
    destruct (int (fdiv width spacing)) as [rw|e] eqn:Ew; cbn [bind];
      [|apply int_error in Ew; congruence].
    apply grid_no_zero_division; [|rewrite max_int_max; lia].
    destruct (mem rock_class ["II"; "III"]); [apply Hr2; reflexivity|lia].
Qed.

Lemma support_plan_no_zero_division
  (rock_class : string) (width tunnel_length : float) :
  support_plan rock_class width tunnel_length <> Err ZeroDivisionError.
Proof.
  assert (Hq : forall bl s, is_zero s = false ->
                 bolt_quantities rock_class width tunnel_length bl s
                 <> Err ZeroDivisionError).
  { intros bl s Hs. unfold bolt_quantities.
    rewrite !truediv_nonzero by assumption.
    destruct (String.eqb rock_class "I"); cbn [bind];
      (destruct (round (fdiv width s)) as [r|e] eqn:Er; cbn [bind fst snd];
       [|apply round_error in Er; congruence]);
      (destruct (to_float _) as [f|e] eqn:Ef; cbn [bind];
       [discriminate|apply to_float_error in Ef; subst; discriminate]). }
  unfold support_plan, support_recommendation.
  destruct (String.eqb rock_class "I");
    [|destruct (String.eqb rock_class "II");
      [|destruct (String.eqb rock_class "III");
        [|destruct (String.eqb rock_class "IV")]]];
    rewrite truediv_nonzero by (vm_compute; reflexivity);
    cbn [bind bolt_length bolt_spacing];
    (match goal with
     | |- (q <- ?b ;; _) <> _ =>
         let H := fresh in
         assert (H : b <> Err ZeroDivisionError)
           by (apply Hq; vm_compute; reflexivity);
         destruct b; cbn [bind]; [discriminate|congruence]
     end).
Qed.

Lemma support_plan_spacing (rock_class : string) (width tunnel_length : float)
  (plan : Support * Quantities) :
  support_plan rock_class width tunnel_length = Ok plan ->
  is_zero (bolt_spacing (fst plan)) = false.
Proof.
  unfold support_plan, support_recommendation. intros H.
  apply bind_Ok in H as (s & Hs & H).
  apply bind_Ok in H as (q & _ & H). inversion H; subst plan. cbn [fst].
  destruct (String.eqb rock_class "I");
    [|destruct (String.eqb rock_class "II");
      [|destruct (String.eqb rock_class "III");
        [|destruct (String.eqb rock_class "IV")]]];
    rewrite truediv_nonzero in Hs by (vm_compute; reflexivity);
    inversion Hs; subst s; cbn [bolt_spacing]; vm_compute; reflexivity.
Qed.

(** C8: the layout generator never divides by zero when the spacing is not
    zero, for any class, width and height, and the support tab, which calls it
    with the spacing of the class's table row, never divides by zero at all:
    spacing is a non-zero constant, cols is at least 3, and the division by
    rows is only reached inside the row loop, where rows is at least 1. *)
Theorem no_division_by_zero
  (rock_class : string) (width height tunnel_length : float) :
  (forall spacing,
      is_zero spacing = false ->
      bolt_positions width height spacing rock_class <> Err ZeroDivisionError) /\
  support_tab rock_class width height tunnel_length <> Err ZeroDivisionError.
Proof.
  split; [intros spacing Hs; apply bolt_positions_no_zero_division; assumption|].
  unfold support_tab.
  pose proof (support_plan_no_zero_division rock_class width tunnel_length) as Hp.
  destruct (support_plan rock_class width tunnel_length) as [plan|e] eqn:Eplan;
    cbn [bind]; [|congruence].
  pose proof (bolt_positions_no_zero_division rock_class width height
                (bolt_spacing (fst plan))
                (support_plan_spacing _ _ _ _ Eplan)) as Hb.
  destruct (bolt_positions width height (bolt_spacing (fst plan)) rock_class);
    cbn [bind]; [discriminate|congruence].
Qed.

Lemma no_division_by_zero_witness :
  bolt_positions (lit 5 1) (lit 5 10) (lit 10 10) "IV" <> Err ZeroDivisionError.
Proof.
  apply (proj1 (no_division_by_zero "IV" (lit 5 1) (lit 5 10) (lit 100 1))).
  vm_compute. reflexivity.
Defined.

(** ** Positions stay inside the excavation *)

Lemma div_then_mul_le (X Q A C W K E : Z) :
  0 < K -> 0 < E -> 0 < C -> 0 <= A -> 0 <= W -> 0 <= Q ->
  Q * C * E <= W * K * (E + 1) ->
  X * K * E <= A * Q * (E + 1) ->
  A * (E + 1) * (E + 1) <= C * E * E ->
  X <= W.
Proof.
  intros HK HE HC HA HW HQ H1 H2 H3.
  apply Z.mul_le_mono_pos_r with (K * E * (C * E)).
  { repeat apply Z.mul_pos_pos; assumption. }
  apply Z.le_trans with (A * Q * (E + 1) * (C * E)).
  { replace (X * (K * E * (C * E))) with (X * K * E * (C * E)) by ring.
    apply Z.mul_le_mono_nonneg_r; [|assumption].
    apply Z.mul_nonneg_nonneg; lia. }
  apply Z.le_trans with (A * (E + 1) * (W * K * (E + 1))).
  { replace (A * Q * (E + 1) * (C * E)) with (A * (E + 1) * (Q * C * E)) by ring.
    apply Z.mul_le_mono_nonneg_l; [|assumption].
    apply Z.mul_nonneg_nonneg; lia. }
  replace (A * (E + 1) * (W * K * (E + 1))) with (A * (E + 1) * (E + 1) * (W * K))
    by ring.
  replace (W * (K * E * (C * E))) with (C * E * E * (W * K)) by ring.
  apply Z.mul_le_mono_nonneg_r; [|assumption].
  apply Z.mul_nonneg_nonneg; lia.
Qed.

Lemma mul_then_div_le (X M T C W K E : Z) :
  0 < K -> 0 < E -> 0 < C -> 0 <= T -> 0 <= W -> 0 <= M ->
  M * K * E <= T * W * (E + 1) ->
  X * C * E <= M * K * (E + 1) ->
  T * (E + 1) * (E + 1) <= C * E * E ->
  X <= W.
Proof.
  intros HK HE HC HT HW HM H1 H2 H3.
  apply Z.mul_le_mono_pos_r with (C * E * E).
  { repeat apply Z.mul_pos_pos; assumption. }
  apply Z.le_trans with (M * K * (E + 1) * E).
  { replace (X * (C * E * E)) with (X * C * E * E) by ring.
    apply Z.mul_le_mono_nonneg_r; lia. }
  apply Z.le_trans with (T * W * (E + 1) * (E + 1)).
  { replace (M * K * (E + 1) * E) with (M * K * E * (E + 1)) by ring.
    apply Z.mul_le_mono_nonneg_r; lia. }
  replace (T * W * (E + 1) * (E + 1)) with (T * (E + 1) * (E + 1) * W) by ring.
  replace (W * (C * E * E)) with (C * E * E * W) by ring.
  apply Z.mul_le_mono_nonneg_r; assumption.
Qed.

Lemma coordinate_checks (count index : Z) :
  0 <= index < count -> count <= 50 -> coordinate_check count index = true.
Proof.
  intros Hi Hc.
  assert (H : forallb (fun c => forallb (coordinate_check c) (range c)) (range 51)
              = true) by (vm_compute; reflexivity).
  rewrite forallb_forall in H. specialize (H count ltac:(apply in_range; lia)).
  rewrite forallb_forall in H. apply H. apply in_range. lia.
Qed.

Lemma coordinate_inside (extent : float) (count index : Z) :
  in_ui_range extent -> 0 <= index < count -> count <= 50 ->
  exists v, coordinate extent count index = Ok v /\
            fleb (float_of_Z 0) v = true /\ fleb v extent = true.
Proof.
  intros Hext Hi Hc.
  pose proof (coordinate_checks count index Hi Hc) as Hck.
  unfold coordinate_check in Hck. unfold coordinate.
  destruct (to_float index) as [fi|]; [|discriminate].
  destruct (to_float count) as [fc|]; [|discriminate].
  apply andb_prop in Hck as [Hck Hle]. apply andb_prop in Hck as [Ha Hfc].
  apply Z.leb_le in Hle.
  cbn [bind]. rewrite truediv_nonzero by (eapply normal_nonzero; eassumption).
  cbn [bind].
  destruct (in_ui_range_normal extent Hext) as (Hw & _ & _).
  set (a := fadd fi (lit 5 10)) in *.
  destruct (fdiv_normal (-52) (-48) (-52) (-47) extent fc Hw Hfc) as [Hq Hqv];
    try lia.
  simpl (-52 - -47 - 53) in Hq. simpl (-48 - -52 - 51) in Hq.
  destruct (fmul_normal (-53) (-47) (-58) (-47) a (fdiv extent fc) Ha Hq)
    as [Hx Hxv]; try lia.
  simpl (-53 + -58 + 52) in Hx. simpl (-47 + -47 + 54) in Hx.
  eexists. split; [reflexivity|]. split.
  - change (float_of_Z 0) with (S754_zero false).
    eapply fleb_zero_normal. exact Hx.
  - apply (fleb_scaled _ _ _ _ _ _ Hx Hw); [lia|lia|].
    pose proof (scaled_pos _ _ _ Ha ltac:(lia)).
    pose proof (scaled_pos _ _ _ Hfc ltac:(lia)).
    pose proof (scaled_pos _ _ _ Hq ltac:(lia)).
    pose proof (scaled_pos _ _ _ Hw ltac:(lia)).
    eapply (div_then_mul_le _ (scaled (fdiv extent fc)) (scaled a) (scaled fc)
              _ (2 ^ 1074) (2 ^ 52));
      try eassumption; try lia; apply pow2_pos; lia.
Qed.

Lemma fdiv_le_self (w c : float) :
  in_ui_range w -> normal_in (-51) (-50) c = true ->
  (2 ^ 1074 * (2 ^ 52 + 1) <=? scaled c * 2 ^ 52) = true ->
  fleb (float_of_Z 0) (fdiv w c) = true /\ fleb (fdiv w c) w = true.
Proof.
  intros Hw Hc Hck. apply Z.leb_le in Hck.
  destruct (in_ui_range_normal w Hw) as (Hwn & _ & _).
  destruct (fdiv_normal (-52) (-48) (-51) (-50) w c Hwn Hc) as [Hq Hqv]; try lia.
  split.
  - change (float_of_Z 0) with (S754_zero false). eapply fleb_zero_normal. exact Hq.
  - apply (fleb_scaled _ _ _ _ _ _ Hq Hwn); [lia|lia|].
    pose proof (scaled_pos _ _ _ Hc ltac:(lia)) as Hcpos.
    pose proof (scaled_pos _ _ _ Hwn ltac:(lia)) as Hwpos.
    assert (HE : 0 < 2 ^ 52) by (apply pow2_pos; lia).
    set (Q := scaled (fdiv w c)) in *. set (C := scaled c) in *.
    set (W := scaled w) in *. set (K := 2 ^ 1074) in *. set (E := 2 ^ 52) in *.
    apply Z.mul_le_mono_pos_r with (C * E); [apply Z.mul_pos_pos; assumption|].
    apply Z.le_trans with (W * K * (E + 1)); [lia|].
    replace (W * K * (E + 1)) with (W * (K * (E + 1))) by ring.
    apply Z.mul_le_mono_nonneg_l; lia.
Qed.

Lemma fmul_fdiv_le_self (w t c : float) :
  in_ui_range w -> normal_in (-51) (-50) t = true -> normal_in (-51) (-50) c = true ->
  (scaled t * (2 ^ 52 + 1) * (2 ^ 52 + 1) <=? scaled c * 2 ^ 52 * 2 ^ 52) = true ->
  fleb (float_of_Z 0) (fdiv (fmul t w) c) = true /\
  fleb (fdiv (fmul t w) c) w = true.
Proof.
  intros Hw Ht Hc Hck. apply Z.leb_le in Hck.
  destruct (in_ui_range_normal w Hw) as (Hwn & _ & _).
  destruct (fmul_normal (-51) (-50) (-52) (-48) t w Ht Hwn) as [Hm Hmv]; try lia.
  simpl (-51 + -52 + 52) in Hm. simpl (-50 + -48 + 54) in Hm.
  destruct (fdiv_normal (-51) (-44) (-51) (-50) (fmul t w) c Hm Hc) as [Hq Hqv];
    try lia.
  split.
  - change (float_of_Z 0) with (S754_zero false). eapply fleb_zero_normal. exact Hq.
  - apply (fleb_scaled _ _ _ _ _ _ Hq Hwn); [lia|lia|].
    pose proof (scaled_pos _ _ _ Hc ltac:(lia)).
    pose proof (scaled_pos _ _ _ Ht ltac:(lia)).
    pose proof (scaled_pos _ _ _ Hm ltac:(lia)).
    pose proof (scaled_pos _ _ _ Hwn ltac:(lia)).
    eapply (mul_then_div_le _ (scaled (fmul t w)) (scaled t) (scaled c)
              _ (2 ^ 1074) (2 ^ 52));
      try eassumption; try lia; apply pow2_pos; lia.
Qed.

Lemma half_le_ui (h : float) :
  in_ui_range h ->
  fleb (float_of_Z 0) (lit 5 10) = true /\ fleb (lit 5 10) h = true.
Proof.
  intros Hh. split; [vm_compute; reflexivity|].
  destruct (in_ui_range_normal h Hh) as (Hn & H1 & _).
  assert (N : normal_in (-53) (-53) (lit 5 10) = true) by (vm_compute; reflexivity).
  apply (fleb_scaled _ _ _ _ _ _ N Hn); [lia|lia|].
  apply Z.le_trans with (scaled (lit 1 1)); [|assumption].
  vm_compute. discriminate.
Qed.

Lemma class_I_inside (width height spacing : float) :
  in_ui_range width -> in_ui_range height ->
  exists l, bolt_positions width height spacing "I" = Ok l /\
            Forall (inside width height) l.
Proof.
  intros Hw Hh. unfold bolt_positions.
  change (String.eqb "I" "I") with true. cbv iota.
  rewrite !truediv_nonzero by (vm_compute; reflexivity).
  eexists. split; [reflexivity|].
  destruct (half_le_ui height Hh) as [Hy0 Hy1].
  assert (N2 : normal_in (-51) (-50) (lit 2 1) = true) by (vm_compute; reflexivity).
  assert (N3 : normal_in (-51) (-50) (lit 3 1) = true) by (vm_compute; reflexivity).
  assert (N4 : normal_in (-51) (-50) (lit 4 1) = true) by (vm_compute; reflexivity).
  assert (C2 : (2 ^ 1074 * (2 ^ 52 + 1) <=? scaled (lit 2 1) * 2 ^ 52) = true)
    by (vm_compute; reflexivity).
  assert (C4 : (2 ^ 1074 * (2 ^ 52 + 1) <=? scaled (lit 4 1) * 2 ^ 52) = true)
    by (vm_compute; reflexivity).
  assert (C3 : (scaled (lit 3 1) * (2 ^ 52 + 1) * (2 ^ 52 + 1)
                <=? scaled (lit 4 1) * 2 ^ 52 * 2 ^ 52) = true)
    by (vm_compute; reflexivity).
  destruct (fdiv_le_self width (lit 4 1) Hw N4 C4) as [H40 H41].
  destruct (fdiv_le_self width (lit 2 1) Hw N2 C2) as [H20 H21].
  destruct (fmul_fdiv_le_self width (lit 3 1) (lit 4 1) Hw N3 N4 C3) as [H30 H31].
  repeat constructor; assumption.
Qed.

Lemma grid_inside (width height : float) (rows cols emitted : Z) :
  in_ui_range width -> in_ui_range height ->
  emitted <= rows -> rows <= 50 -> cols <= 50 ->
  exists l, grid width height rows cols emitted = Ok l /\
            Forall (inside width height) l.
Proof.
  intros Hw Hh He Hr Hc. unfold grid. apply traverse_total.
  intros cell Hin. apply in_grid_cells in Hin as [Hrow Hcol].
  destruct (coordinate_inside width cols (snd cell) Hw Hcol Hc) as (x & Hx & Hx0 & Hx1).
  destruct (coordinate_inside height rows (fst cell) Hh ltac:(lia) Hr)
    as (y & Hy & Hy0 & Hy1).
  exists (x, y). unfold cell_position. rewrite Hx, Hy. split; [reflexivity|].
  repeat split; assumption.
Qed.

Lemma int_quotient (s x : float) :
  table_spacing s = true -> in_ui_range x ->
  exists r, int (fdiv x s) = Ok r /\ 0 <= r <= 50.
Proof.
  intros Hs Hx. destruct (quotient_bound s x Hs Hx) as [Hq Hv].
  exact (int_normal_bound _ _ _ 50 Hq ltac:(lia) Hv).
Qed.

Lemma bolt_positions_inside (rock_class : string) (width height spacing : float) :
  table_spacing spacing = true -> in_ui_range width -> in_ui_range height ->
  exists l, bolt_positions width height spacing rock_class = Ok l /\
            Forall (inside width height) l.
Proof.
  intros Hs Hw Hh. destruct (String.eqb_spec rock_class "I") as [->|HI].
  - apply class_I_inside; assumption.
  - apply String.eqb_neq in HI. rewrite bolt_positions_grid by assumption.
    assert (Hnz : is_zero spacing = false).
    { apply andb_prop in Hs as [Hn _]. eapply normal_nonzero. exact Hn. }
    rewrite !truediv_nonzero by assumption.
    destruct (int_quotient spacing height Hs Hh) as (rh & Hrh & Hrhb).
    destruct (int_quotient spacing width Hs Hw) as (rw & Hrw & Hrwb).
    cbn [bind]. rewrite Hrh, Hrw.
    destruct (mem rock_class ["II"; "III"]) eqn:Hup.
    + rewrite (mem_upper_not_lower _ Hup). cbn [bind]. rewrite !max_int_max.
      apply grid_inside; try assumption; lia.
    + destruct (mem rock_class ["IV"; "V"]); cbn [bind]; rewrite !max_int_max;
        apply grid_inside; try assumption; lia.
Qed.

(** C9: for every class and every sidebar width and height (binary64 values
    in [1, 30]) the support tab computes a layout, and every position (x, y)
    of it has 0 <= x <= width and 0 <= y <= height. *)
Theorem positions_inside_excavation
  (rock_class : string) (width height tunnel_length : float) :
  In rock_class rock_classes -> in_ui_range width -> in_ui_range height ->
  exists plan l,
    support_tab rock_class width height tunnel_length = Ok (plan, l) /\
    Forall (inside width height) l.
Proof.
  intros Hin Hw Hh.
  destruct (table_row rock_class width Hin) as (s & Hs & Hts).
  destruct (bolt_quantities_ui rock_class width tunnel_length (bolt_length s)
              (bolt_spacing s) Hts Hw) as (r & f & _ & _ & Hq).
  destruct (bolt_positions_inside rock_class width height (bolt_spacing s) Hts Hw Hh)
    as (l & Hl & Hinside).
  unfold support_tab, support_plan. rewrite Hs. cbn [bind]. rewrite Hq. cbn [bind fst].
  rewrite Hl. cbn [bind]. eexists. exists l. split; [reflexivity|assumption].
Qed.

Lemma positions_inside_excavation_witness :
  exists plan l,
    support_tab "V" (lit 5 1) (lit 35 10) (lit 100 1) = Ok (plan, l) /\
    Forall (inside (lit 5 1) (lit 35 10)) l.
Proof.
  apply (positions_inside_excavation "V" (lit 5 1) (lit 35 10) (lit 100 1)).
  - unfold rock_classes. simpl. auto 10.
  - repeat split; vm_compute; reflexivity.
  - repeat split; vm_compute; reflexivity.
Defined.

(** ** The results tab *)

Lemma index_from_not_in (x : string) (l : list string) (i : Z) :
  ~ In x l -> index_from x l i = Err ValueError.
Proof.
  revert i. induction l as [|y l IH]; intros i Hn; simpl; [reflexivity|].
  destruct (String.eqb_spec y x) as [->|Hne].
  - exfalso. apply Hn. now left.
  - apply IH. intros H. apply Hn. now right.
Qed.

Lemma index_from_in (x : string) (l : list string) (i : Z) :
  In x l -> exists j, index_from x l i = Ok (i + j) /\ 0 <= j < Z.of_nat (List.length l) /\
                      nth_error l (Z.to_nat j) = Some x.
Proof.
  revert i. induction l as [|y l IH]; intros i Hin; [contradiction|].
  simpl index_from. destruct (String.eqb_spec y x) as [->|Hne].
  - exists 0. rewrite Z.add_0_r. cbn [List.length]. repeat split; lia.
  - destruct Hin as [Heq|Hin]; [congruence|].
    destruct (IH (i + 1) Hin) as (j & Hj & Hb & Hn).
    exists (j + 1). cbn [List.length]. repeat split; try lia.
    + rewrite Hj. f_equal. lia.
    + rewrite Z2Nat.inj_add by lia. rewrite Nat.add_comm. exact Hn.
Qed.

Lemma subscript_in_range {A : Type} (l : list A) (i : Z) :
  0 <= i < Z.of_nat (List.length l) -> exists a, subscript l i = Ok a.
Proof.
  intros Hi. unfold subscript. destruct (Z.ltb_spec i 0); [lia|].
  destruct (nth_error l (Z.to_nat i)) as [a|] eqn:E; [eauto|].
  apply nth_error_None in E. lia.
Qed.

Section ParameterLookup.

Variables (options : list string) (ratings : list Z) (values : list string).
Hypothesis ratings_aligned : List.length ratings = List.length options.
Hypothesis values_aligned : List.length values = List.length options.

Lemma parameter_valid (o : string) :
  In o options ->
  exists a v, parameter options ratings values o = Ok (a, v) /\
              rating options ratings o = Ok a.
Proof.
  intros Hin. destruct (index_from_in o options 0 Hin) as (j & Hj & Hb & _).
  rewrite Z.add_0_l in Hj.
  destruct (subscript_in_range ratings j ltac:(lia)) as (a & Ha).
  destruct (subscript_in_range values j ltac:(lia)) as (v & Hv).
  exists a, v. unfold parameter, rating, index. rewrite Hj. cbn [bind].
  rewrite Ha. cbn [bind]. rewrite Hv. split; reflexivity.
Qed.

Lemma parameter_invalid (o : string) :
  ~ In o options -> parameter options ratings values o = Err ValueError.
Proof.
  intros Hn. unfold parameter, index. now rewrite index_from_not_in.
Qed.

Lemma parameter_cases (o : string) :
  (In o options /\ exists a v, parameter options ratings values o = Ok (a, v) /\
                               rating options ratings o = Ok a) \/
  (~ In o options /\ parameter options ratings values o = Err ValueError).
Proof.
  destruct (in_dec string_dec o options) as [Hin|Hn].
  - left. split; [assumption|]. apply parameter_valid. assumption.
  - right. split; [assumption|]. apply parameter_invalid. assumption.
Qed.

End ParameterLookup.

(** X1: the RMR tab returns a result exactly when each of the five options is
    an entry of its table, and then its total is the score of [rmr_value];
    with any foreign option it raises ValueError, never IndexError: the
    rating and label lists are as long as the option lists. *)
Theorem rmr_tab_valid_or_value_error (o1 o2 o3 o4 o5 : string) :
  (valid_options o1 o2 o3 o4 o5 /\
   exists t, rmr_tab o1 o2 o3 o4 o5 = Ok t /\
             rmr_value o1 o2 o3 o4 o5 = Ok (tab_rmr_value t) /\
             tab_class t = classify (tab_rmr_value t)) \/
  (~ valid_options o1 o2 o3 o4 o5 /\ rmr_tab o1 o2 o3 o4 o5 = Err ValueError).
Proof.
  unfold valid_options, rmr_tab, rmr_value.
  destruct (parameter_cases ucs_options ucs_ratings ucs_values eq_refl eq_refl o1)
    as [(I1 & a1 & v1 & -> & ->)|(N1 & ->)]; cbn [bind]; [|right; tauto].
  destruct (parameter_cases rqd_options rqd_ratings rqd_values eq_refl eq_refl o2)
    as [(I2 & a2 & v2 & -> & ->)|(N2 & ->)]; cbn [bind]; [|right; tauto].
  destruct (parameter_cases spacing_options spacing_ratings spacing_values
              eq_refl eq_refl o3)
    as [(I3 & a3 & v3 & -> & ->)|(N3 & ->)]; cbn [bind]; [|right; tauto].
  destruct (parameter_cases condition_options condition_ratings condition_values
              eq_refl eq_refl o4)
    as [(I4 & a4 & v4 & -> & ->)|(N4 & ->)]; cbn [bind]; [|right; tauto].
  destruct (parameter_cases water_options water_ratings water_values
              eq_refl eq_refl o5)
    as [(I5 & a5 & v5 & -> & ->)|(N5 & ->)]; cbn [bind]; [|right; tauto].
  left. split; [tauto|]. eexists. split; [reflexivity|]. split; reflexivity.
Qed.

Lemma subscript_In {A : Type} (l : list A) (i : Z) (a : A) :
  subscript l i = Ok a -> In a l.
Proof.
  unfold subscript. destruct (i <? 0); [discriminate|].
  destruct (nth_error l (Z.to_nat i)) eqn:E; intros H; inversion H; subst.
  eapply nth_error_In; eauto.
Qed.

Lemma parameter_In (options : list string) (ratings : list Z)
  (values : list string) (o : string) (a : Z) (v : string) :
  parameter options ratings values o = Ok (a, v) ->
  In o options /\ In a ratings /\ In v values.
Proof.
  unfold parameter, index. intros H.
  destruct (in_dec string_dec o options) as [Hin|Hn];
    [|rewrite index_from_not_in in H by assumption; discriminate].
  split; [assumption|].
  apply bind_Ok in H as (i & _ & H). apply bind_Ok in H as (a' & Ha & H).
  apply bind_Ok in H as (v' & Hv & H). inversion H; subst.
  split; eapply subscript_In; eauto.
Qed.

(** The shape of every result of the RMR tab. *)
Lemma rmr_tab_inv (o1 o2 o3 o4 o5 : string) (t : RmrTab) :
  rmr_tab o1 o2 o3 o4 o5 = Ok t ->
  exists a1 v1 a2 v2 a3 v3 a4 v4 a5 v5,
    parameter ucs_options ucs_ratings ucs_values o1 = Ok (a1, v1) /\
    parameter rqd_options rqd_ratings rqd_values o2 = Ok (a2, v2) /\
    parameter spacing_options spacing_ratings spacing_values o3 = Ok (a3, v3) /\
    parameter condition_options condition_ratings condition_values o4 = Ok (a4, v4) /\
    parameter water_options water_ratings water_values o5 = Ok (a5, v5) /\
    t = mkRmrTab [(a1, v1); (a2, v2); (a3, v3); (a4, v4); (a5, v5)]
          (a1 + a2 + a3 + a4 + a5) (classify (a1 + a2 + a3 + a4 + a5))
          (gauge (a1 + a2 + a3 + a4 + a5)
             (class_color (classify (a1 + a2 + a3 + a4 + a5)))).
Proof.
  unfold rmr_tab. intros H.
  apply bind_Ok in H as ([a1 v1] & H1 & H).
  apply bind_Ok in H as ([a2 v2] & H2 & H).
  apply bind_Ok in H as ([a3 v3] & H3 & H).
  apply bind_Ok in H as ([a4 v4] & H4 & H).
  apply bind_Ok in H as ([a5 v5] & H5 & H).
  cbn [fst] in H. inversion H; subst t.
  exists a1, v1, a2, v2, a3, v3, a4, v4, a5, v5. repeat split; assumption.
Qed.

Lemma rmr_tab_score_range (o1 o2 o3 o4 o5 : string) (t : RmrTab) :
  rmr_tab o1 o2 o3 o4 o5 = Ok t ->
  8 <= tab_rmr_value t <= 100 /\
  tab_class t = classify (tab_rmr_value t) /\
  tab_gauge t = gauge (tab_rmr_value t) (class_color (tab_class t)).
Proof.
  intros H.
  destruct (rmr_tab_inv _ _ _ _ _ _ H)
    as (a1 & v1 & a2 & v2 & a3 & v3 & a4 & v4 & a5 & v5 &
        H1 & H2 & H3 & H4 & H5 & ->).
  apply parameter_In in H1 as (_ & I1 & _). apply parameter_In in H2 as (_ & I2 & _).
  apply parameter_In in H3 as (_ & I3 & _). apply parameter_In in H4 as (_ & I4 & _).
  apply parameter_In in H5 as (_ & I5 & _).
  cbn [tab_rmr_value tab_class tab_gauge]. split; [|split; reflexivity].
  assert (0 <= a1 <= 15) by in_ratings I1.
  assert (3 <= a2 <= 20) by in_ratings I2.
  assert (5 <= a3 <= 20) by in_ratings I3.
  assert (0 <= a4 <= 30) by in_ratings I4.
  assert (0 <= a5 <= 15) by in_ratings I5.
  lia.
Qed.

(** X2: on scores up to 100 a higher score never gives a worse class; every
    score above 100 falls through to class V, the worst one. *)
Theorem classify_monotone_up_to_100 (s1 s2 : Z) :
  (s1 <= s2 -> s2 <= 100 ->
   class_number (rock_class (classify s2)) <= class_number (rock_class (classify s1))) /\
  (100 < s1 -> classify s1 = mkRockClass "V" "Very poor rock" "red").
Proof.
  split.
  - intros Hle H100.
    destruct (classify_cases s1) as [[H1 ->]|[[H1 ->]|[[H1 ->]|[[H1 ->]|[H1 ->]]]]];
      destruct (classify_cases s2) as [[H2 ->]|[[H2 ->]|[[H2 ->]|[[H2 ->]|[H2 ->]]]]];
      cbn [rock_class]; try (vm_compute; discriminate); lia.
  - intros H.
    destruct (classify_cases s1) as [[H1 ->]|[[H1 ->]|[[H1 ->]|[[H1 ->]|[H1 ->]]]]];
      (reflexivity || lia).
Qed.

Lemma classify_monotone_up_to_100_witness :
  class_number (rock_class (classify 80)) <= class_number (rock_class (classify 41)) /\
  classify 101 = mkRockClass "V" "Very poor rock" "red".
Proof.
  split.
  - apply (proj1 (classify_monotone_up_to_100 41 80)); lia.
  - apply (proj2 (classify_monotone_up_to_100 101 101)); lia.
Defined.

(** X3: whatever the five selections, the total of the RMR tab lies between
    8 and 100 and the class shown is the one whose band of 81-100, 61-80,
    41-60, 21-40 or at most 20 contains it, so the fall-through branch is only
    taken by totals of 8 to 20; and each of the five classes is shown for
    some selection. *)
Theorem rmr_tab_class_of_total :
  (forall o1 o2 o3 o4 o5 t,
      rmr_tab o1 o2 o3 o4 o5 = Ok t ->
      8 <= tab_rmr_value t <= 100 /\
      band (rock_class (tab_class t)) (tab_rmr_value t)) /\
  (forall c, In c rock_classes ->
             exists o1 o2 o3 o4 o5 t,
               rmr_tab o1 o2 o3 o4 o5 = Ok t /\ rock_class (tab_class t) = c).
Proof.
  split.
  - intros o1 o2 o3 o4 o5 t H.
    destruct (rmr_tab_score_range _ _ _ _ _ _ H) as (Hr & -> & _).
    split; [assumption|]. unfold band.
    destruct (classify_cases (tab_rmr_value t))
      as [[H1 ->]|[[H1 ->]|[[H1 ->]|[[H1 ->]|[H1 ->]]]]]; cbn [rock_class];
      auto 10. right. right. right. right. split; [reflexivity|lia].
  - intros c Hc. unfold rock_classes in Hc. simpl in Hc.
    destruct Hc as [<-|[<-|[<-|[<-|[<-|[]]]]]].
    + exists "> 250 MPa (15 points)", "90-100% (20 points)", "> 2 m (20 points)",
        "Very rough, not continuous, no separation, unweathered (30 points)",
        "Completely dry (15 points)". eexists. split; reflexivity.
    + exists "> 250 MPa (15 points)", "90-100% (20 points)", "> 2 m (20 points)",
        "Slickensided/gouge < 5 mm, or separation 1-5 mm (10 points)",
        "Completely dry (15 points)". eexists. split; reflexivity.
    + exists "50-100 MPa (7 points)", "50-75% (13 points)", "200-600 mm (10 points)",
        "Slightly rough, separation < 1 mm, highly weathered (20 points)",
        "Damp (10 points)". eexists. split; reflexivity.
    + exists "5-25 MPa (2 points)", "25-50% (8 points)", "60-200 mm (8 points)",
        "Slickensided/gouge < 5 mm, or separation 1-5 mm (10 points)",
        "Dripping (4 points)". eexists. split; reflexivity.
    + exists "< 1 MPa (0 points)", "< 25% (3 points)", "< 60 mm (5 points)",
        "Soft gouge > 5 mm, or separation > 5 mm (0 points)",
        "Flowing (0 points)". eexists. split; reflexivity.
Qed.

Lemma rmr_tab_class_of_total_witness :
  exists o1 o2 o3 o4 o5 t,
    rmr_tab o1 o2 o3 o4 o5 = Ok t /\ rock_class (tab_class t) = "IV".
Proof.
  apply (proj2 rmr_tab_class_of_total "IV"). unfold rock_classes. simpl. auto 10.
Defined.

Ltac label_cases H :=
  match type of H with
  | parameter ?os ?rs ?vs ?o = Ok (?a, ?v) =>
      let Hin := fresh "Hin" in
      destruct (parameter_In os rs vs o a v H) as (Hin & _ & _);
      simpl in Hin;
      repeat (destruct Hin as [Hin|Hin];
              [subst o; vm_compute in H; inversion H; subst; reflexivity|]);
      contradiction
  end.

(** X4: the rating and the condition label looked up for an option are the
    ones its own text shows: without blanks, every option reads as its
    condition label followed by its points in brackets, for the five tables
    alike. *)
Theorem option_labels_show_rating (o : string) (a : Z) (v : string) :
  (parameter ucs_options ucs_ratings ucs_values o = Ok (a, v) \/
   parameter rqd_options rqd_ratings rqd_values o = Ok (a, v) \/
   parameter spacing_options spacing_ratings spacing_values o = Ok (a, v) \/
   parameter condition_options condition_ratings condition_values o = Ok (a, v) \/
   parameter water_options water_ratings water_values o = Ok (a, v)) ->
  remove_spaces o = (remove_spaces v ++ points_suffix a)%string.
Proof.
  intros [H|[H|[H|[H|H]]]]; label_cases H.
Qed.

Lemma option_labels_show_rating_witness :
  remove_spaces "1-5 MPa (1 point)" =
  (remove_spaces "1-5 MPa" ++ points_suffix 1)%string.
Proof.
  apply (option_labels_show_rating "1-5 MPa (1 point)" 1 "1-5 MPa").
  left. vm_compute. reflexivity.
Defined.

(** X5: on the gauge of the RMR tab the value and the threshold are the
    total, the total lies on the axis, and the bar has the colour of the step
    holding the total: of some step whose closed range contains it, and of
    every step (lo, hi] that does. *)
Theorem gauge_bar_matches_step (o1 o2 o3 o4 o5 : string) (t : RmrTab) :
  rmr_tab o1 o2 o3 o4 o5 = Ok t ->
  let g := tab_gauge t in
  gauge_value g = tab_rmr_value t /\ gauge_threshold g = tab_rmr_value t /\
  fst (gauge_axis g) <= gauge_value g <= snd (gauge_axis g) /\
  (exists lo hi, In (lo, hi, gauge_bar g) (gauge_steps g) /\
                 lo <= gauge_value g <= hi) /\
  (forall lo hi colour,
      In (lo, hi, colour) (gauge_steps g) -> lo < gauge_value g <= hi ->
      colour = gauge_bar g).
Proof.
  intros H. destruct (rmr_tab_score_range _ _ _ _ _ _ H) as (Hr & Hc & Hg).
  cbn zeta. rewrite Hg, Hc. set (s := tab_rmr_value t) in *.
  unfold gauge.
  cbn [gauge_value gauge_threshold gauge_axis gauge_bar gauge_steps fst snd].
  split; [reflexivity|]. split; [reflexivity|]. split; [lia|].
  destruct (classify_cases s) as [[H1 ->]|[[H1 ->]|[[H1 ->]|[[H1 ->]|[H1 ->]]]]];
    cbn [class_color]; (split;
    [ first [ exists 80, 100; split; [simpl; tauto|lia]
            | exists 60, 80; split; [simpl; tauto|lia]
            | exists 40, 60; split; [simpl; tauto|lia]
            | exists 20, 40; split; [simpl; tauto|lia]
            | exists 0, 20; split; [simpl; tauto|lia] ]
    | intros lo hi colour Hin Hb; simpl in Hin;
      repeat (destruct Hin as [Hin|Hin];
              [inversion Hin; subst; first [reflexivity|lia]|]);
      contradiction ]).
Qed.

Lemma gauge_bar_matches_step_witness :
  let g := gauge 60 "yellow" in
  gauge_value g = 60 /\ gauge_threshold g = 60 /\
  fst (gauge_axis g) <= gauge_value g <= snd (gauge_axis g) /\
  (exists lo hi, In (lo, hi, gauge_bar g) (gauge_steps g) /\
                 lo <= gauge_value g <= hi) /\
  (forall lo hi colour,
      In (lo, hi, colour) (gauge_steps g) -> lo < gauge_value g <= hi ->
      colour = gauge_bar g).
Proof.
  exact (gauge_bar_matches_step
           "50-100 MPa (7 points)" "50-75% (13 points)" "200-600 mm (10 points)"
           "Slightly rough, separation < 1 mm, highly weathered (20 points)"
           "Damp (10 points)" _ eq_refl).
Defined.

(** ** Binary64 rounding: lower bounds *)

(** The rounded mantissa against the truncated one: the result of
    [round_aux_normal] unpacked into mantissa and exponent shift. *)
Lemma round_aux_cases (m e : Z) (l : location) :
  0 < m -> 53 <= Zdigits2 m -> -1074 <= e + (Zdigits2 m - 53) ->
  e + (Zdigits2 m - 53) + 1 <= 971 ->
  exists m' j,
    binary_round_aux prec emax false m e l = S754_finite false m' (e + j) /\
    2 ^ 52 <= Zpos m' < 2 ^ 53 /\
    ((j = Zdigits2 m - 53 /\ m / 2 ^ j <= Zpos m') \/
     (j = Zdigits2 m - 53 + 1 /\ Zpos m' = 2 ^ 52 /\ m / 2 ^ (j - 1) = 2 ^ 53 - 1)).
Proof.
  intros Hm Hd Hlo Hhi.
  destruct (round_aux_normal false m e l Hm Hd Hlo) as (R & HR & ->).
  pose proof (truncated_mantissa m Hm Hd) as HT.
  set (k := Zdigits2 m - 53) in *. set (T := m / 2 ^ k) in *.
  unfold pack. destruct (Z.ltb_spec R (2 ^ 53)) as [Hlt|Hge].
  - destruct (Z.leb_spec (e + k) 971); [|lia].
    exists (Z.to_pos R), k.
    assert (0 < R) by lia. rewrite Z2Pos.id by assumption.
    split; [reflexivity|]. split; [lia|]. left. split; [reflexivity|]. fold T. lia.
  - destruct (Z.leb_spec (e + k + 1) 971); [|lia].
    exists (Z.to_pos (2 ^ 52)), (k + 1). rewrite Z.add_assoc.
    rewrite Z2Pos.id by lia.
    split; [reflexivity|]. split; [lia|]. right.
    replace (k + 1 - 1) with k by lia. fold T. lia.
Qed.

Lemma div_pow2_succ_gt (m k : Z) : 0 <= k -> m < (m / 2 ^ k + 1) * 2 ^ k.
Proof.
  intros Hk. assert (0 < 2 ^ k) by (apply pow2_pos; assumption).
  pose proof (Z.mul_succ_div_gt m (2 ^ k) ltac:(assumption)). lia.
Qed.

(** The result is at least the exact value divided by [1 + 2^-52]; the bound
    even holds for [m + 1], which serves quotients. *)
Lemma round_aux_lower (m e : Z) (l : location) :
  0 < m -> 53 <= Zdigits2 m -> -1074 <= e + (Zdigits2 m - 53) ->
  e + (Zdigits2 m - 53) + 1 <= 971 ->
  exists m' j,
    binary_round_aux prec emax false m e l = S754_finite false m' (e + j) /\
    2 ^ 52 <= Zpos m' < 2 ^ 53 /\
    Zdigits2 m - 53 <= j <= Zdigits2 m - 53 + 1 /\
    (m + 1) * 2 ^ 52 <= Zpos m' * 2 ^ j * (2 ^ 52 + 1).
Proof.
  intros Hm Hd Hlo Hhi.
  destruct (round_aux_cases m e l Hm Hd Hlo Hhi) as (m' & j & Hr & Hm' & Hc).
  exists m', j. split; [assumption|]. split; [assumption|].
  pose proof (truncated_mantissa m Hm Hd) as HT.
  set (k := Zdigits2 m - 53) in *.
  assert (Hk : 0 < 2 ^ k) by (apply pow2_pos; lia).
  assert (Hgt : m + 1 <= (m / 2 ^ k + 1) * 2 ^ k)
    by (pose proof (div_pow2_succ_gt m k ltac:(lia)); lia).
  set (T := m / 2 ^ k) in *.
  assert (Hstep : (T + 1) * 2 ^ 52 <= T * (2 ^ 52 + 1)) by lia.
  assert (Hmain : (m + 1) * 2 ^ 52 <= T * 2 ^ k * (2 ^ 52 + 1)).
  { apply Z.le_trans with ((T + 1) * 2 ^ k * 2 ^ 52).
    - apply Z.mul_le_mono_nonneg_r; lia.
    - replace ((T + 1) * 2 ^ k * 2 ^ 52) with ((T + 1) * 2 ^ 52 * 2 ^ k) by ring.
      replace (T * 2 ^ k * (2 ^ 52 + 1)) with (T * (2 ^ 52 + 1) * 2 ^ k) by ring.
      apply Z.mul_le_mono_nonneg_r; lia. }
  destruct Hc as [[-> HTm]|(-> & Hm2 & HT2)].
  - split; [lia|].
    apply Z.le_trans with (T * 2 ^ k * (2 ^ 52 + 1)); [assumption|].
    apply Z.mul_le_mono_nonneg_r; [lia|].
    apply Z.mul_le_mono_nonneg_r; lia.
  - split; [lia|].
    apply Z.le_trans with (T * 2 ^ k * (2 ^ 52 + 1)); [assumption|].
    apply Z.mul_le_mono_nonneg_r; [lia|].
    rewrite Hm2, pow2_split by lia.
    replace (2 ^ 52 * (2 ^ k * 2 ^ 1)) with (2 ^ 53 * 2 ^ k)
      by (change (2 ^ 53) with (2 ^ 52 * 2 ^ 1); ring).
    apply Z.mul_le_mono_nonneg_r; lia.
Qed.

Lemma fmul_lower (lo1 hi1 lo2 hi2 : Z) (a b : float) :
  normal_in lo1 hi1 a = true -> normal_in lo2 hi2 b = true ->
  -1074 <= lo1 -> -1074 <= lo2 -> -1074 <= lo1 + lo2 + 52 ->
  hi1 + hi2 + 54 <= 971 ->
  scaled a * scaled b * 2 ^ 52 <= scaled (fmul a b) * 2 ^ 1074 * (2 ^ 52 + 1).
Proof.
  intros Ha Hb Hl1 Hl2 Hlo Hhi.
  destruct (normal_in_inv _ _ _ Ha) as (ma & ea & -> & Hma & Hea).
  destruct (normal_in_inv _ _ _ Hb) as (mb & eb & -> & Hmb & Heb).
  unfold fmul, SFmul. simpl xorb.
  set (m := Zpos (ma * mb)).
  assert (Hm : m = Zpos ma * Zpos mb) by (unfold m; apply Pos2Z.inj_mul).
  assert (Hmpos : 0 < m) by (unfold m; lia).
  assert (Hmr : 2 ^ 104 <= m < 2 ^ 106).
  { rewrite Hm. change (2 ^ 104) with (2 ^ 52 * 2 ^ 52).
    change (2 ^ 106) with (2 ^ 53 * 2 ^ 53). split.
    - apply Z.mul_le_mono_nonneg; lia.
    - apply Z.mul_lt_mono_nonneg; lia. }
  pose proof (Zdigits2_range m 104 106 Hmpos ltac:(lia) Hmr) as Hd.
  destruct (round_aux_lower m (ea + eb) loc_Exact) as (m' & j & -> & Hm' & Hj & Hv);
    try lia.
  rewrite !scaled_finite.
  assert (Hpa : 0 < 2 ^ (ea + 1074)) by (apply pow2_pos; lia).
  assert (Hpb : 0 < 2 ^ (eb + 1074)) by (apply pow2_pos; lia).
  assert (Hsplit : 2 ^ (ea + eb + j + 1074) * 2 ^ 1074 =
                   2 ^ j * 2 ^ (ea + 1074) * 2 ^ (eb + 1074)).
  { rewrite <- !pow2_split by lia. f_equal. lia. }
  set (X := 2 ^ (ea + eb + j + 1074)) in *.
  replace (Zpos m' * X * 2 ^ 1074 * (2 ^ 52 + 1))
    with (Zpos m' * (X * 2 ^ 1074) * (2 ^ 52 + 1)) by ring.
  rewrite Hsplit.
  replace (Zpos m' * (2 ^ j * 2 ^ (ea + 1074) * 2 ^ (eb + 1074)) * (2 ^ 52 + 1))
    with (Zpos m' * 2 ^ j * (2 ^ 52 + 1) * (2 ^ (ea + 1074) * 2 ^ (eb + 1074)))
    by ring.
  replace (Zpos ma * 2 ^ (ea + 1074) * (Zpos mb * 2 ^ (eb + 1074)) * 2 ^ 52)
    with (m * 2 ^ 52 * (2 ^ (ea + 1074) * 2 ^ (eb + 1074))) by (rewrite Hm; ring).
  apply Z.mul_le_mono_nonneg_r; [apply Z.lt_le_incl, Z.mul_pos_pos; assumption|].
  apply Z.le_trans with ((m + 1) * 2 ^ 52); [|assumption].
  apply Z.mul_le_mono_nonneg_r; lia.
Qed.

Lemma fdiv_lower (lo1 hi1 lo2 hi2 : Z) (a b : float) :
  normal_in lo1 hi1 a = true -> normal_in lo2 hi2 b = true ->
  -1074 <= lo1 -> -1074 <= lo2 -> -1074 <= lo1 - hi2 - 53 ->
  hi1 - lo2 - 51 <= 971 ->
  scaled a * 2 ^ 1074 * 2 ^ 52 <= scaled (fdiv a b) * scaled b * (2 ^ 52 + 1).
Proof.
  intros Ha Hb Hl1 Hl2 Hlo Hhi.
  destruct (normal_in_inv _ _ _ Ha) as (ma & ea & -> & Hma & Hea).
  destruct (normal_in_inv _ _ _ Hb) as (mb & eb & -> & Hmb & Heb).
  unfold fdiv, SFdiv. simpl xorb.
  destruct (fdiv_core_normal ma mb ea eb Hma Hmb ltac:(lia)) as [l ->].
  set (q := Zpos ma * 2 ^ 53 / Zpos mb).
  assert (Hqm : Zpos ma * 2 ^ 53 <= (q + 1) * Zpos mb).
  { unfold q. pose proof (Z.mul_succ_div_gt (Zpos ma * 2 ^ 53) (Zpos mb) ltac:(lia)).
    lia. }
  assert (Hqr : 2 ^ 52 <= q < 2 ^ 54).
  { unfold q. split.
    - apply Z.div_le_lower_bound; [lia|].
      apply Z.le_trans with (2 ^ 53 * 2 ^ 52); [|].
      + apply Z.mul_le_mono_nonneg_r; lia.
      + rewrite Z.mul_comm. apply Z.mul_le_mono_nonneg_r; lia.
    - apply Z.div_lt_upper_bound; [lia|].
      apply Z.lt_le_trans with (2 ^ 53 * 2 ^ 53).
      + apply Z.mul_lt_mono_pos_r; lia.
      + change (2 ^ 53 * 2 ^ 53) with (2 ^ 52 * 2 ^ 54).
        apply Z.mul_le_mono_nonneg_r; lia. }
  assert (Hqpos : 0 < q) by lia.
  pose proof (Zdigits2_range q 52 54 Hqpos ltac:(lia) Hqr) as Hd.
  destruct (round_aux_lower q (ea - eb - 53) l) as (m' & j & -> & Hm' & Hj & Hv);
    try lia.
  assert (Hj2 : 0 <= j <= 2) by (clear - Hj Hd; lia).
  rewrite !scaled_finite.
  assert (Hpb : 0 < 2 ^ (eb + 1074)) by (apply pow2_pos; lia).
  assert (Hpe : 0 < 2 ^ (ea - 53 + 2148)) by (apply pow2_pos; lia).
  assert (Hs1 : 2 ^ (ea - eb - 53 + j + 1074) * 2 ^ (eb + 1074) =
                2 ^ j * 2 ^ (ea - 53 + 2148)).
  { rewrite <- !pow2_split by lia. f_equal. lia. }
  assert (Hs2 : 2 ^ (ea + 1074) * 2 ^ 1074 = 2 ^ 53 * 2 ^ (ea - 53 + 2148)).
  { rewrite <- !pow2_split by lia. f_equal. lia. }
  set (X := 2 ^ (ea - eb - 53 + j + 1074)) in *.
  replace (Zpos m' * X * (Zpos mb * 2 ^ (eb + 1074)) * (2 ^ 52 + 1))
    with (Zpos m' * (X * 2 ^ (eb + 1074)) * Zpos mb * (2 ^ 52 + 1)) by ring.
  replace (Zpos ma * 2 ^ (ea + 1074) * 2 ^ 1074 * 2 ^ 52)
    with (Zpos ma * (2 ^ (ea + 1074) * 2 ^ 1074) * 2 ^ 52) by ring.
  rewrite Hs1, Hs2.
  set (Y := 2 ^ (ea - 53 + 2148)) in *.
  replace (Zpos m' * (2 ^ j * Y) * Zpos mb * (2 ^ 52 + 1))
    with (Zpos m' * 2 ^ j * (2 ^ 52 + 1) * Zpos mb * Y) by ring.
  replace (Zpos ma * (2 ^ 53 * Y) * 2 ^ 52)
    with (Zpos ma * 2 ^ 53 * 2 ^ 52 * Y) by ring.
  apply Z.mul_le_mono_nonneg_r; [lia|].
  apply Z.le_trans with ((q + 1) * Zpos mb * 2 ^ 52).
  - apply Z.mul_le_mono_nonneg_r; lia.
  - replace ((q + 1) * Zpos mb * 2 ^ 52) with ((q + 1) * 2 ^ 52 * Zpos mb) by ring.
    apply Z.mul_le_mono_nonneg_r; lia.
Qed.

(** Rounding never goes below a float that the exact value reaches: the
    float [F * 2^g] against the rounding of [m * 2^e]. *)
Lemma round_aux_at_least (m e : Z) (l : location) (F g : Z) :
  0 < m -> 53 <= Zdigits2 m -> -1074 <= e + (Zdigits2 m - 53) ->
  e + (Zdigits2 m - 53) + 1 <= 971 ->
  2 ^ 52 <= F < 2 ^ 53 ->
  (e <= g -> F * 2 ^ (g - e) <= m) ->
  exists m' j,
    binary_round_aux prec emax false m e l = S754_finite false m' (e + j) /\
    2 ^ 52 <= Zpos m' < 2 ^ 53 /\
    Zdigits2 m - 53 <= j <= Zdigits2 m - 53 + 1 /\
    (g < e + j \/ (g = e + j /\ F <= Zpos m')).
Proof.
  intros Hm Hd Hlo Hhi HF Hle.
  destruct (round_aux_cases m e l Hm Hd Hlo Hhi) as (m' & j & Hr & Hm' & Hc).
  exists m', j. split; [assumption|]. split; [assumption|].
  pose proof (Zdigits2_bounds m Hm) as [_ Hup].
  set (k := Zdigits2 m - 53) in *.
  assert (Hd53 : 2 ^ Zdigits2 m = 2 ^ 53 * 2 ^ k)
    by (rewrite <- pow2_split by lia; f_equal; lia).
  assert (Hk : 0 < 2 ^ k) by (apply pow2_pos; lia).
  assert (Hbig : forall x, k + 1 <= x -> F * 2 ^ x <= m -> False).
  { intros x Hx Hxm.
    assert (2 ^ (k + 1) <= 2 ^ x) by (apply Z.pow_le_mono_r; lia).
    rewrite pow2_split in H by lia. simpl (2 ^ 1) in H.
    assert (2 ^ 52 * (2 ^ k * 2) <= F * 2 ^ x)
      by (apply Z.mul_le_mono_nonneg; lia).
    lia. }
  destruct Hc as [[-> HT]|(-> & Hm2 & HT2)].
  - split; [lia|].
    destruct (Z.lt_trichotomy g (e + k)) as [Hlt|[Heq|Hgt]]; [now left| |].
    + right. split; [assumption|].
      apply Z.le_trans with (m / 2 ^ k); [|assumption].
      apply Z.div_le_lower_bound; [assumption|].
      specialize (Hle ltac:(lia)). replace (g - e) with k in Hle by lia. lia.
    + exfalso. apply (Hbig (g - e)); [lia|]. apply Hle. lia.
  - split; [lia|].
    destruct (Z_lt_le_dec g (e + (k + 1))) as [Hlt|Hge]; [now left|].
    exfalso. apply (Hbig (g - e)); [lia|]. apply Hle. lia.
Qed.

Lemma lex_le_scaled (F m' : positive) (g e' : Z) :
  2 ^ 52 <= Zpos F < 2 ^ 53 -> 2 ^ 52 <= Zpos m' < 2 ^ 53 ->
  -1074 <= g -> -1074 <= e' ->
  (g < e' \/ (g = e' /\ Zpos F <= Zpos m')) ->
  scaled (S754_finite false F g) <= scaled (S754_finite false m' e').
Proof.
  intros HF Hm' Hg He' Hlex.
  apply (fleb_scaled g g e' e' (S754_finite false F g) (S754_finite false m' e'));
    try (apply normal_in_intro; lia); try lia.
  unfold fleb, SFleb, SFcompare.
  destruct (Z.compare_spec g e') as [Heq|Hlt|Hgt]; [|reflexivity|lia].
  change (Pos.compare_cont Eq F m') with (Pos.compare F m').
  destruct (Pos.compare_spec F m'); [reflexivity|reflexivity|lia].
Qed.

(** A quotient is at least any float that the exact quotient reaches. *)
Lemma fdiv_at_least (lo1 hi1 lo2 hi2 lo3 hi3 : Z) (a b f : float) :
  normal_in lo1 hi1 a = true -> normal_in lo2 hi2 b = true ->
  normal_in lo3 hi3 f = true ->
  -1074 <= lo1 -> -1074 <= lo2 -> -1074 <= lo3 -> -1074 <= lo1 - hi2 - 53 ->
  hi1 - lo2 - 51 <= 971 ->
  scaled f * scaled b <= scaled a * 2 ^ 1074 ->
  scaled f <= scaled (fdiv a b).
Proof.
  intros Ha Hb Hf Hl1 Hl2 Hl3 Hlo Hhi Hle.
  destruct (normal_in_inv _ _ _ Ha) as (ma & ea & -> & Hma & Hea).
  destruct (normal_in_inv _ _ _ Hb) as (mb & eb & -> & Hmb & Heb).
  destruct (normal_in_inv _ _ _ Hf) as (F & g & -> & HF & Hg).
  rewrite !scaled_finite in Hle.
  unfold fdiv, SFdiv. simpl xorb.
  destruct (fdiv_core_normal ma mb ea eb Hma Hmb ltac:(lia)) as [l ->].
  set (q := Zpos ma * 2 ^ 53 / Zpos mb).
  assert (Hqr : 2 ^ 52 <= q < 2 ^ 54).
  { unfold q. split.
    - apply Z.div_le_lower_bound; [lia|].
      apply Z.le_trans with (2 ^ 53 * 2 ^ 52); [|].
      + apply Z.mul_le_mono_nonneg_r; lia.
      + rewrite Z.mul_comm. apply Z.mul_le_mono_nonneg_r; lia.
    - apply Z.div_lt_upper_bound; [lia|].
      apply Z.lt_le_trans with (2 ^ 53 * 2 ^ 53).
      + apply Z.mul_lt_mono_pos_r; lia.
      + change (2 ^ 53 * 2 ^ 53) with (2 ^ 52 * 2 ^ 54).
        apply Z.mul_le_mono_nonneg_r; lia. }
  assert (Hqpos : 0 < q) by lia.
  pose proof (Zdigits2_range q 52 54 Hqpos ltac:(lia) Hqr) as Hd.
  destruct (round_aux_at_least q (ea - eb - 53) l (Zpos F) g)
    as (m' & j & -> & Hm' & Hj & Hlex); try lia.
  { intros Hge. unfold q. apply Z.div_le_lower_bound; [lia|].
    assert (HY : 0 < 2 ^ (ea - 53 + 2148)) by (apply pow2_pos; lia).
    apply Z.mul_le_mono_pos_r with (2 ^ (ea - 53 + 2148)); [assumption|].
    assert (E1 : 2 ^ (g + 1074) * 2 ^ (eb + 1074) =
                 2 ^ (g - (ea - eb - 53)) * 2 ^ (ea - 53 + 2148))
      by (rewrite <- !pow2_split by lia; f_equal; lia).
    assert (E2 : 2 ^ (ea + 1074) * 2 ^ 1074 = 2 ^ 53 * 2 ^ (ea - 53 + 2148))
      by (rewrite <- !pow2_split by lia; f_equal; lia).
    replace (Zpos mb * (Zpos F * 2 ^ (g - (ea - eb - 53))) * 2 ^ (ea - 53 + 2148))
      with (Zpos F * Zpos mb *
            (2 ^ (g - (ea - eb - 53)) * 2 ^ (ea - 53 + 2148))) by ring.
    rewrite <- E1.
    replace (Zpos ma * 2 ^ 53 * 2 ^ (ea - 53 + 2148))
      with (Zpos ma * (2 ^ 53 * 2 ^ (ea - 53 + 2148))) by ring.
    rewrite <- E2.
    replace (Zpos F * Zpos mb * (2 ^ (g + 1074) * 2 ^ (eb + 1074)))
      with (Zpos F * 2 ^ (g + 1074) * (Zpos mb * 2 ^ (eb + 1074))) by ring.
    replace (Zpos ma * (2 ^ (ea + 1074) * 2 ^ 1074))
      with (Zpos ma * 2 ^ (ea + 1074) * 2 ^ 1074) by ring.
    exact Hle. }
  assert (Hj2 : 0 <= j <= 2) by (clear - Hj Hd; lia).
  apply lex_le_scaled; try assumption; lia.
Qed.

(** *** [int] and [round] on scaled values *)

Lemma int_scaled (lo hi : Z) (x : float) :
  normal_in lo hi x = true -> -1074 <= lo ->
  int x = Ok (scaled x / 2 ^ 1074).
Proof.
  intros H Hlo. destruct (normal_in_inv _ _ _ H) as (m & e & -> & Hm & He).
  rewrite scaled_finite. unfold int, cond_Zopp. f_equal.
  destruct (Z.leb_spec 0 e) as [Hpos|Hneg].
  - rewrite pow2_split by lia. rewrite Z.mul_assoc.
    symmetry. apply Z.div_mul. assert (0 < 2 ^ 1074) by (apply pow2_pos; lia). lia.
  - assert (Hs : 2 ^ 1074 = 2 ^ (- e) * 2 ^ (e + 1074))
      by (rewrite <- pow2_split by lia; f_equal; lia).
    rewrite Hs. symmetry. apply Z.div_mul_cancel_r.
    + assert (0 < 2 ^ (- e)) by (apply pow2_pos; lia). lia.
    + assert (0 < 2 ^ (e + 1074)) by (apply pow2_pos; lia). lia.
Qed.

Lemma round_at_most (lo hi : Z) (x : float) (B : Z) :
  normal_in lo hi x = true -> -1074 <= lo ->
  2 * scaled x < (2 * B + 1) * 2 ^ 1074 ->
  exists n, round x = Ok n /\ 0 <= n <= B.
Proof.
  intros H Hlo Hs. destruct (normal_in_inv _ _ _ H) as (m & e & -> & Hm & He).
  rewrite scaled_finite in Hs. unfold round, cond_Zopp.
  destruct (Z.leb_spec 0 e) as [Hpos|Hneg].
  - eexists. split; [reflexivity|].
    assert (0 < 2 ^ e) by (apply pow2_pos; lia).
    assert (HK : 0 < 2 ^ 1074) by (apply pow2_pos; lia).
    rewrite pow2_split in Hs by lia.
    split; [apply Z.mul_nonneg_nonneg; lia|].
    assert (2 * (Zpos m * 2 ^ e) < 2 * B + 1); [|lia].
    apply Z.mul_lt_mono_pos_r with (2 ^ 1074); [assumption|].
    replace (2 * (Zpos m * 2 ^ e) * 2 ^ 1074)
      with (2 * (Zpos m * (2 ^ e * 2 ^ 1074))) by ring. exact Hs.
  - eexists. split; [reflexivity|].
    assert (Hd : 0 < 2 ^ (- e)) by (apply pow2_pos; lia).
    assert (Hp : 0 < 2 ^ (e + 1074)) by (apply pow2_pos; lia).
    assert (Hs' : 2 * Zpos m < (2 * B + 1) * 2 ^ (- e)).
    { apply Z.mul_lt_mono_pos_r with (2 ^ (e + 1074)); [assumption|].
      replace ((2 * B + 1) * 2 ^ (- e) * 2 ^ (e + 1074))
        with ((2 * B + 1) * (2 ^ (- e) * 2 ^ (e + 1074))) by ring.
      rewrite <- pow2_split by lia.
      replace (- e + (e + 1074)) with 1074 by lia. lia. }
    set (d := 2 ^ (- e)) in *.
    pose proof (Z.div_mod (Zpos m) d ltac:(lia)) as Hdm.
    pose proof (Z.mod_pos_bound (Zpos m) d Hd) as Hr.
    assert (Hq0 : 0 <= Zpos m / d) by (apply Z.div_pos; lia).
    unfold round_half_even. fold d.
    set (q := Zpos m / d) in *. set (r := Zpos m mod d) in *.
    assert (Hq : 2 * q * d <= 2 * Zpos m) by nia.
    assert (HqB : q <= B) by nia.
    destruct (Z.compare_spec (2 * r) d) as [Heq|Hlt|Hgt].
    + destruct (Z.even q); [lia|]. split; [lia|]. nia.
    + lia.
    + split; [lia|]. nia.
Qed.

(** ** Size of the layout and columns of the table *)

Lemma truediv_Ok (a b q : float) :
  truediv a b = Ok q -> is_zero b = false /\ q = fdiv a b.
Proof.
  unfold truediv. destruct (is_zero b); [discriminate|].
  intros H. inversion H. split; reflexivity.
Qed.

Lemma length_grid_cells (rows cols : Z) :
  Z.of_nat (List.length (grid_cells rows cols)) = Z.max 0 rows * Z.max 0 cols.
Proof.
  unfold grid_cells.
  assert (H : forall l : list Z,
             List.length (flat_map (fun row => map (fun col => (row, col)) (range cols)) l)
             = (List.length l * List.length (range cols))%nat).
  { induction l as [|row l IH]; [reflexivity|].
    cbn [flat_map]. rewrite length_app, length_map, IH. reflexivity. }
  rewrite H. unfold range. rewrite !length_map, !length_seq.
  rewrite Nat2Z.inj_mul. f_equal; lia.
Qed.

Lemma grid_length (width height : float) (rows cols emitted : Z) (l : list position) :
  grid width height rows cols emitted = Ok l ->
  Z.of_nat (List.length l) = Z.max 0 emitted * Z.max 0 cols.
Proof.
  unfold grid. intros H. apply traverse_Forall2 in H.
  apply Forall2_length in H. rewrite <- H. apply length_grid_cells.
Qed.

(** Shape of every successful run of the grid branch. *)
Lemma bolt_positions_grid_inv
  (width height spacing : float) (rock_class : string) (l : list position) :
  String.eqb rock_class "I" = false ->
  bolt_positions width height spacing rock_class = Ok l ->
  exists rh rw,
    is_zero spacing = false /\
    int (fdiv height spacing) = Ok rh /\ int (fdiv width spacing) = Ok rw /\
    grid width height
      (if mem rock_class ["IV"; "V"] then rh else Z.max 2 rh) (Z.max 3 rw)
      (if mem rock_class ["II"; "III"] then 2
       else if mem rock_class ["IV"; "V"] then rh else Z.max 2 rh) = Ok l.
Proof.
  intros HI H. rewrite bolt_positions_grid in H by assumption.
  apply bind_Ok in H as (rows & Hrows & H).
  apply bind_Ok in H as (qw & Hqw & H).
  apply bind_Ok in H as (rw & Hrw & H).
  apply truediv_Ok in Hqw as [Hnz ->].
  rewrite max_int_max in H.
  destruct (mem rock_class ["IV"; "V"]) eqn:Hlow.
  - apply bind_Ok in Hrows as (qh & Hqh & Hrows).
    apply truediv_Ok in Hqh as [_ ->].
    exists rows, rw. repeat (split; [assumption|]). exact H.
  - apply bind_Ok in Hrows as (qh & Hqh & Hrows).
    apply truediv_Ok in Hqh as [_ ->].
    apply bind_Ok in Hrows as (rh & Hrh & Hrows).
    inversion Hrows; subst rows. rewrite max_int_max in H.
    exists rh, rw. repeat (split; [assumption|]). exact H.
Qed.

(** X6: the number of bolts drawn.  Class I always gets three; every other
    class gets a full grid of max(3, int(width/spacing)) columns, with two
    rows for classes II and III, int(height/spacing) rows (none when that is
    not positive) for classes IV and V, and max(2, int(height/spacing)) rows
    for any other class label. *)
Theorem layout_position_count
  (rock_class : string) (width height spacing : float) (l : list position) :
  bolt_positions width height spacing rock_class = Ok l ->
  (rock_class = "I" /\ List.length l = 3%nat) \/
  (rock_class <> "I" /\
   exists rh rw,
     int (fdiv height spacing) = Ok rh /\ int (fdiv width spacing) = Ok rw /\
     Z.of_nat (List.length l) =
       (if mem rock_class ["II"; "III"] then 2
        else if mem rock_class ["IV"; "V"] then Z.max 0 rh else Z.max 2 rh)
       * Z.max 3 rw).
Proof.
  intros H. destruct (String.eqb_spec rock_class "I") as [->|HI].
  - left. split; [reflexivity|].
    unfold bolt_positions in H. change (String.eqb "I" "I") with true in H.
    cbv iota in H. rewrite !truediv_nonzero in H by (vm_compute; reflexivity).
    cbn [bind for_each app] in H. inversion H. reflexivity.
  - right. split; [assumption|].
    apply String.eqb_neq in HI.
    destruct (bolt_positions_grid_inv _ _ _ _ _ HI H)
      as (rh & rw & _ & Hrh & Hrw & Hg).
    exists rh, rw. split; [assumption|]. split; [assumption|].
    rewrite (grid_length _ _ _ _ _ _ Hg).
    destruct (mem rock_class ["II"; "III"]); [lia|].
    destruct (mem rock_class ["IV"; "V"]); lia.
Qed.

Lemma layout_position_count_witness :
  ("V" = "I" /\ 15%nat = 3%nat) \/
  ("V" <> "I" /\
   exists rh rw,
     int (fdiv (lit 2 1) (lit 6 10)) = Ok rh /\
     int (fdiv (lit 3 1) (lit 6 10)) = Ok rw /\
     15 = Z.max 0 rh * Z.max 3 rw).
Proof.
  destruct (bolt_positions (lit 3 1) (lit 2 1) (lit 6 10) "V") as [l|e] eqn:E;
    [|vm_compute in E; discriminate].
  assert (Hl : List.length l = 15%nat)
    by (vm_compute in E; inversion E; reflexivity).
  rewrite <- Hl at 1.
  change 15 with (Z.of_nat 15). rewrite <- Hl.
  exact (layout_position_count "V" (lit 3 1) (lit 2 1) (lit 6 10) l E).
Defined.

(** X7: the layout raises ZeroDivisionError exactly when the spacing is zero
    and the class is not I; class I never divides by the spacing. *)
Theorem zero_division_iff_zero_spacing
  (rock_class : string) (width height spacing : float) :
  bolt_positions width height spacing rock_class = Err ZeroDivisionError <->
  is_zero spacing = true /\ rock_class <> "I".
Proof.
  split.
  - intros H. destruct (String.eqb_spec rock_class "I") as [->|HI].
    + unfold bolt_positions in H. change (String.eqb "I" "I") with true in H.
      cbv iota in H. rewrite !truediv_nonzero in H by (vm_compute; reflexivity).
      discriminate.
    + split; [|assumption].
      destruct (is_zero spacing) eqn:Hz; [reflexivity|]. exfalso.
      exact (bolt_positions_no_zero_division rock_class width height spacing Hz H).
  - intros [Hz HI]. apply String.eqb_neq in HI.
    unfold bolt_positions, truediv. rewrite HI, Hz.
    destruct (mem rock_class ["IV"; "V"]); reflexivity.
Qed.

Lemma Ok_inj {A : Type} (a b : A) : Ok a = Ok b -> a = b.
Proof. congruence. Qed.

(** [round] and [int] of the same float are at most one apart. *)
Lemma round_int (x : float) (r i : Z) :
  round x = Ok r -> int x = Ok i ->
  (0 <= i /\ i <= r <= i + 1) \/ (i <= 0 /\ i - 1 <= r <= i).
Proof.
  destruct x as [s|s| |s m e]; try discriminate.
  - intros Hr Hi. inversion Hr. inversion Hi. left. lia.
  - unfold round, int. destruct (Z.leb_spec 0 e) as [Hpos|Hneg];
      intros Hr Hi; apply Ok_inj in Hr, Hi; subst r i.
    + assert (0 < 2 ^ e) by (apply pow2_pos; lia).
      assert (0 < Zpos m * 2 ^ e) by (apply Z.mul_pos_pos; lia).
      destruct s; unfold cond_Zopp; [right|left]; lia.
    + assert (Hd : 0 < 2 ^ (- e)) by (apply pow2_pos; lia).
      pose proof (round_half_even_bounds (Zpos m) (2 ^ (- e)) Hd).
      assert (0 <= Zpos m / 2 ^ (- e)) by (apply Z.div_pos; lia).
      destruct s; unfold cond_Zopp; [right|left]; lia.
Qed.

(** X8: the table and the picture count the bolts of a row differently.
    For every class but I the picture is a grid of max(3, int(width/spacing))
    columns, while the table shows max(3, round(width/spacing)) bolts per
    row: the number of columns of the picture, or one more. *)
Theorem picture_columns_or_one_more
  (rock_class : string) (width height tunnel_length : float)
  (plan : Support * Quantities) (l : list position) :
  rock_class <> "I" ->
  support_tab rock_class width height tunnel_length = Ok (plan, l) ->
  exists rw rows emitted,
    int (fdiv width (bolt_spacing (fst plan))) = Ok rw /\
    grid width height rows (Z.max 3 rw) emitted = Ok l /\
    Z.max 3 rw <= bolts_per_row (snd plan) <= Z.max 3 rw + 1.
Proof.
  intros HI H. apply String.eqb_neq in HI. unfold support_tab in H.
  apply bind_Ok in H as (plan0 & Hplan & H).
  apply bind_Ok in H as (l0 & Hl & H).
  apply Ok_inj in H. injection H as -> ->.
  pose proof (support_plan_spacing _ _ _ _ Hplan) as Hnz.
  unfold support_plan in Hplan.
  apply bind_Ok in Hplan as (s & Hs & Hplan).
  apply bind_Ok in Hplan as (q & Hq & Hplan).
  apply Ok_inj in Hplan. subst plan. cbn [fst snd] in *.
  rewrite bolt_quantities_eq in Hq by assumption.
  apply bind_Ok in Hq as (r & Hr & Hq).
  apply bind_Ok in Hq as (f & Hf & Hq).
  apply Ok_inj in Hq. subst q. cbn [bolts_per_row]. rewrite HI.
  destruct (bolt_positions_grid_inv _ _ _ _ _ HI Hl)
    as (rh & rw & _ & _ & Hrw & Hg).
  exists rw. do 2 eexists. split; [assumption|]. split; [exact Hg|].
  pose proof (round_int _ _ _ Hr Hrw). lia.
Qed.

Lemma picture_columns_or_one_more_witness :
  exists rw rows emitted,
    int (fdiv (lit 45 10) (lit 6 10)) = Ok rw /\
    (exists l, grid (lit 45 10) (lit 1 1) rows (Z.max 3 rw) emitted = Ok l) /\
    Z.max 3 rw <= 8 <= Z.max 3 rw + 1.
Proof.
  destruct (support_tab "V" (lit 45 10) (lit 1 1) (lit 100 1)) as [[plan l]|e] eqn:E;
    [|vm_compute in E; discriminate].
  assert (Hs : bolt_spacing (fst plan) = lit 6 10)
    by (vm_compute in E; apply Ok_inj in E; injection E as <- _; vm_compute;
        reflexivity).
  assert (Hb : bolts_per_row (snd plan) = 8)
    by (vm_compute in E; apply Ok_inj in E; injection E as <- _; reflexivity).
  destruct (picture_columns_or_one_more "V" (lit 45 10) (lit 1 1) (lit 100 1) plan l
              ltac:(discriminate) E) as (rw & rows & emitted & H1 & H2 & H3).
  rewrite Hs in H1. rewrite Hb in H3.
  exists rw, rows, emitted. split; [assumption|]. split; [eauto|assumption].
Defined.

(** ** Poorer rock, stronger support *)

Lemma normal_in_weaken (lo hi lo' hi' : Z) (x : float) :
  normal_in lo hi x = true -> lo' <= lo -> hi <= hi' ->
  normal_in lo' hi' x = true.
Proof.
  intros H Hlo Hhi. destruct (normal_in_inv _ _ _ H) as (m & e & -> & Hm & He).
  apply normal_in_intro; lia.
Qed.

Lemma max_float_normal (lo hi : Z) (a b : float) :
  normal_in lo hi a = true -> normal_in lo hi b = true ->
  normal_in lo hi (max_float a b) = true.
Proof. intros Ha Hb. unfold max_float. destruct (fltb a b); assumption. Qed.

(** A smaller divisor gives a larger quotient, the roundings included, when
    the divisors differ by more than two roundings. *)
Lemma quotient_le (w c1 c2 : float) :
  in_ui_range w ->
  normal_in (-51) (-50) c1 = true -> normal_in (-51) (-50) c2 = true ->
  (scaled c2 * (2 ^ 52 + 1) * (2 ^ 52 + 1) <=? scaled c1 * 2 ^ 52 * 2 ^ 52) = true ->
  normal_in (-55) (-48) (fdiv w c1) = true /\
  normal_in (-55) (-48) (fdiv w c2) = true /\
  scaled (fdiv w c1) <= scaled (fdiv w c2).
Proof.
  intros Hw Hc1 Hc2 Hck. apply Z.leb_le in Hck.
  destruct (in_ui_range_normal w Hw) as (Hwn & _ & _).
  destruct (fdiv_normal (-52) (-48) (-51) (-50) w c1 Hwn Hc1) as [Hq1 Hv1]; try lia.
  destruct (fdiv_normal (-52) (-48) (-51) (-50) w c2 Hwn Hc2) as [Hq2 _]; try lia.
  pose proof (fdiv_lower (-52) (-48) (-51) (-50) w c2 Hwn Hc2
                ltac:(lia) ltac:(lia) ltac:(lia) ltac:(lia)) as Hv2.
  simpl (-52 - -50 - 53) in *. simpl (-48 - -51 - 51) in *.
  split; [assumption|]. split; [assumption|].
  pose proof (scaled_pos _ _ _ Hc1 ltac:(lia)) as P1.
  pose proof (scaled_pos _ _ _ Hc2 ltac:(lia)) as P2.
  pose proof (scaled_pos _ _ _ Hq1 ltac:(lia)) as PQ1.
  pose proof (scaled_pos _ _ _ Hq2 ltac:(lia)) as PQ2.
  pose proof (scaled_pos _ _ _ Hwn ltac:(lia)) as PW.
  assert (HK : 0 < 2 ^ 1074) by (apply pow2_pos; lia).
  assert (HE : 0 < 2 ^ 52) by (apply pow2_pos; lia).
  set (Q1 := scaled (fdiv w c1)) in *. set (Q2 := scaled (fdiv w c2)) in *.
  set (C1 := scaled c1) in *. set (C2 := scaled c2) in *.
  set (W := scaled w) in *. set (K := 2 ^ 1074) in *. set (E := 2 ^ 52) in *.
  apply Z.mul_le_mono_pos_r with (C1 * E * E);
    [apply Z.mul_pos_pos; [apply Z.mul_pos_pos|]; assumption|].
  apply Z.le_trans with (W * K * (E + 1) * E).
  { replace (Q1 * (C1 * E * E)) with (Q1 * C1 * E * E) by ring.
    apply Z.mul_le_mono_nonneg_r; lia. }
  apply Z.le_trans with (Q2 * C2 * (E + 1) * (E + 1)).
  { replace (W * K * (E + 1) * E) with (W * K * E * (E + 1)) by ring.
    apply Z.mul_le_mono_nonneg_r; lia. }
  replace (Q2 * C2 * (E + 1) * (E + 1)) with (Q2 * (C2 * (E + 1) * (E + 1))) by ring.
  apply Z.mul_le_mono_nonneg_l; lia.
Qed.

(** The bolt length of one row against the bolt length of a later row. *)
Lemma bolt_length_le (w k1 c1 k2 c2 : float) :
  in_ui_range w ->
  normal_in (-51) (-50) k1 = true -> normal_in (-51) (-50) c1 = true ->
  normal_in (-51) (-50) k2 = true -> normal_in (-51) (-50) c2 = true ->
  (scaled k1 <=? scaled k2) = true ->
  (scaled c2 * (2 ^ 52 + 1) * (2 ^ 52 + 1) <=? scaled c1 * 2 ^ 52 * 2 ^ 52) = true ->
  fleb (max_float k1 (fdiv w c1)) (max_float k2 (fdiv w c2)) = true.
Proof.
  intros Hw Hk1 Hc1 Hk2 Hc2 Hk Hck. apply Z.leb_le in Hk.
  destruct (quotient_le w c1 c2 Hw Hc1 Hc2 Hck) as (Hq1 & Hq2 & Hle).
  pose proof (normal_in_weaken _ _ (-55) (-48) _ Hk1 ltac:(lia) ltac:(lia)) as Hk1'.
  pose proof (normal_in_weaken _ _ (-55) (-48) _ Hk2 ltac:(lia) ltac:(lia)) as Hk2'.
  apply (fleb_scaled (-55) (-48) (-55) (-48));
    try (apply max_float_normal; assumption); try lia.
  rewrite (max_float_scaled _ _ _ _ _ _ Hk1' Hq1) by lia.
  rewrite (max_float_scaled _ _ _ _ _ _ Hk2' Hq2) by lia.
  lia.
Qed.

Lemma bolt_length_refl (w k c : float) :
  in_ui_range w ->
  normal_in (-51) (-50) k = true -> normal_in (-51) (-50) c = true ->
  fleb (max_float k (fdiv w c)) (max_float k (fdiv w c)) = true.
Proof.
  intros Hw Hk Hc.
  destruct (in_ui_range_normal w Hw) as (Hwn & _ & _).
  destruct (fdiv_normal (-52) (-48) (-51) (-50) w c Hwn Hc) as [Hq _]; try lia.
  simpl (-52 - -50 - 53) in *. simpl (-48 - -51 - 51) in *.
  pose proof (normal_in_weaken _ _ (-55) (-48) _ Hk ltac:(lia) ltac:(lia)) as Hk'.
  apply (fleb_scaled (-55) (-48) (-55) (-48));
    try (apply max_float_normal; assumption); lia.
Qed.

Ltac closed_check := vm_compute; reflexivity.

(** X9: poorer rock never gets weaker support.  For a sidebar width, the row
    of a class with a higher number has a bolt length at least as long and a
    bolt spacing at most as wide as the row of a class with a lower number. *)
Theorem poorer_class_stronger_support (c1 c2 : string) (width : float) :
  In c1 rock_classes -> In c2 rock_classes ->
  class_number c1 <= class_number c2 -> in_ui_range width ->
  exists s1 s2,
    support_recommendation c1 width = Ok s1 /\
    support_recommendation c2 width = Ok s2 /\
    fleb (bolt_length s1) (bolt_length s2) = true /\
    fleb (bolt_spacing s2) (bolt_spacing s1) = true.
Proof.
  intros H1 H2 Hle Hw. unfold rock_classes in H1, H2. simpl in H1, H2.
  destruct H1 as [<-|[<-|[<-|[<-|[<-|[]]]]]];
    destruct H2 as [<-|[<-|[<-|[<-|[<-|[]]]]]];
    try (exfalso; revert Hle; vm_compute; intros Hle; apply Hle; reflexivity);
    clear Hle;
    unfold support_recommendation; cbn [String.eqb Ascii.eqb Bool.eqb];
    rewrite !truediv_nonzero by closed_check;
    cbn [bind]; do 2 eexists;
    (split; [reflexivity|]); (split; [reflexivity|]);
    cbn [bolt_length bolt_spacing];
    (split; [|closed_check]);
    first [ apply bolt_length_refl; [assumption|closed_check|closed_check]
          | apply bolt_length_le;
            [assumption|closed_check|closed_check|closed_check|closed_check
            |closed_check|closed_check] ].
Qed.

Lemma poorer_class_stronger_support_witness :
  exists s1 s2,
    support_recommendation "II" (lit 5 1) = Ok s1 /\
    support_recommendation "IV" (lit 5 1) = Ok s2 /\
    fleb (bolt_length s1) (bolt_length s2) = true /\
    fleb (bolt_spacing s2) (bolt_spacing s1) = true.
Proof.
  apply (poorer_class_stronger_support "II" "IV" (lit 5 1)).
  - unfold rock_classes. simpl. auto 10.
  - unfold rock_classes. simpl. auto 10.
  - vm_compute. discriminate.
  - repeat split; vm_compute; reflexivity.
Defined.

(** ** Quantities of the sidebar inputs *)

Lemma lit_1000_1 : lit 1000 1 = S754_finite false 8796093022208000 (-43).
Proof. vm_compute. reflexivity. Qed.

Lemma in_length_range_normal (x : float) :
  in_length_range x -> normal_in (-52) (-43) x = true.
Proof.
  intros (Hv & H1 & H1000).
  rewrite lit_1_1 in H1. rewrite lit_1000_1 in H1000.
  destruct x as [s|s| |s m e]; try discriminate.
  - destruct s; discriminate.
  - destruct s; [discriminate|].
    unfold fleb, SFleb, SFcompare in H1, H1000.
    destruct (Z.compare_spec (-52) e) as [E1|L1|G1]; try discriminate;
    destruct (Z.compare_spec e (-43)) as [E2|L2|G2]; try discriminate;
    (assert (He : -52 <= e <= -43) by lia);
    unfold valid_binary, bounded, canonical_mantissa in Hv;
    apply andb_prop in Hv as [Hc _]; apply Z.eqb_eq in Hc;
    unfold fexp, emin, prec, emax in Hc;
    unfold normal_in;
    (replace (Zpos (digits2_pos m)) with 53 by lia);
    simpl; apply andb_true_intro; split; lia.
Qed.

Lemma normal_positive_finite (lo hi : Z) (x : float) :
  normal_in lo hi x = true -> positive_finite x = true.
Proof.
  intros H. destruct (normal_in_inv _ _ _ H) as (m & e & -> & _). reflexivity.
Qed.

Lemma count_checks (n : Z) :
  2 <= n <= 50 -> exists f, to_float n = Ok f /\ normal_in (-51) (-47) f = true.
Proof.
  intros Hn.
  assert (H : forallb count_check (range 51) = true) by (vm_compute; reflexivity).
  rewrite forallb_forall in H. specialize (H n ltac:(apply in_range; lia)).
  unfold count_check in H. apply orb_prop in H as [H|H]; [apply Z.ltb_lt in H; lia|].
  destruct (to_float n) as [f|e]; [eauto|discriminate].
Qed.

(** Every row of the table for a sidebar width: spacing and bolt length are
    normal floats, and the spacing is a tight one. *)
Lemma table_row_normal (rock_class : string) (width : float) :
  In rock_class rock_classes -> in_ui_range width ->
  exists s, support_recommendation rock_class width = Ok s /\
            tight_spacing (bolt_spacing s) = true /\
            normal_in (-55) (-48) (bolt_length s) = true.
Proof.
  intros Hin Hw.
  destruct (in_ui_range_normal width Hw) as (Hwn & _ & _).
  assert (Hq : forall c, normal_in (-51) (-50) c = true ->
                         normal_in (-55) (-48) (fdiv width c) = true).
  { intros c Hc.
    destruct (fdiv_normal (-52) (-48) (-51) (-50) width c Hwn Hc) as [Hq _]; try lia.
    exact Hq. }
  assert (Hm : forall k c, normal_in (-51) (-50) k = true ->
                           normal_in (-51) (-50) c = true ->
                           normal_in (-55) (-48) (max_float k (fdiv width c)) = true).
  { intros k c Hk Hc. apply max_float_normal; [|apply Hq; assumption].
    apply (normal_in_weaken _ _ _ _ _ Hk); lia. }
  unfold rock_classes in Hin. simpl in Hin.
  destruct Hin as [<-|[<-|[<-|[<-|[<-|[]]]]]]; unfold support_recommendation;
    cbn [String.eqb Ascii.eqb Bool.eqb];
    rewrite truediv_nonzero by (vm_compute; reflexivity);
    cbn [bind]; eexists; (split; [reflexivity|]); cbn [bolt_spacing bolt_length];
    (split; [vm_compute; reflexivity|]);
    apply Hm; vm_compute; reflexivity.
Qed.

Lemma tight_table_spacing (s : float) : tight_spacing s = true -> table_spacing s = true.
Proof.
  unfold tight_spacing, table_spacing. intros H.
  apply andb_prop in H as [Hn Hc]. rewrite Hn. cbn [andb].
  apply Z.ltb_lt in Hc. apply Z.ltb_lt.
  pose proof (scaled_pos _ _ _ Hn ltac:(lia)) as Hs.
  assert (HE : 0 < 2 ^ 52) by (apply pow2_pos; lia).
  assert (0 < scaled s * 2 ^ 52) by (apply Z.mul_pos_pos; assumption).
  replace (51 * scaled s * 2 ^ 52) with (51 * (scaled s * 2 ^ 52)) by ring.
  replace (101 * scaled s * 2 ^ 52) with (101 * (scaled s * 2 ^ 52)) in Hc by ring.
  lia.
Qed.

(** Bolts per row of a sidebar width: the rounded quotient is at most 50. *)
Lemma round_quotient (s w : float) :
  tight_spacing s = true -> in_ui_range w ->
  exists r, round (fdiv w s) = Ok r /\ 0 <= r <= 50.
Proof.
  intros Hs Hw. apply andb_prop in Hs as [Hn Hc]. apply Z.ltb_lt in Hc.
  destruct (in_ui_range_normal w Hw) as (Hwn & _ & Hw30).
  destruct (fdiv_normal (-52) (-48) (-53) (-51) w s Hwn Hn) as [Hq Hv]; try lia.
  apply (round_at_most _ _ _ 50 Hq); [lia|].
  pose proof (scaled_pos _ _ _ Hn ltac:(lia)) as Hspos.
  pose proof (scaled_pos _ _ _ Hq ltac:(lia)) as Hqpos.
  assert (HK : 0 < 2 ^ 1074) by (apply pow2_pos; lia).
  assert (HE : 0 < 2 ^ 52) by (apply pow2_pos; lia).
  set (K := 2 ^ 1074) in *. set (E := 2 ^ 52) in *.
  set (Q := scaled (fdiv w s)) in *. set (S := scaled s) in *.
  set (W := scaled w) in *. set (W30 := scaled (lit 30 1)) in *.
  simpl (2 * 50 + 1).
  apply Z.mul_lt_mono_pos_r with (S * E); [apply Z.mul_pos_pos; assumption|].
  apply Z.le_lt_trans with (2 * (W * K * (E + 1))); [lia|].
  apply Z.le_lt_trans with (2 * (W30 * K * (E + 1))).
  - apply Z.mul_le_mono_nonneg_l; [lia|].
    apply Z.mul_le_mono_nonneg_r; [lia|]. apply Z.mul_le_mono_nonneg_r; lia.
  - replace (2 * (W30 * K * (E + 1))) with (2 * W30 * (E + 1) * K) by ring.
    replace (101 * K * (S * E)) with (101 * S * E * K) by ring.
    apply Z.mul_lt_mono_pos_r; assumption.
Qed.

(** X10: for every class, sidebar width and sidebar tunnel length the plan
    is computed, the table shows at least 2 (class I) or 3 (other classes)
    and at most 50 bolts per row, and the bolt length, the rows per meter,
    the bolt density, the total number of bolts and the total bolt length
    are finite and above zero. *)
Theorem quantities_finite_and_bounded
  (rock_class : string) (width tunnel_length : float) :
  In rock_class rock_classes -> in_ui_range width ->
  in_length_range tunnel_length ->
  exists s q,
    support_plan rock_class width tunnel_length = Ok (s, q) /\
    (if String.eqb rock_class "I" then 2 else 3) <= bolts_per_row q <= 50 /\
    positive_finite (bolt_length s) = true /\
    positive_finite (rows_per_meter q) = true /\
    positive_finite (bolt_density q) = true /\
    positive_finite (total_bolts q) = true /\
    positive_finite (total_bolt_length q) = true.
Proof.
  intros Hin Hw HL.
  destruct (table_row_normal rock_class width Hin Hw) as (s & Hs & Hts & Hbl).
  pose proof (in_length_range_normal _ HL) as HLn.
  destruct (round_quotient _ _ Hts Hw) as (r & Hr & Hrb).
  set (k := if String.eqb rock_class "I" then 2 else 3).
  assert (Hk : 2 <= k <= 3) by (unfold k; destruct (String.eqb rock_class "I"); lia).
  destruct (count_checks (Z.max k r) ltac:(lia)) as (f & Hf & Hfn).
  pose proof Hts as Hsp. apply andb_prop in Hsp as [Hsn _].
  assert (Hrpm : normal_in (-54) (-50)
                   (if String.eqb rock_class "I" then lit 5 10
                    else fdiv (lit 1 1) (bolt_spacing s)) = true).
  { destruct (String.eqb rock_class "I"); [vm_compute; reflexivity|].
    assert (N1 : normal_in (-52) (-52) (lit 1 1) = true) by (vm_compute; reflexivity).
    destruct (fdiv_normal (-52) (-52) (-53) (-51) _ _ N1 Hsn) as [Hq _]; try lia.
    exact Hq. }
  set (rpm := if String.eqb rock_class "I" then lit 5 10
              else fdiv (lit 1 1) (bolt_spacing s)) in *.
  destruct (fmul_normal (-51) (-47) (-54) (-50) f rpm Hfn Hrpm) as [Hd _]; try lia.
  simpl (-51 + -54 + 52) in Hd. simpl (-47 + -50 + 54) in Hd.
  destruct (fmul_normal (-53) (-43) (-52) (-43) _ tunnel_length Hd HLn)
    as [Ht _]; try lia.
  simpl (-53 + -52 + 52) in Ht. simpl (-43 + -43 + 54) in Ht.
  destruct (fmul_normal (-53) (-32) (-55) (-48) _ (bolt_length s) Ht Hbl)
    as [Htl _]; try lia.
  exists s. eexists. split.
  - unfold support_plan. rewrite Hs. cbn [bind].
    rewrite bolt_quantities_eq by (eapply normal_nonzero; exact Hsn).
    rewrite Hr. cbn [bind]. fold k. rewrite Hf. cbn [bind]. reflexivity.
  - cbn [bolts_per_row rows_per_meter bolt_density total_bolts total_bolt_length].
    fold k. fold rpm. split; [lia|].
    repeat split; eapply normal_positive_finite; eassumption.
Qed.

Lemma quantities_finite_and_bounded_witness :
  exists s q,
    support_plan "V" (lit 30 1) (lit 1000 1) = Ok (s, q) /\
    (if String.eqb "V" "I" then 2 else 3) <= bolts_per_row q <= 50 /\
    positive_finite (bolt_length s) = true /\
    positive_finite (rows_per_meter q) = true /\
    positive_finite (bolt_density q) = true /\
    positive_finite (total_bolts q) = true /\
    positive_finite (total_bolt_length q) = true.
Proof.
  apply (quantities_finite_and_bounded "V" (lit 30 1) (lit 1000 1)).
  - unfold rock_classes. simpl. auto 10.
  - repeat split; vm_compute; reflexivity.
  - repeat split; vm_compute; reflexivity.
Defined.

(** ** The sidebar layout is never empty *)

Lemma int_quotient_positive (s x : float) :
  table_spacing s = true -> (scaled s <=? scaled (lit 1 1)) = true ->
  in_ui_range x ->
  exists r, int (fdiv x s) = Ok r /\ 1 <= r <= 50.
Proof.
  intros Hs Hs1 Hx. apply Z.leb_le in Hs1.
  destruct (int_quotient s x Hs Hx) as (r & Hr & Hrb).
  exists r. split; [assumption|]. split; [|lia].
  destruct (quotient_bound s x Hs Hx) as [Hq _].
  apply andb_prop in Hs as [Hn _].
  destruct (in_ui_range_normal x Hx) as (Hxn & Hx1 & _).
  assert (N1 : normal_in (-52) (-52) (lit 1 1) = true) by (vm_compute; reflexivity).
  assert (H1 : scaled (lit 1 1) = 2 ^ 1074) by (vm_compute; reflexivity).
  assert (HK : 0 < 2 ^ 1074) by (apply pow2_pos; lia).
  assert (Hge : scaled (lit 1 1) <= scaled (fdiv x s)).
  { apply (fdiv_at_least (-52) (-48) (-53) (-51) (-52) (-52) x s (lit 1 1));
      try assumption; try lia. }
  rewrite (int_scaled _ _ _ Hq ltac:(lia)) in Hr. apply Ok_inj in Hr. subst r.
  apply Z.div_le_lower_bound; [assumption|]. rewrite H1 in Hge. lia.
Qed.

Lemma class_I_length (width height spacing : float) (l : list position) :
  bolt_positions width height spacing "I" = Ok l -> List.length l = 3%nat.
Proof.
  intros H. unfold bolt_positions in H. change (String.eqb "I" "I") with true in H.
  cbv iota in H. rewrite !truediv_nonzero in H by (vm_compute; reflexivity).
  cbn [bind for_each app] in H. apply Ok_inj in H. subst l. reflexivity.
Qed.

(** X11: for every class and every sidebar width and height the picture
    shows bolts: the layout is a full grid of rows x cols positions with
    1 <= rows <= 50 and 3 <= cols <= 50, one row of 3 for class I and two rows
    for classes II and III. *)
Theorem sidebar_layout_never_empty
  (rock_class : string) (width height tunnel_length : float) :
  In rock_class rock_classes -> in_ui_range width -> in_ui_range height ->
  exists plan l rows cols,
    support_tab rock_class width height tunnel_length = Ok (plan, l) /\
    Z.of_nat (List.length l) = rows * cols /\
    1 <= rows <= 50 /\ 3 <= cols <= 50 /\
    (rock_class = "I" -> rows = 1 /\ cols = 3) /\
    (In rock_class ["II"; "III"] -> rows = 2).
Proof.
  intros Hin Hw Hh.
  destruct (table_row rock_class width Hin) as (s & Hs & Hts).
  destruct (bolt_quantities_ui rock_class width tunnel_length (bolt_length s)
              (bolt_spacing s) Hts Hw) as (r & f & _ & _ & Hq).
  destruct (bolt_positions_inside rock_class width height (bolt_spacing s) Hts Hw Hh)
    as (l & Hl & _).
  match type of Hq with _ = Ok ?v => set (q := v) in Hq end.
  assert (Htab : support_tab rock_class width height tunnel_length =
                 Ok (s, q, l)).
  { unfold support_tab, support_plan. rewrite Hs. cbn [bind]. rewrite Hq.
    cbn [bind fst]. rewrite Hl. reflexivity. }
  exists (s, q), l.
  destruct (String.eqb_spec rock_class "I") as [HI|HI].
  - exists 1, 3. split; [exact Htab|]. subst rock_class.
    rewrite (class_I_length _ _ _ _ Hl). repeat split; try lia.
    intros Hup. simpl in Hup. destruct Hup as [E|[E|[]]]; discriminate.
  - pose proof HI as HI'. apply String.eqb_neq in HI'.
    destruct (bolt_positions_grid_inv _ _ _ _ _ HI' Hl)
      as (rh & rw & _ & Hrh & Hrw & Hg).
    destruct (int_quotient _ _ Hts Hw) as (rw' & Hrw' & Hrwb).
    rewrite Hrw in Hrw'. apply Ok_inj in Hrw'. subst rw'.
    destruct (int_quotient _ _ Hts Hh) as (rh' & Hrh' & Hrhb).
    rewrite Hrh in Hrh'. apply Ok_inj in Hrh'. subst rh'.
    pose proof (grid_length _ _ _ _ _ _ Hg) as Hlen.
    destruct (mem rock_class ["II"; "III"]) eqn:Hup.
    + exists 2, (Z.max 3 rw). split; [exact Htab|]. rewrite Hlen.
      repeat split; try lia; contradiction.
    + assert (Hlow : mem rock_class ["IV"; "V"] = true /\
                     (scaled (bolt_spacing s) <=? scaled (lit 1 1)) = true).
      { unfold rock_classes in Hin. simpl in Hin.
        destruct Hin as [<-|[<-|[<-|[<-|[<-|[]]]]]]; try discriminate;
          try contradiction;
          unfold support_recommendation in Hs;
          cbn [String.eqb Ascii.eqb Bool.eqb] in Hs;
          rewrite truediv_nonzero in Hs by (vm_compute; reflexivity);
          cbn [bind] in Hs; apply Ok_inj in Hs; subst s; cbn [bolt_spacing];
          split; vm_compute; reflexivity. }
      destruct Hlow as [Hlow Hs1]. rewrite Hlow in Hg, Hlen.
      destruct (int_quotient_positive _ _ Hts Hs1 Hh) as (rh' & Hrh' & Hrhb').
      rewrite Hrh in Hrh'. apply Ok_inj in Hrh'. subst rh'.
      assert (Hn2 : ~ In rock_class ["II"; "III"]).
      { intros Hin2. simpl in Hin2. destruct Hin2 as [<-|[<-|[]]]; discriminate. }
      exists rh, (Z.max 3 rw). split; [exact Htab|]. rewrite Hlen.
      repeat split; try lia; contradiction.
Qed.

Lemma sidebar_layout_never_empty_witness :
  exists plan l rows cols,
    support_tab "V" (lit 5 1) (lit 35 10) (lit 100 1) = Ok (plan, l) /\
    Z.of_nat (List.length l) = rows * cols /\
    1 <= rows <= 50 /\ 3 <= cols <= 50 /\
    ("V" = "I" -> rows = 1 /\ cols = 3) /\
    (In "V" ["II"; "III"] -> rows = 2).
Proof.
  apply (sidebar_layout_never_empty "V" (lit 5 1) (lit 35 10) (lit 100 1)).
  - unfold rock_classes. simpl. auto 10.
  - repeat split; vm_compute; reflexivity.
  - repeat split; vm_compute; reflexivity.
Defined.

(** ** The picture *)

Example picture_class_I :
  generate_bolt_pattern_image (lit 5 1) (lit 35 10) (lit 20 10) (lit 20 10) "I" =
  Ok (mkImage "RGB" (290, 215) "white"
        [Rectangle [20; 20; 270; 195] "black" 3;
         Ellipse [77; 40; 87; 50] "blue" "black";
         Ellipse [140; 40; 150; 50] "blue" "black";
         Ellipse [202; 40; 212; 50] "blue" "black"]).
Proof. vm_compute. reflexivity. Qed.

Lemma draw_bolt_shapes (length : float) (rock_class : string) (il : Z)
  (p : position) (c : Z * Z) (img : Image) :
  head_pixel p c ->
  (String.eqb rock_class "I" = false -> line_pixels length = Ok il) ->
  draw_bolt length rock_class p img =
  Ok (mkImage (img_mode img) (img_size img) (img_color img)
        (img_shapes img ++ bolt_shapes rock_class il c)).
Proof.
  intros [Hx Hy] Hl. unfold draw_bolt, bolt_shapes. rewrite Hx, Hy. cbn [bind].
  replace (padding + (fst c - padding)) with (fst c) by lia.
  replace (padding + (snd c - padding)) with (snd c) by lia.
  destruct (String.eqb rock_class "I"); cbn [negb].
  - reflexivity.
  - rewrite (Hl eq_refl). cbn [bind]. unfold draw.
    cbn [img_mode img_size img_color img_shapes]. rewrite <- app_assoc. reflexivity.
Qed.

Lemma draw_loop_shapes (length : float) (rock_class : string) (il : Z)
  (positions : list position) (centres : list (Z * Z)) :
  Forall2 head_pixel positions centres ->
  (String.eqb rock_class "I" = false -> line_pixels length = Ok il) ->
  forall img,
    for_each positions (draw_bolt length rock_class) img =
    Ok (mkImage (img_mode img) (img_size img) (img_color img)
          (img_shapes img ++ flat_map (bolt_shapes rock_class il) centres)).
Proof.
  intros HF Hl. induction HF as [|p c ps cs Hp HF IH]; intros img.
  - cbn [for_each flat_map]. rewrite app_nil_r. destruct img; reflexivity.
  - cbn [for_each flat_map].
    rewrite (draw_bolt_shapes length rock_class il p c img Hp Hl). cbn [bind].
    rewrite IH. cbn [img_mode img_size img_color img_shapes].
    rewrite <- app_assoc. reflexivity.
Qed.

(** The picture of a layout whose positions all convert to pixels. *)
Lemma picture_shapes (width height spacing length : float) (rock_class : string)
  (iw ih il : Z) (positions : list position) (centres : list (Z * Z)) :
  pixels width = Ok iw -> pixels height = Ok ih ->
  bolt_positions width height spacing rock_class = Ok positions ->
  Forall2 head_pixel positions centres ->
  (String.eqb rock_class "I" = false -> line_pixels length = Ok il) ->
  generate_bolt_pattern_image width height spacing length rock_class =
  Ok (mkImage "RGB" (iw + 2 * padding, ih + 2 * padding) "white"
        (Rectangle [padding; padding; padding + iw; padding + ih] "black" 3
         :: flat_map (bolt_shapes rock_class il) centres)).
Proof.
  intros Hw Hh Hp HF Hl. unfold generate_bolt_pattern_image.
  rewrite Hw, Hh. cbn [bind]. rewrite Hp. cbn [bind].
  rewrite (draw_loop_shapes length rock_class il positions centres HF Hl).
  reflexivity.
Qed.

(** *** Chains of rounding bounds *)

Section Chains.

Variables K E : Z.
Hypothesis K_pos : 0 < K.
Hypothesis E_pos : 0 < E.

Lemma pixel_chain (P X F W PW : Z) :
  0 < F -> 0 <= X -> 0 <= W -> 0 <= PW ->
  P * K * E <= X * F * (E + 1) ->
  W * F * E <= PW * K * (E + 1) ->
  X * (E + 1) * (E + 1) <= W * E * E ->
  P <= PW.
Proof.
  intros HF HX HW HPW H1 H2 H3.
  apply Z.mul_le_mono_pos_r with (K * E * (E + 1));
    [apply Z.mul_pos_pos; [apply Z.mul_pos_pos|]; lia|].
  apply Z.le_trans with (X * F * (E + 1) * (E + 1)).
  { replace (P * (K * E * (E + 1))) with (P * K * E * (E + 1)) by ring.
    apply Z.mul_le_mono_nonneg_r; lia. }
  apply Z.le_trans with (F * (W * E * E)).
  { replace (X * F * (E + 1) * (E + 1)) with (F * (X * (E + 1) * (E + 1))) by ring.
    apply Z.mul_le_mono_nonneg_l; lia. }
  replace (F * (W * E * E)) with (W * F * E * E) by ring.
  replace (PW * (K * E * (E + 1))) with (PW * K * (E + 1) * E) by ring.
  apply Z.mul_le_mono_nonneg_r; lia.
Qed.

Lemma div_mul_margin (X Q A C W : Z) :
  0 < C -> 0 <= A -> 0 <= W -> 0 <= Q ->
  Q * C * E <= W * K * (E + 1) ->
  X * K * E <= A * Q * (E + 1) ->
  A * (E + 1) * (E + 1) * (E + 1) * (E + 1) <= C * E * E * E * E ->
  X * (E + 1) * (E + 1) <= W * E * E.
Proof.
  intros HC HA HW HQ H1 H2 H3.
  apply Z.mul_le_mono_pos_r with (K * C * E * E);
    [repeat (apply Z.mul_pos_pos; [|assumption]); assumption|].
  apply Z.le_trans with (A * Q * (E + 1) * (C * E * (E + 1) * (E + 1))).
  { replace (X * (E + 1) * (E + 1) * (K * C * E * E))
      with (X * K * E * (C * E * (E + 1) * (E + 1))) by ring.
    apply Z.mul_le_mono_nonneg_r; [|assumption].
    repeat apply Z.mul_nonneg_nonneg; lia. }
  apply Z.le_trans with (W * K * (E + 1) * (A * (E + 1) * (E + 1) * (E + 1))).
  { replace (A * Q * (E + 1) * (C * E * (E + 1) * (E + 1)))
      with (Q * C * E * (A * (E + 1) * (E + 1) * (E + 1))) by ring.
    apply Z.mul_le_mono_nonneg_r; [|assumption].
    repeat apply Z.mul_nonneg_nonneg; lia. }
  replace (W * K * (E + 1) * (A * (E + 1) * (E + 1) * (E + 1)))
    with (W * K * (A * (E + 1) * (E + 1) * (E + 1) * (E + 1))) by ring.
  replace (W * E * E * (K * C * E * E)) with (W * K * (C * E * E * E * E)) by ring.
  apply Z.mul_le_mono_nonneg_l; [|assumption].
  apply Z.mul_nonneg_nonneg; lia.
Qed.

Lemma div_margin (Q C W : Z) :
  0 < C -> 0 <= W -> 0 <= Q ->
  Q * C * E <= W * K * (E + 1) ->
  K * (E + 1) * (E + 1) * (E + 1) <= C * E * E * E ->
  Q * (E + 1) * (E + 1) <= W * E * E.
Proof.
  intros HC HW HQ H1 H2.
  apply Z.mul_le_mono_pos_r with (C * E); [apply Z.mul_pos_pos; assumption|].
  apply Z.le_trans with (W * K * (E + 1) * ((E + 1) * (E + 1))).
  { replace (Q * (E + 1) * (E + 1) * (C * E))
      with (Q * C * E * ((E + 1) * (E + 1))) by ring.
    apply Z.mul_le_mono_nonneg_r; [|assumption].
    apply Z.mul_nonneg_nonneg; lia. }
  replace (W * K * (E + 1) * ((E + 1) * (E + 1)))
    with (W * (K * (E + 1) * (E + 1) * (E + 1))) by ring.
  replace (W * E * E * (C * E)) with (W * (C * E * E * E)) by ring.
  apply Z.mul_le_mono_nonneg_l; assumption.
Qed.

Lemma mul_div_margin (Q M T C W : Z) :
  0 < C -> 0 <= T -> 0 <= W -> 0 <= M -> 0 <= Q ->
  M * K * E <= T * W * (E + 1) ->
  Q * C * E <= M * K * (E + 1) ->
  T * (E + 1) * (E + 1) * (E + 1) * (E + 1) <= C * E * E * E * E ->
  Q * (E + 1) * (E + 1) <= W * E * E.
Proof.
  intros HC HT HW HM HQ H1 H2 H3.
  apply Z.mul_le_mono_pos_r with (C * E * E);
    [repeat (apply Z.mul_pos_pos; [|assumption]); assumption|].
  apply Z.le_trans with (M * K * (E + 1) * (E * (E + 1) * (E + 1))).
  { replace (Q * (E + 1) * (E + 1) * (C * E * E))
      with (Q * C * E * (E * (E + 1) * (E + 1))) by ring.
    apply Z.mul_le_mono_nonneg_r; [|assumption].
    repeat apply Z.mul_nonneg_nonneg; lia. }
  apply Z.le_trans with (T * W * (E + 1) * ((E + 1) * (E + 1) * (E + 1))).
  { replace (M * K * (E + 1) * (E * (E + 1) * (E + 1)))
      with (M * K * E * ((E + 1) * (E + 1) * (E + 1))) by ring.
    apply Z.mul_le_mono_nonneg_r; [|assumption].
    repeat apply Z.mul_nonneg_nonneg; lia. }
  replace (T * W * (E + 1) * ((E + 1) * (E + 1) * (E + 1)))
    with (W * (T * (E + 1) * (E + 1) * (E + 1) * (E + 1))) by ring.
  replace (W * E * E * (C * E * E)) with (W * (C * E * E * E * E)) by ring.
  apply Z.mul_le_mono_nonneg_l; assumption.
Qed.

End Chains.

(** *** Metres to pixels *)

(** A product is at least any float that the exact product reaches. *)
Lemma fmul_at_least (lo1 hi1 lo2 hi2 lo3 hi3 : Z) (a b f : float) :
  normal_in lo1 hi1 a = true -> normal_in lo2 hi2 b = true ->
  normal_in lo3 hi3 f = true ->
  -1074 <= lo1 -> -1074 <= lo2 -> -1074 <= lo3 -> -1074 <= lo1 + lo2 + 52 ->
  hi1 + hi2 + 54 <= 971 ->
  scaled f * 2 ^ 1074 <= scaled a * scaled b ->
  scaled f <= scaled (fmul a b).
Proof.
  intros Ha Hb Hf Hl1 Hl2 Hl3 Hlo Hhi Hle.
  destruct (normal_in_inv _ _ _ Ha) as (ma & ea & -> & Hma & Hea).
  destruct (normal_in_inv _ _ _ Hb) as (mb & eb & -> & Hmb & Heb).
  destruct (normal_in_inv _ _ _ Hf) as (F & g & -> & HF & Hg).
  rewrite !scaled_finite in Hle.
  unfold fmul, SFmul. simpl xorb.
  set (m := Zpos (ma * mb)).
  assert (Hm : m = Zpos ma * Zpos mb) by (unfold m; apply Pos2Z.inj_mul).
  assert (Hmpos : 0 < m) by (unfold m; lia).
  assert (Hmr : 2 ^ 104 <= m < 2 ^ 106).
  { rewrite Hm. change (2 ^ 104) with (2 ^ 52 * 2 ^ 52).
    change (2 ^ 106) with (2 ^ 53 * 2 ^ 53). split.
    - apply Z.mul_le_mono_nonneg; lia.
    - apply Z.mul_lt_mono_nonneg; lia. }
  pose proof (Zdigits2_range m 104 106 Hmpos ltac:(lia) Hmr) as Hd.
  destruct (round_aux_at_least m (ea + eb) loc_Exact (Zpos F) g)
    as (m' & j & -> & Hm' & Hj & Hlex); try lia.
  { intros Hge.
    assert (HY : 0 < 2 ^ (ea + eb + 2148)) by (apply pow2_pos; lia).
    apply Z.mul_le_mono_pos_r with (2 ^ (ea + eb + 2148)); [assumption|].
    assert (E1 : 2 ^ (g + 1074) * 2 ^ 1074 =
                 2 ^ (g - (ea + eb)) * 2 ^ (ea + eb + 2148))
      by (rewrite <- !pow2_split by lia; f_equal; lia).
    assert (E2 : 2 ^ (ea + 1074) * 2 ^ (eb + 1074) = 2 ^ (ea + eb + 2148))
      by (rewrite <- !pow2_split by lia; f_equal; lia).
    replace (Zpos F * 2 ^ (g - (ea + eb)) * 2 ^ (ea + eb + 2148))
      with (Zpos F * (2 ^ (g - (ea + eb)) * 2 ^ (ea + eb + 2148))) by ring.
    rewrite <- E1, <- E2, Hm.
    replace (Zpos F * (2 ^ (g + 1074) * 2 ^ 1074))
      with (Zpos F * 2 ^ (g + 1074) * 2 ^ 1074) by ring.
    replace (Zpos ma * Zpos mb * (2 ^ (ea + 1074) * 2 ^ (eb + 1074)))
      with (Zpos ma * 2 ^ (ea + 1074) * (Zpos mb * 2 ^ (eb + 1074))) by ring.
    exact Hle. }
  apply lex_le_scaled; try assumption; lia.
Qed.

Lemma to_float_scale : to_float scale = Ok (lit 50 1).
Proof. vm_compute. reflexivity. Qed.

Lemma scale_normal : normal_in (-47) (-47) (lit 50 1) = true.
Proof. vm_compute. reflexivity. Qed.

Lemma scale_scaled : scaled (lit 50 1) = 50 * 2 ^ 1074.
Proof. vm_compute. reflexivity. Qed.

Lemma lit_1_scaled : scaled (lit 1 1) = 2 ^ 1074.
Proof. vm_compute. reflexivity. Qed.

Lemma lit_30_scaled : scaled (lit 30 1) = 30 * 2 ^ 1074.
Proof. vm_compute. reflexivity. Qed.

(** The pixel size of a sidebar extent. *)
Lemma pixels_extent (w : float) :
  in_ui_range w ->
  exists iw, pixels w = Ok iw /\ 50 <= iw <= 1500 /\
             iw = scaled (fmul w (lit 50 1)) / 2 ^ 1074.
Proof.
  intros Hw. destruct (in_ui_range_normal w Hw) as (Hwn & Hw1 & Hw30).
  rewrite lit_1_scaled in Hw1. rewrite lit_30_scaled in Hw30.
  destruct (fmul_normal (-52) (-48) (-47) (-47) w (lit 50 1) Hwn scale_normal)
    as [Hp Hpv]; try lia.
  simpl (-52 + -47 + 52) in Hp. simpl (-48 + -47 + 54) in Hp.
  assert (HK : 0 < 2 ^ 1074) by (apply pow2_pos; lia).
  assert (HE : 0 < 2 ^ 52) by (apply pow2_pos; lia).
  assert (Hge : scaled (lit 50 1) <= scaled (fmul w (lit 50 1))).
  { apply (fmul_at_least (-52) (-48) (-47) (-47) (-47) (-47) w (lit 50 1) (lit 50 1));
      try assumption; try exact scale_normal; try lia.
    rewrite Z.mul_comm. apply Z.mul_le_mono_nonneg_r; [|assumption].
    rewrite scale_scaled. lia. }
  unfold pixels. rewrite to_float_scale. cbn [bind].
  rewrite (int_scaled _ _ _ Hp ltac:(lia)).
  eexists. split; [reflexivity|]. split; [|reflexivity].
  rewrite scale_scaled in Hge, Hpv.
  set (K := 2 ^ 1074) in *. set (E := 2 ^ 52) in *.
  set (P := scaled (fmul w (lit 50 1))) in *. set (W := scaled w) in *.
  split.
  - apply Z.div_le_lower_bound; lia.
  - assert (P / K < 1501); [|lia].
    apply Z.div_lt_upper_bound; [assumption|].
    apply Z.mul_lt_mono_pos_r with (K * E); [apply Z.mul_pos_pos; assumption|].
    apply Z.le_lt_trans with (W * (50 * K) * (E + 1)); [lia|].
    apply Z.le_lt_trans with (30 * K * (50 * K) * (E + 1)).
    + apply Z.mul_le_mono_nonneg_r; [lia|].
      apply Z.mul_le_mono_nonneg_r; lia.
    + replace (30 * K * (50 * K) * (E + 1)) with (1500 * (E + 1) * (K * K)) by ring.
      replace (K * 1501 * (K * E)) with (1501 * E * (K * K)) by ring.
      apply Z.mul_lt_mono_pos_r; [apply Z.mul_pos_pos; assumption|].
      unfold E. simpl. lia.
Qed.

(** A coordinate below the extent is drawn inside the pixel size of the
    extent. *)
Lemma pixels_below (x w : float) :
  below x w -> in_ui_range w ->
  exists ix, pixels x = Ok ix /\
             0 <= ix <= scaled (fmul w (lit 50 1)) / 2 ^ 1074.
Proof.
  intros [Hx Hm] Hw. destruct (in_ui_range_normal w Hw) as (Hwn & _ & _).
  destruct (fmul_normal (-60) (-40) (-47) (-47) x (lit 50 1) Hx scale_normal)
    as [Hp Hpv]; try lia.
  destruct (fmul_normal (-52) (-48) (-47) (-47) w (lit 50 1) Hwn scale_normal)
    as [Hq _]; try lia.
  pose proof (fmul_lower (-52) (-48) (-47) (-47) w (lit 50 1) Hwn scale_normal
                ltac:(lia) ltac:(lia) ltac:(lia) ltac:(lia)) as Hqv.
  assert (HK : 0 < 2 ^ 1074) by (apply pow2_pos; lia).
  assert (HE : 0 < 2 ^ 52) by (apply pow2_pos; lia).
  pose proof (scaled_pos _ _ _ Hx ltac:(lia)) as Px.
  pose proof (scaled_pos _ _ _ Hwn ltac:(lia)) as Pw.
  pose proof (scaled_pos _ _ _ Hp ltac:(lia)) as Pp.
  pose proof (scaled_pos _ _ _ Hq ltac:(lia)) as Pq.
  pose proof (scaled_pos _ _ _ scale_normal ltac:(lia)) as Pf.
  unfold pixels. rewrite to_float_scale. cbn [bind].
  rewrite (int_scaled _ _ _ Hp ltac:(lia)).
  eexists. split; [reflexivity|]. split.
  - apply Z.div_pos; lia.
  - apply Z.div_le_mono; [assumption|].
    apply (pixel_chain (2 ^ 1074) (2 ^ 52) HK HE _ (scaled x) (scaled (lit 50 1))
             (scaled w) _); try lia; assumption.
Qed.

(** *** Positions with room for the conversion to pixels *)

Lemma pixel_checks (count index : Z) :
  0 <= index < count -> count <= 50 -> pixel_check count index = true.
Proof.
  intros Hi Hc.
  assert (H : forallb (fun c => forallb (pixel_check c) (range c)) (range 51)
              = true) by (vm_compute; reflexivity).
  rewrite forallb_forall in H. specialize (H count ltac:(apply in_range; lia)).
  rewrite forallb_forall in H. apply H. apply in_range. lia.
Qed.

Lemma coordinate_below (extent : float) (count index : Z) :
  in_ui_range extent -> 0 <= index < count -> count <= 50 ->
  exists v, coordinate extent count index = Ok v /\ below v extent.
Proof.
  intros Hext Hi Hc.
  pose proof (pixel_checks count index Hi Hc) as Hck.
  unfold pixel_check in Hck. unfold coordinate.
  destruct (to_float index) as [fi|]; [|discriminate].
  destruct (to_float count) as [fc|]; [|discriminate].
  apply andb_prop in Hck as [Hck Hle]. apply andb_prop in Hck as [Ha Hfc].
  apply Z.leb_le in Hle.
  cbn [bind]. rewrite truediv_nonzero by (eapply normal_nonzero; eassumption).
  cbn [bind].
  destruct (in_ui_range_normal extent Hext) as (Hw & _ & _).
  set (a := fadd fi (lit 5 10)) in *.
  destruct (fdiv_normal (-52) (-48) (-52) (-47) extent fc Hw Hfc) as [Hq Hqv];
    try lia.
  simpl (-52 - -47 - 53) in Hq. simpl (-48 - -52 - 51) in Hq.
  destruct (fmul_normal (-53) (-47) (-58) (-47) a (fdiv extent fc) Ha Hq)
    as [Hx Hxv]; try lia.
  simpl (-53 + -58 + 52) in Hx. simpl (-47 + -47 + 54) in Hx.
  eexists. split; [reflexivity|]. split.
  - apply (normal_in_weaken _ _ _ _ _ Hx); lia.
  - pose proof (scaled_pos _ _ _ Ha ltac:(lia)).
    pose proof (scaled_pos _ _ _ Hfc ltac:(lia)).
    pose proof (scaled_pos _ _ _ Hq ltac:(lia)).
    pose proof (scaled_pos _ _ _ Hw ltac:(lia)).
    assert (HK : 0 < 2 ^ 1074) by (apply pow2_pos; lia).
    assert (HE : 0 < 2 ^ 52) by (apply pow2_pos; lia).
    apply (div_mul_margin (2 ^ 1074) (2 ^ 52) HK HE _ (scaled (fdiv extent fc))
             (scaled a) (scaled fc) (scaled extent)); try lia; assumption.
Qed.

Lemma fdiv_below (w c : float) :
  in_ui_range w -> normal_in (-51) (-50) c = true ->
  (2 ^ 1074 * (2 ^ 52 + 1) * (2 ^ 52 + 1) * (2 ^ 52 + 1)
   <=? scaled c * 2 ^ 52 * 2 ^ 52 * 2 ^ 52) = true ->
  below (fdiv w c) w.
Proof.
  intros Hw Hc Hck. apply Z.leb_le in Hck.
  destruct (in_ui_range_normal w Hw) as (Hwn & _ & _).
  destruct (fdiv_normal (-52) (-48) (-51) (-50) w c Hwn Hc) as [Hq Hqv]; try lia.
  split; [apply (normal_in_weaken _ _ _ _ _ Hq); lia|].
  pose proof (scaled_pos _ _ _ Hc ltac:(lia)).
  pose proof (scaled_pos _ _ _ Hq ltac:(lia)).
  pose proof (scaled_pos _ _ _ Hwn ltac:(lia)).
  assert (HK : 0 < 2 ^ 1074) by (apply pow2_pos; lia).
  assert (HE : 0 < 2 ^ 52) by (apply pow2_pos; lia).
  apply (div_margin (2 ^ 1074) (2 ^ 52) HE _ (scaled c)); try lia; assumption.
Qed.

Lemma fmul_fdiv_below (w t c : float) :
  in_ui_range w -> normal_in (-51) (-50) t = true -> normal_in (-51) (-50) c = true ->
  (scaled t * (2 ^ 52 + 1) * (2 ^ 52 + 1) * (2 ^ 52 + 1) * (2 ^ 52 + 1)
   <=? scaled c * 2 ^ 52 * 2 ^ 52 * 2 ^ 52 * 2 ^ 52) = true ->
  below (fdiv (fmul t w) c) w.
Proof.
  intros Hw Ht Hc Hck. apply Z.leb_le in Hck.
  destruct (in_ui_range_normal w Hw) as (Hwn & _ & _).
  destruct (fmul_normal (-51) (-50) (-52) (-48) t w Ht Hwn) as [Hm Hmv]; try lia.
  simpl (-51 + -52 + 52) in Hm. simpl (-50 + -48 + 54) in Hm.
  destruct (fdiv_normal (-51) (-44) (-51) (-50) (fmul t w) c Hm Hc) as [Hq Hqv];
    try lia.
  split; [apply (normal_in_weaken _ _ _ _ _ Hq); lia|].
  pose proof (scaled_pos _ _ _ Hc ltac:(lia)).
  pose proof (scaled_pos _ _ _ Ht ltac:(lia)).
  pose proof (scaled_pos _ _ _ Hm ltac:(lia)).
  pose proof (scaled_pos _ _ _ Hq ltac:(lia)).
  pose proof (scaled_pos _ _ _ Hwn ltac:(lia)).
  assert (HK : 0 < 2 ^ 1074) by (apply pow2_pos; lia).
  assert (HE : 0 < 2 ^ 52) by (apply pow2_pos; lia).
  apply (mul_div_margin (2 ^ 1074) (2 ^ 52) HE _ (scaled (fmul t w)) (scaled t)
           (scaled c)); try lia; assumption.
Qed.

Lemma half_below (h : float) : in_ui_range h -> below (lit 5 10) h.
Proof.
  intros Hh. destruct (in_ui_range_normal h Hh) as (Hn & H1 & _).
  split; [vm_compute; reflexivity|].
  assert (HE : 0 < 2 ^ 52) by (apply pow2_pos; lia).
  apply Z.le_trans with (scaled (lit 1 1) * 2 ^ 52 * 2 ^ 52).
  - vm_compute. discriminate.
  - apply Z.mul_le_mono_nonneg_r; [lia|]. apply Z.mul_le_mono_nonneg_r; lia.
Qed.

Lemma class_I_below (width height spacing : float) :
  in_ui_range width -> in_ui_range height ->
  exists l, bolt_positions width height spacing "I" = Ok l /\
            Forall (fun p => below (fst p) width /\ below (snd p) height) l.
Proof.
  intros Hw Hh. unfold bolt_positions.
  change (String.eqb "I" "I") with true. cbv iota.
  rewrite !truediv_nonzero by (vm_compute; reflexivity).
  eexists. split; [reflexivity|].
  pose proof (half_below height Hh) as Hy.
  assert (N2 : normal_in (-51) (-50) (lit 2 1) = true) by (vm_compute; reflexivity).
  assert (N3 : normal_in (-51) (-50) (lit 3 1) = true) by (vm_compute; reflexivity).
  assert (N4 : normal_in (-51) (-50) (lit 4 1) = true) by (vm_compute; reflexivity).
  assert (C2 : (2 ^ 1074 * (2 ^ 52 + 1) * (2 ^ 52 + 1) * (2 ^ 52 + 1)
                <=? scaled (lit 2 1) * 2 ^ 52 * 2 ^ 52 * 2 ^ 52) = true)
    by (vm_compute; reflexivity).
  assert (C4 : (2 ^ 1074 * (2 ^ 52 + 1) * (2 ^ 52 + 1) * (2 ^ 52 + 1)
                <=? scaled (lit 4 1) * 2 ^ 52 * 2 ^ 52 * 2 ^ 52) = true)
    by (vm_compute; reflexivity).
  assert (C3 : (scaled (lit 3 1) * (2 ^ 52 + 1) * (2 ^ 52 + 1) * (2 ^ 52 + 1)
                  * (2 ^ 52 + 1)
                <=? scaled (lit 4 1) * 2 ^ 52 * 2 ^ 52 * 2 ^ 52 * 2 ^ 52) = true)
    by (vm_compute; reflexivity).
  pose proof (fdiv_below width (lit 4 1) Hw N4 C4) as H4.
  pose proof (fdiv_below width (lit 2 1) Hw N2 C2) as H2.
  pose proof (fmul_fdiv_below width (lit 3 1) (lit 4 1) Hw N3 N4 C3) as H3.
  cbn [for_each bind app].
  repeat (apply Forall_cons; [cbn [fst snd]; split; assumption|]).
  apply Forall_nil.
Qed.

Lemma grid_below (width height : float) (rows cols emitted : Z) :
  in_ui_range width -> in_ui_range height ->
  emitted <= rows -> rows <= 50 -> cols <= 50 ->
  exists l, grid width height rows cols emitted = Ok l /\
            Forall (fun p => below (fst p) width /\ below (snd p) height) l.
Proof.
  intros Hw Hh He Hr Hc. unfold grid. apply traverse_total.
  intros cell Hin. apply in_grid_cells in Hin as [Hrow Hcol].
  destruct (coordinate_below width cols (snd cell) Hw Hcol Hc) as (x & Hx & Hxb).
  destruct (coordinate_below height rows (fst cell) Hh ltac:(lia) Hr)
    as (y & Hy & Hyb).
  exists (x, y). unfold cell_position. rewrite Hx, Hy. split; [reflexivity|].
  split; assumption.
Qed.

Lemma bolt_positions_below (rock_class : string) (width height spacing : float) :
  table_spacing spacing = true -> in_ui_range width -> in_ui_range height ->
  exists l, bolt_positions width height spacing rock_class = Ok l /\
            Forall (fun p => below (fst p) width /\ below (snd p) height) l.
Proof.
  intros Hs Hw Hh. destruct (String.eqb_spec rock_class "I") as [->|HI].
  - apply class_I_below; assumption.
  - apply String.eqb_neq in HI. rewrite bolt_positions_grid by assumption.
    assert (Hnz : is_zero spacing = false).
    { apply andb_prop in Hs as [Hn _]. eapply normal_nonzero. exact Hn. }
    rewrite !truediv_nonzero by assumption.
    destruct (int_quotient spacing height Hs Hh) as (rh & Hrh & Hrhb).
    destruct (int_quotient spacing width Hs Hw) as (rw & Hrw & Hrwb).
    cbn [bind]. rewrite Hrh, Hrw.
    destruct (mem rock_class ["II"; "III"]) eqn:Hup.
    + rewrite (mem_upper_not_lower _ Hup). cbn [bind]. rewrite !max_int_max.
      apply grid_below; try assumption; lia.
    + destruct (mem rock_class ["IV"; "V"]); cbn [bind]; rewrite !max_int_max;
        apply grid_below; try assumption; lia.
Qed.

(** The pixels of the heads of positions below the extents. *)
Lemma head_pixels (width height : float) (l : list position) :
  in_ui_range width -> in_ui_range height ->
  Forall (fun p => below (fst p) width /\ below (snd p) height) l ->
  exists centres,
    Forall2 head_pixel l centres /\
    Forall (fun c =>
              padding <= fst c <=
                padding + scaled (fmul width (lit 50 1)) / 2 ^ 1074 /\
              padding <= snd c <=
                padding + scaled (fmul height (lit 50 1)) / 2 ^ 1074) centres.
Proof.
  intros Hw Hh HF. induction HF as [|p l [Hx Hy] HF IH].
  - exists []. split; constructor.
  - destruct IH as (cs & H2 & Hc).
    destruct (pixels_below _ _ Hx Hw) as (ix & Hix & Hixb).
    destruct (pixels_below _ _ Hy Hh) as (iy & Hiy & Hiyb).
    exists ((padding + ix, padding + iy) :: cs). split.
    + constructor; [|assumption]. unfold head_pixel. cbn [fst snd].
      replace (padding + ix - padding) with ix by lia.
      replace (padding + iy - padding) with iy by lia. split; assumption.
    + constructor; [|assumption]. cbn [fst snd]. lia.
Qed.

(** *** The picture of the support tab *)

Lemma line_pixels_normal (length : float) :
  normal_in (-55) (-48) length = true ->
  exists il, line_pixels length = Ok il /\ 0 <= il.
Proof.
  intros Hl. unfold line_pixels. rewrite to_float_scale. cbn [bind].
  destruct (fmul_normal (-55) (-48) (-47) (-47) length (lit 50 1) Hl scale_normal)
    as [Hp _]; try lia.
  simpl (-55 + -47 + 52) in Hp. simpl (-48 + -47 + 54) in Hp.
  assert (N : normal_in (-53) (-53) (lit 75 100) = true) by (vm_compute; reflexivity).
  destruct (fmul_normal (-50) (-41) (-53) (-53) _ (lit 75 100) Hp N)
    as [Hq _]; try lia.
  rewrite (int_scaled _ _ _ Hq ltac:(lia)).
  eexists. split; [reflexivity|].
  apply Z.div_pos; [|apply pow2_pos; lia].
  apply Z.lt_le_incl. apply (scaled_pos _ _ _ Hq). lia.
Qed.

(** Everything the support tab computes for sidebar inputs. *)
Lemma support_tab_image_sidebar
  (rock_class : string) (width height tunnel_length : float) :
  In rock_class rock_classes -> in_ui_range width -> in_ui_range height ->
  exists s q positions centres il iw ih,
    support_recommendation rock_class width = Ok s /\
    support_plan rock_class width tunnel_length = Ok (s, q) /\
    bolt_positions width height (bolt_spacing s) rock_class = Ok positions /\
    pixels width = Ok iw /\ pixels height = Ok ih /\
    50 <= iw <= 1500 /\ 50 <= ih <= 1500 /\
    Forall2 head_pixel positions centres /\
    Forall (fun c => padding <= fst c <= padding + iw /\
                     padding <= snd c <= padding + ih) centres /\
    line_pixels (bolt_length s) = Ok il /\ 0 <= il /\
    support_tab_image rock_class width height tunnel_length =
    Ok (s, q,
        mkImage "RGB" (iw + 2 * padding, ih + 2 * padding) "white"
          (Rectangle [padding; padding; padding + iw; padding + ih] "black" 3
           :: flat_map (bolt_shapes rock_class il) centres)).
Proof.
  intros Hin Hw Hh.
  destruct (table_row_normal rock_class width Hin Hw) as (s & Hs & Hts & Hbl).
  apply tight_table_spacing in Hts.
  destruct (bolt_quantities_ui rock_class width tunnel_length (bolt_length s)
              (bolt_spacing s) Hts Hw) as (r & f & _ & _ & Hq).
  match type of Hq with _ = Ok ?v => set (q := v) in Hq end.
  destruct (bolt_positions_below rock_class width height (bolt_spacing s) Hts Hw Hh)
    as (positions & Hp & Hbelow).
  destruct (pixels_extent width Hw) as (iw & Hiw & Hiwb & Eiw).
  destruct (pixels_extent height Hh) as (ih & Hih & Hihb & Eih).
  destruct (head_pixels width height positions Hw Hh Hbelow) as (centres & HF & Hc).
  rewrite <- Eiw, <- Eih in Hc.
  destruct (line_pixels_normal _ Hbl) as (il & Hil & Hilb).
  assert (Hplan : support_plan rock_class width tunnel_length = Ok (s, q)).
  { unfold support_plan. rewrite Hs. cbn [bind]. rewrite Hq. reflexivity. }
  exists s, q, positions, centres, il, iw, ih.
  repeat (split; [assumption|]).
  unfold support_tab_image. rewrite Hplan. cbn [bind fst].
  rewrite (picture_shapes width height (bolt_spacing s) (bolt_length s) rock_class
             iw ih il positions centres Hiw Hih Hp HF (fun _ => Hil)).
  reflexivity.
Qed.

(** X12: the picture shows the layout.  For every class and sidebar width
    and height the picture is drawn, and its shapes are the profile
    rectangle followed, position by position in layout order, by the head of
    each bolt, an ellipse of radius 5 around the pixel
    (20 + int(50 x), 20 + int(50 y)), and, for every class but I, by a line
    from that pixel straight down, int(50 * 0.75 * bolt_length) pixels long;
    class I gets no line. *)
Theorem picture_shows_layout
  (rock_class : string) (width height tunnel_length : float) :
  In rock_class rock_classes -> in_ui_range width -> in_ui_range height ->
  exists plan positions img centres il,
    support_tab rock_class width height tunnel_length = Ok (plan, positions) /\
    support_tab_image rock_class width height tunnel_length = Ok (plan, img) /\
    Forall2 head_pixel positions centres /\
    line_pixels (bolt_length (fst plan)) = Ok il /\ 0 <= il /\
    img_shapes img =
      Rectangle [padding; padding; fst (img_size img) - padding;
                 snd (img_size img) - padding] "black" 3
      :: flat_map (bolt_shapes rock_class il) centres.
Proof.
  intros Hin Hw Hh.
  destruct (support_tab_image_sidebar rock_class width height tunnel_length Hin Hw Hh)
    as (s & q & positions & centres & il & iw & ih &
        Hs & Hplan & Hp & Hiw & Hih & Hiwb & Hihb & HF & Hc & Hil & Hilb & Himg).
  exists (s, q), positions. eexists. exists centres, il.
  split; [unfold support_tab; rewrite Hplan; cbn [bind fst]; rewrite Hp; reflexivity|].
  split; [exact Himg|]. split; [assumption|]. split; [assumption|].
  split; [assumption|].
  cbn [img_shapes img_size fst snd].
  replace (iw + 2 * padding - padding) with (padding + iw) by lia.
  replace (ih + 2 * padding - padding) with (padding + ih) by lia.
  reflexivity.
Qed.

Lemma picture_shows_layout_witness :
  exists plan positions img centres il,
    support_tab "III" (lit 5 1) (lit 35 10) (lit 100 1) = Ok (plan, positions) /\
    support_tab_image "III" (lit 5 1) (lit 35 10) (lit 100 1) = Ok (plan, img) /\
    Forall2 head_pixel positions centres /\
    line_pixels (bolt_length (fst plan)) = Ok il /\ 0 <= il /\
    img_shapes img =
      Rectangle [padding; padding; fst (img_size img) - padding;
                 snd (img_size img) - padding] "black" 3
      :: flat_map (bolt_shapes "III" il) centres.
Proof.
  apply (picture_shows_layout "III" (lit 5 1) (lit 35 10) (lit 100 1)).
  - unfold rock_classes. simpl. auto 10.
  - repeat split; vm_compute; reflexivity.
  - repeat split; vm_compute; reflexivity.
Defined.

Lemma in_bolt_shapes_ellipse (rock_class : string) (il : Z) (c : Z * Z)
  (xy : list Z) (fill outline : string) :
  In (Ellipse xy fill outline) (bolt_shapes rock_class il c) ->
  xy = [fst c - bolt_radius; snd c - bolt_radius;
        fst c + bolt_radius; snd c + bolt_radius].
Proof.
  unfold bolt_shapes. intros [H|H].
  - inversion H. reflexivity.
  - destruct (String.eqb rock_class "I"); [contradiction|].
    destruct H as [H|[]]. discriminate.
Qed.

(** X13: bolt heads are drawn inside the excavation profile.  For every
    class and sidebar width and height the canvas is the profile of
    int(50 width) x int(50 height) pixels, between 50 and 1500 each way, with
    a margin of 20 pixels on every side; the only rectangle drawn is that
    profile, and every ellipse drawn is a square box of side 10 whose centre
    lies inside the profile rectangle, borders included. *)
Theorem bolt_heads_inside_profile
  (rock_class : string) (width height tunnel_length : float) :
  In rock_class rock_classes -> in_ui_range width -> in_ui_range height ->
  exists plan img iw ih,
    support_tab_image rock_class width height tunnel_length = Ok (plan, img) /\
    pixels width = Ok iw /\ pixels height = Ok ih /\
    50 <= iw <= 1500 /\ 50 <= ih <= 1500 /\
    img_size img = (iw + 2 * padding, ih + 2 * padding) /\
    (forall xy outline w,
        In (Rectangle xy outline w) (img_shapes img) ->
        xy = [padding; padding; padding + iw; padding + ih]) /\
    (forall xy fill outline,
        In (Ellipse xy fill outline) (img_shapes img) ->
        exists px py,
          xy = [px - bolt_radius; py - bolt_radius;
                px + bolt_radius; py + bolt_radius] /\
          padding <= px <= padding + iw /\ padding <= py <= padding + ih).
Proof.
  intros Hin Hw Hh.
  destruct (support_tab_image_sidebar rock_class width height tunnel_length Hin Hw Hh)
    as (s & q & positions & centres & il & iw & ih &
        Hs & Hplan & Hp & Hiw & Hih & Hiwb & Hihb & HF & Hc & Hil & Hilb & Himg).
  exists (s, q). eexists. exists iw, ih.
  split; [exact Himg|]. repeat (split; [assumption|]).
  cbn [img_size img_shapes]. split; [reflexivity|]. split.
  - intros xy outline w [H|H]; [inversion H; reflexivity|].
    exfalso. apply in_flat_map in H as (c & _ & H). unfold bolt_shapes in H.
    destruct H as [H|H]; [discriminate|].
    destruct (String.eqb rock_class "I"); [contradiction|].
    destruct H as [H|[]]. discriminate.
  - intros xy fill outline [H|H]; [discriminate|].
    apply in_flat_map in H as (c & Hcin & H).
    apply in_bolt_shapes_ellipse in H.
    rewrite Forall_forall in Hc. specialize (Hc c Hcin).
    exists (fst c), (snd c). split; [assumption|]. exact Hc.
Qed.

Lemma bolt_heads_inside_profile_witness :
  exists plan img iw ih,
    support_tab_image "V" (lit 5 1) (lit 35 10) (lit 100 1) = Ok (plan, img) /\
    pixels (lit 5 1) = Ok iw /\ pixels (lit 35 10) = Ok ih /\
    50 <= iw <= 1500 /\ 50 <= ih <= 1500 /\
    img_size img = (iw + 2 * padding, ih + 2 * padding) /\
    (forall xy outline w,
        In (Rectangle xy outline w) (img_shapes img) ->
        xy = [padding; padding; padding + iw; padding + ih]) /\
    (forall xy fill outline,
        In (Ellipse xy fill outline) (img_shapes img) ->
        exists px py,
          xy = [px - bolt_radius; py - bolt_radius;
                px + bolt_radius; py + bolt_radius] /\
          padding <= px <= padding + iw /\ padding <= py <= padding + ih).
Proof.
  apply (bolt_heads_inside_profile "V" (lit 5 1) (lit 35 10) (lit 100 1)).
  - unfold rock_classes. simpl. auto 10.
  - repeat split; vm_compute; reflexivity.
  - repeat split; vm_compute; reflexivity.
Defined.

(** ** The whole script *)

Lemma rmr_tab_valid (o1 o2 o3 o4 o5 : string) :
  valid_options o1 o2 o3 o4 o5 ->
  exists t, rmr_tab o1 o2 o3 o4 o5 = Ok t /\
            rmr_value o1 o2 o3 o4 o5 = Ok (tab_rmr_value t) /\
            tab_class t = classify (tab_rmr_value t).
Proof.
  unfold valid_options, rmr_tab, rmr_value. intros (V1 & V2 & V3 & V4 & V5).
  destruct (parameter_cases ucs_options ucs_ratings ucs_values eq_refl eq_refl o1)
    as [(I1 & a1 & v1 & -> & ->)|(N1 & _)]; cbn [bind]; [|contradiction].
  destruct (parameter_cases rqd_options rqd_ratings rqd_values eq_refl eq_refl o2)
    as [(I2 & a2 & v2 & -> & ->)|(N2 & _)]; cbn [bind]; [|contradiction].
  destruct (parameter_cases spacing_options spacing_ratings spacing_values
              eq_refl eq_refl o3)
    as [(I3 & a3 & v3 & -> & ->)|(N3 & _)]; cbn [bind]; [|contradiction].
  destruct (parameter_cases condition_options condition_ratings condition_values
              eq_refl eq_refl o4)
    as [(I4 & a4 & v4 & -> & ->)|(N4 & _)]; cbn [bind]; [|contradiction].
  destruct (parameter_cases water_options water_ratings water_values
              eq_refl eq_refl o5)
    as [(I5 & a5 & v5 & -> & ->)|(N5 & _)]; cbn [bind]; [|contradiction].
  eexists. split; [reflexivity|]. split; reflexivity.
Qed.

Lemma classify_in_rock_classes (score : Z) :
  In (rock_class (classify score)) rock_classes.
Proof.
  destruct (classify_cases score) as [[_ ->]|[[_ ->]|[[_ ->]|[[_ ->]|[_ ->]]]]];
    cbn [rock_class]; unfold rock_classes; simpl; auto 10.
Qed.

(** X14: the script never raises for what the sidebar can deliver.  For
    every selection of five listed options and every sidebar width and
    height, whatever the tunnel length, one run computes the RMR tab, the
    support table and the picture; the table row is the row of the class of
    the total. *)
Theorem script_never_raises
  (o1 o2 o3 o4 o5 : string) (width height tunnel_length : float) :
  valid_options o1 o2 o3 o4 o5 -> in_ui_range width -> in_ui_range height ->
  exists t plan img,
    script o1 o2 o3 o4 o5 width height tunnel_length = Ok (t, (plan, img)) /\
    rmr_value o1 o2 o3 o4 o5 = Ok (tab_rmr_value t) /\
    support_recommendation (rock_class (classify (tab_rmr_value t))) width =
      Ok (fst plan).
Proof.
  intros Hv Hw Hh.
  destruct (rmr_tab_valid _ _ _ _ _ Hv) as (t & Ht & Hval & Hclass).
  pose proof (classify_in_rock_classes (tab_rmr_value t)) as Hin.
  destruct (support_tab_image_sidebar _ width height tunnel_length Hin Hw Hh)
    as (s & q & positions & centres & il & iw & ih &
        Hs & _ & _ & _ & _ & _ & _ & _ & _ & _ & _ & Himg).
  exists t, (s, q). eexists. split; [|split; [assumption|exact Hs]].
  unfold script. rewrite Ht. cbn [bind]. rewrite Hclass, Himg. reflexivity.
Qed.

Lemma script_never_raises_witness :
  exists t plan img,
    script "50-100 MPa (7 points)" "50-75% (13 points)" "200-600 mm (10 points)"
      "Slightly rough, separation < 1 mm, highly weathered (20 points)"
      "Damp (10 points)" (lit 5 1) (lit 35 10) (lit 100 1) = Ok (t, (plan, img)) /\
    rmr_value "50-100 MPa (7 points)" "50-75% (13 points)" "200-600 mm (10 points)"
      "Slightly rough, separation < 1 mm, highly weathered (20 points)"
      "Damp (10 points)" = Ok (tab_rmr_value t) /\
    support_recommendation (rock_class (classify (tab_rmr_value t))) (lit 5 1) =
      Ok (fst plan).
Proof.
  apply (script_never_raises
           "50-100 MPa (7 points)" "50-75% (13 points)" "200-600 mm (10 points)"
           "Slightly rough, separation < 1 mm, highly weathered (20 points)"
           "Damp (10 points)" (lit 5 1) (lit 35 10) (lit 100 1)).
  - unfold valid_options. simpl. tauto.
  - repeat split; vm_compute; reflexivity.
  - repeat split; vm_compute; reflexivity.
Defined.

(** ** Poorer rock, more bolts *)

(** *** [round] is monotone *)

Lemma round_half_even_scale (m d p : Z) :
  0 < d -> 0 < p -> round_half_even (m * p) (d * p) = round_half_even m d.
Proof.
  intros Hd Hp. unfold round_half_even.
  rewrite Z.div_mul_cancel_r by lia.
  rewrite Z.mul_mod_distr_r by lia.
  replace (2 * (m mod d * p)) with (2 * (m mod d) * p) by ring.
  rewrite <- (Zmult_compare_compat_r (2 * (m mod d)) d p) by lia.
  reflexivity.
Qed.

Lemma round_half_even_monotone (a b d : Z) :
  0 < d -> a <= b -> round_half_even a d <= round_half_even b d.
Proof.
  intros Hd Hab.
  pose proof (round_half_even_bounds a d Hd) as Ba.
  pose proof (round_half_even_bounds b d Hd) as Bb.
  assert (Hq : a / d <= b / d) by (apply Z.div_le_mono; lia).
  destruct (Z.eq_dec (a / d) (b / d)) as [E|N]; [|lia].
  assert (Hr : a mod d <= b mod d).
  { pose proof (Z.div_mod a d ltac:(lia)). pose proof (Z.div_mod b d ltac:(lia)).
    rewrite E in *. lia. }
  unfold round_half_even in *. rewrite E in *.
  destruct (Z.compare_spec (2 * (a mod d)) d) as [Ea|La|Ga];
    destruct (Z.compare_spec (2 * (b mod d)) d) as [Eb|Lb|Gb];
    try lia; destruct (Z.even (b / d)); lia.
Qed.

Lemma round_scaled (lo hi : Z) (x : float) :
  normal_in lo hi x = true -> -1074 <= lo ->
  round x = Ok (round_half_even (scaled x) (2 ^ 1074)).
Proof.
  intros H Hlo. destruct (normal_in_inv _ _ _ H) as (m & e & -> & Hm & He).
  rewrite scaled_finite. unfold round, cond_Zopp. f_equal.
  assert (HK : 0 < 2 ^ 1074) by (apply pow2_pos; lia).
  destruct (Z.leb_spec 0 e) as [Hpos|Hneg].
  - rewrite pow2_split by lia. rewrite Z.mul_assoc.
    unfold round_half_even.
    rewrite Z.div_mul by lia. rewrite Z.mod_mul by lia.
    destruct (Z.compare_spec (2 * 0) (2 ^ 1074)); lia.
  - assert (Hs : 2 ^ 1074 = 2 ^ (- e) * 2 ^ (e + 1074))
      by (rewrite <- pow2_split by lia; f_equal; lia).
    rewrite Hs. symmetry. apply round_half_even_scale; apply pow2_pos; lia.
Qed.

Lemma round_monotone (lo hi lo' hi' : Z) (x y : float) :
  normal_in lo hi x = true -> normal_in lo' hi' y = true ->
  -1074 <= lo -> -1074 <= lo' -> scaled x <= scaled y ->
  exists rx ry, round x = Ok rx /\ round y = Ok ry /\ rx <= ry.
Proof.
  intros Hx Hy Hlo Hlo' Hle.
  rewrite (round_scaled _ _ _ Hx Hlo), (round_scaled _ _ _ Hy Hlo').
  do 2 eexists. split; [reflexivity|]. split; [reflexivity|].
  apply round_half_even_monotone; [apply pow2_pos; lia|assumption].
Qed.

(** *** Products and quotients with a margin *)

Ltac nonneg := repeat first [lia | apply Z.mul_nonneg_nonneg].

Lemma marginb_margin (n : nat) (x y : float) : marginb n x y = true -> margin n x y.
Proof. unfold marginb, margin. apply Z.leb_le. Qed.

Lemma margin_0 (x y : float) : margin 0 x y <-> scaled x <= scaled y.
Proof. unfold margin. simpl. lia. Qed.

Lemma margin_weaken (n : nat) (lo hi : Z) (x y : float) :
  normal_in lo hi y = true -> -1074 <= lo ->
  margin (S n) x y -> 0 <= scaled x -> margin n x y.
Proof.
  unfold margin. intros Hy Hlo H Hx.
  pose proof (scaled_pos _ _ _ Hy Hlo) as Py.
  rewrite Nat2Z.inj_succ, !Z.pow_succ_r in H by lia.
  assert (HE : 0 < 2 ^ 52) by (apply pow2_pos; lia).
  set (E := 2 ^ 52) in *. set (n' := Z.of_nat n) in *.
  assert (Hn : 0 <= n') by (unfold n'; lia).
  assert (P1 : 0 < (E + 1) ^ n') by (apply Z.pow_pos_nonneg; lia).
  assert (P2 : 0 < E ^ n') by (apply Z.pow_pos_nonneg; lia).
  apply Z.mul_le_mono_pos_r with E; [assumption|].
  apply Z.le_trans with (scaled x * ((E + 1) * (E + 1) ^ n')); [|lia].
  replace (scaled x * (E + 1) ^ n' * E) with (scaled x * (E * (E + 1) ^ n')) by ring.
  apply Z.mul_le_mono_nonneg_l; [assumption|].
  apply Z.mul_le_mono_nonneg_r; lia.
Qed.

Section Margins.

Variables lo1 hi1 lo2 hi2 : Z.
Hypothesis lo1_ok : -1074 <= lo1.
Hypothesis lo2_ok : -1074 <= lo2.

(** Products keep the order when the second factors differ by two roundings
    more than the margin asked for. *)
Lemma fmul_margin_r (n : nat) (a1 a2 b1 b2 : float) :
  -1074 <= lo1 + lo2 + 52 -> hi1 + hi2 + 54 <= 971 ->
  normal_in lo1 hi1 a1 = true -> normal_in lo1 hi1 a2 = true ->
  normal_in lo2 hi2 b1 = true -> normal_in lo2 hi2 b2 = true ->
  scaled a1 <= scaled a2 -> margin (S (S n)) b1 b2 ->
  margin n (fmul a1 b1) (fmul a2 b2).
Proof.
  intros Hlo Hhi Ha1 Ha2 Hb1 Hb2 Ha Hb. unfold margin in *.
  destruct (fmul_normal lo1 hi1 lo2 hi2 a1 b1 Ha1 Hb1) as [Hp1 Hv1]; try lia.
  destruct (fmul_normal lo1 hi1 lo2 hi2 a2 b2 Ha2 Hb2) as [Hp2 _]; try lia.
  pose proof (fmul_lower lo1 hi1 lo2 hi2 a2 b2 Ha2 Hb2 lo1_ok lo2_ok Hlo Hhi) as Hv2.
  pose proof (scaled_pos _ _ _ Ha1 lo1_ok) as PA1.
  pose proof (scaled_pos _ _ _ Ha2 lo1_ok) as PA2.
  pose proof (scaled_pos _ _ _ Hb1 lo2_ok) as PB1.
  pose proof (scaled_pos _ _ _ Hb2 lo2_ok) as PB2.
  pose proof (scaled_pos _ _ _ Hp1 ltac:(lia)) as PP1.
  pose proof (scaled_pos _ _ _ Hp2 ltac:(lia)) as PP2.
  assert (HK : 0 < 2 ^ 1074) by (apply pow2_pos; lia).
  assert (HE : 0 < 2 ^ 52) by (apply pow2_pos; lia).
  rewrite !Nat2Z.inj_succ, !Z.pow_succ_r in Hb by lia.
  set (K := 2 ^ 1074) in *. set (E := 2 ^ 52) in *. set (n' := Z.of_nat n) in *.
  assert (Hn : 0 <= n') by (unfold n'; lia).
  assert (P1 : 0 < (E + 1) ^ n') by (apply Z.pow_pos_nonneg; lia).
  assert (P2 : 0 < E ^ n') by (apply Z.pow_pos_nonneg; lia).
  set (X := (E + 1) ^ n') in *. set (Y := E ^ n') in *.
  set (A1 := scaled a1) in *. set (A2 := scaled a2) in *.
  set (B1 := scaled b1) in *. set (B2 := scaled b2) in *.
  set (Q1 := scaled (fmul a1 b1)) in *. set (Q2 := scaled (fmul a2 b2)) in *.
  apply Z.mul_le_mono_pos_r with (K * E * (E + 1));
    [apply Z.mul_pos_pos; [apply Z.mul_pos_pos|]; lia|].
  apply Z.le_trans with (A1 * B1 * (E + 1) * (X * (E + 1))).
  { replace (Q1 * X * (K * E * (E + 1))) with (Q1 * K * E * (X * (E + 1))) by ring.
    apply Z.mul_le_mono_nonneg_r; [|assumption].
    apply Z.mul_nonneg_nonneg; lia. }
  apply Z.le_trans with (A1 * (B2 * (E * (E * Y)))).
  { replace (A1 * B1 * (E + 1) * (X * (E + 1)))
      with (A1 * (B1 * ((E + 1) * ((E + 1) * X)))) by ring.
    apply Z.mul_le_mono_nonneg_l; lia. }
  apply Z.le_trans with (A2 * (B2 * (E * (E * Y)))).
  { apply Z.mul_le_mono_nonneg_r; [|assumption].
    nonneg. }
  replace (A2 * (B2 * (E * (E * Y)))) with (A2 * B2 * E * (E * Y)) by ring.
  replace (Q2 * Y * (K * E * (E + 1))) with (Q2 * K * (E + 1) * (E * Y)) by ring.
  apply Z.mul_le_mono_nonneg_r; [|assumption].
  apply Z.mul_nonneg_nonneg; lia.
Qed.

(** The same with the margin on the first factors. *)
Lemma fmul_margin_l (n : nat) (a1 a2 b1 b2 : float) :
  -1074 <= lo1 + lo2 + 52 -> hi1 + hi2 + 54 <= 971 ->
  normal_in lo1 hi1 a1 = true -> normal_in lo1 hi1 a2 = true ->
  normal_in lo2 hi2 b1 = true -> normal_in lo2 hi2 b2 = true ->
  margin (S (S n)) a1 a2 -> scaled b1 <= scaled b2 ->
  margin n (fmul a1 b1) (fmul a2 b2).
Proof.
  intros Hlo Hhi Ha1 Ha2 Hb1 Hb2 Ha Hb. unfold margin in *.
  destruct (fmul_normal lo1 hi1 lo2 hi2 a1 b1 Ha1 Hb1) as [Hp1 Hv1]; try lia.
  destruct (fmul_normal lo1 hi1 lo2 hi2 a2 b2 Ha2 Hb2) as [Hp2 _]; try lia.
  pose proof (fmul_lower lo1 hi1 lo2 hi2 a2 b2 Ha2 Hb2 lo1_ok lo2_ok Hlo Hhi) as Hv2.
  pose proof (scaled_pos _ _ _ Ha1 lo1_ok) as PA1.
  pose proof (scaled_pos _ _ _ Ha2 lo1_ok) as PA2.
  pose proof (scaled_pos _ _ _ Hb1 lo2_ok) as PB1.
  pose proof (scaled_pos _ _ _ Hb2 lo2_ok) as PB2.
  pose proof (scaled_pos _ _ _ Hp1 ltac:(lia)) as PP1.
  pose proof (scaled_pos _ _ _ Hp2 ltac:(lia)) as PP2.
  assert (HK : 0 < 2 ^ 1074) by (apply pow2_pos; lia).
  assert (HE : 0 < 2 ^ 52) by (apply pow2_pos; lia).
  rewrite !Nat2Z.inj_succ, !Z.pow_succ_r in Ha by lia.
  set (K := 2 ^ 1074) in *. set (E := 2 ^ 52) in *. set (n' := Z.of_nat n) in *.
  assert (Hn : 0 <= n') by (unfold n'; lia).
  assert (P1 : 0 < (E + 1) ^ n') by (apply Z.pow_pos_nonneg; lia).
  assert (P2 : 0 < E ^ n') by (apply Z.pow_pos_nonneg; lia).
  set (X := (E + 1) ^ n') in *. set (Y := E ^ n') in *.
  set (A1 := scaled a1) in *. set (A2 := scaled a2) in *.
  set (B1 := scaled b1) in *. set (B2 := scaled b2) in *.
  set (Q1 := scaled (fmul a1 b1)) in *. set (Q2 := scaled (fmul a2 b2)) in *.
  apply Z.mul_le_mono_pos_r with (K * E * (E + 1));
    [apply Z.mul_pos_pos; [apply Z.mul_pos_pos|]; lia|].
  apply Z.le_trans with (A1 * B1 * (E + 1) * (X * (E + 1))).
  { replace (Q1 * X * (K * E * (E + 1))) with (Q1 * K * E * (X * (E + 1))) by ring.
    apply Z.mul_le_mono_nonneg_r; [|assumption].
    apply Z.mul_nonneg_nonneg; lia. }
  apply Z.le_trans with (A2 * (E * (E * Y)) * B1).
  { replace (A1 * B1 * (E + 1) * (X * (E + 1)))
      with (A1 * ((E + 1) * ((E + 1) * X)) * B1) by ring.
    apply Z.mul_le_mono_nonneg_r; lia. }
  apply Z.le_trans with (A2 * (E * (E * Y)) * B2).
  { apply Z.mul_le_mono_nonneg_l; [|assumption].
    nonneg. }
  replace (A2 * (E * (E * Y)) * B2) with (A2 * B2 * E * (E * Y)) by ring.
  replace (Q2 * Y * (K * E * (E + 1))) with (Q2 * K * (E + 1) * (E * Y)) by ring.
  apply Z.mul_le_mono_nonneg_r; [|assumption].
  apply Z.mul_nonneg_nonneg; lia.
Qed.

(** A divisor smaller by two roundings gives a quotient at least as large. *)
Lemma fdiv_divisor_le (a b1 b2 : float) :
  -1074 <= lo1 - hi2 - 53 -> hi1 - lo2 - 51 <= 971 ->
  normal_in lo1 hi1 a = true ->
  normal_in lo2 hi2 b1 = true -> normal_in lo2 hi2 b2 = true ->
  margin 2 b2 b1 ->
  scaled (fdiv a b1) <= scaled (fdiv a b2).
Proof.
  intros Hlo Hhi Ha Hb1 Hb2 Hb. unfold margin in Hb.
  change (Z.of_nat 2) with 2 in Hb.
  replace ((2 ^ 52 + 1) ^ 2) with ((2 ^ 52 + 1) * (2 ^ 52 + 1)) in Hb by ring.
  replace ((2 ^ 52) ^ 2) with (2 ^ 52 * 2 ^ 52) in Hb by ring.
  destruct (fdiv_normal lo1 hi1 lo2 hi2 a b1 Ha Hb1) as [Hq1 Hv1]; try lia.
  destruct (fdiv_normal lo1 hi1 lo2 hi2 a b2 Ha Hb2) as [Hq2 _]; try lia.
  pose proof (fdiv_lower lo1 hi1 lo2 hi2 a b2 Ha Hb2 lo1_ok lo2_ok Hlo Hhi) as Hv2.
  pose proof (scaled_pos _ _ _ Hb1 lo2_ok) as P1.
  pose proof (scaled_pos _ _ _ Hb2 lo2_ok) as P2.
  pose proof (scaled_pos _ _ _ Hq1 ltac:(lia)) as PQ1.
  pose proof (scaled_pos _ _ _ Hq2 ltac:(lia)) as PQ2.
  pose proof (scaled_pos _ _ _ Ha lo1_ok) as PW.
  assert (HK : 0 < 2 ^ 1074) by (apply pow2_pos; lia).
  assert (HE : 0 < 2 ^ 52) by (apply pow2_pos; lia).
  set (Q1 := scaled (fdiv a b1)) in *. set (Q2 := scaled (fdiv a b2)) in *.
  set (C1 := scaled b1) in *. set (C2 := scaled b2) in *.
  set (W := scaled a) in *. set (K := 2 ^ 1074) in *. set (E := 2 ^ 52) in *.
  apply Z.mul_le_mono_pos_r with (C1 * E * E);
    [apply Z.mul_pos_pos; [apply Z.mul_pos_pos|]; assumption|].
  apply Z.le_trans with (W * K * (E + 1) * E).
  { replace (Q1 * (C1 * E * E)) with (Q1 * C1 * E * E) by ring.
    apply Z.mul_le_mono_nonneg_r; lia. }
  apply Z.le_trans with (Q2 * C2 * (E + 1) * (E + 1)).
  { replace (W * K * (E + 1) * E) with (W * K * E * (E + 1)) by ring.
    apply Z.mul_le_mono_nonneg_r; lia. }
  replace (Q2 * C2 * (E + 1) * (E + 1)) with (Q2 * (C2 * ((E + 1) * (E + 1)))) by ring.
  replace (Q2 * (C1 * E * E)) with (Q2 * (C1 * (E * E))) by ring.
  apply Z.mul_le_mono_nonneg_l; lia.
Qed.

End Margins.

(** *** The quantities of one row *)

Lemma margin_le (n : nat) (lo hi : Z) (x y : float) :
  normal_in lo hi y = true -> -1074 <= lo -> 0 <= scaled x ->
  margin n x y -> scaled x <= scaled y.
Proof.
  intros Hy Hlo Hx. induction n as [|n IH]; intros H.
  - apply margin_0. assumption.
  - apply IH. eapply margin_weaken; eassumption.
Qed.

Lemma count_scaled (n : Z) :
  2 <= n <= 50 ->
  exists f, to_float n = Ok f /\ normal_in (-51) (-47) f = true /\
            scaled f = n * 2 ^ 1074.
Proof.
  intros Hn.
  assert (H : forallb
                (fun n => (n <? 2) ||
                          match to_float n with
                          | Ok f => normal_in (-51) (-47) f &&
                                    (scaled f =? n * 2 ^ 1074)
                          | Err _ => false
                          end) (range 51) = true) by (vm_compute; reflexivity).
  rewrite forallb_forall in H. specialize (H n ltac:(apply in_range; lia)).
  cbv beta in H. apply orb_prop in H as [H|H]; [apply Z.ltb_lt in H; lia|].
  destruct (to_float n) as [f|e]; [|discriminate].
  apply andb_prop in H as [H1 H2]. apply Z.eqb_eq in H2. eauto.
Qed.

Lemma bolt_length_normal (w k d : float) :
  in_ui_range w ->
  normal_in (-51) (-50) k = true -> normal_in (-51) (-50) d = true ->
  normal_in (-55) (-48) (max_float k (fdiv w d)) = true.
Proof.
  intros Hw Hk Hd. destruct (in_ui_range_normal w Hw) as (Hwn & _ & _).
  destruct (fdiv_normal (-52) (-48) (-51) (-50) w d Hwn Hd) as [Hq _]; try lia.
  apply max_float_normal; [|exact Hq]. apply (normal_in_weaken _ _ _ _ _ Hk); lia.
Qed.

Lemma bolt_quantities_normal (rock_class : string) (w L bl s : float) :
  tight_spacing s = true -> in_ui_range w -> in_length_range L ->
  normal_in (-55) (-48) bl = true ->
  exists r f,
    round (fdiv w s) = Ok r /\ 0 <= r <= 50 /\
    normal_in (-51) (-47) f = true /\
    scaled f = Z.max (if String.eqb rock_class "I" then 2 else 3) r * 2 ^ 1074 /\
    normal_in (-54) (-50)
      (if String.eqb rock_class "I" then lit 5 10 else fdiv (lit 1 1) s) = true /\
    normal_in (-53) (-43)
      (fmul f (if String.eqb rock_class "I" then lit 5 10 else fdiv (lit 1 1) s))
      = true /\
    normal_in (-53) (-32)
      (fmul (fmul f (if String.eqb rock_class "I" then lit 5 10
                     else fdiv (lit 1 1) s)) L) = true /\
    normal_in (-56) (-26)
      (fmul (fmul (fmul f (if String.eqb rock_class "I" then lit 5 10
                           else fdiv (lit 1 1) s)) L) bl) = true /\
    bolt_quantities rock_class w L bl s =
    Ok (mkQuantities
          (Z.max (if String.eqb rock_class "I" then 2 else 3) r)
          (if String.eqb rock_class "I" then lit 5 10 else fdiv (lit 1 1) s)
          (fmul f (if String.eqb rock_class "I" then lit 5 10 else fdiv (lit 1 1) s))
          (fmul (fmul f (if String.eqb rock_class "I" then lit 5 10
                         else fdiv (lit 1 1) s)) L)
          (fmul (fmul (fmul f (if String.eqb rock_class "I" then lit 5 10
                               else fdiv (lit 1 1) s)) L) bl)).
Proof.
  intros Hts Hw HL Hbl.
  pose proof (in_length_range_normal _ HL) as HLn.
  destruct (round_quotient _ _ Hts Hw) as (r & Hr & Hrb).
  set (k := if String.eqb rock_class "I" then 2 else 3).
  assert (Hk : 2 <= k <= 3) by (unfold k; destruct (String.eqb rock_class "I"); lia).
  destruct (count_scaled (Z.max k r) ltac:(lia)) as (f & Hf & Hfn & Hfs).
  pose proof Hts as Hsp. apply andb_prop in Hsp as [Hsn _].
  assert (Hrpm : normal_in (-54) (-50)
                   (if String.eqb rock_class "I" then lit 5 10
                    else fdiv (lit 1 1) s) = true).
  { destruct (String.eqb rock_class "I"); [vm_compute; reflexivity|].
    assert (N1 : normal_in (-52) (-52) (lit 1 1) = true) by (vm_compute; reflexivity).
    destruct (fdiv_normal (-52) (-52) (-53) (-51) _ _ N1 Hsn) as [Hq _]; try lia.
    exact Hq. }
  set (rpm := if String.eqb rock_class "I" then lit 5 10 else fdiv (lit 1 1) s) in *.
  destruct (fmul_normal (-51) (-47) (-54) (-50) f rpm Hfn Hrpm) as [Hd _]; try lia.
  simpl (-51 + -54 + 52) in Hd. simpl (-47 + -50 + 54) in Hd.
  destruct (fmul_normal (-53) (-43) (-52) (-43) _ L Hd HLn) as [Ht _]; try lia.
  simpl (-53 + -52 + 52) in Ht. simpl (-43 + -43 + 54) in Ht.
  destruct (fmul_normal (-53) (-32) (-55) (-48) _ bl Ht Hbl) as [Htl _]; try lia.
  simpl (-53 + -55 + 52) in Htl. simpl (-32 + -48 + 54) in Htl.
  exists r, f. repeat (split; [assumption|]).
  rewrite bolt_quantities_eq by (eapply normal_nonzero; exact Hsn).
  rewrite Hr. cbn [bind]. fold k. rewrite Hf. cbn [bind]. reflexivity.
Qed.

Lemma fleb_refl_normal (lo hi : Z) (x : float) :
  normal_in lo hi x = true -> -1074 <= lo -> fleb x x = true.
Proof. intros H Hlo. apply (fleb_scaled _ _ _ _ _ _ H H); lia. Qed.

(** The quantities of a row against the quantities of a row with a shorter
    spacing, more rows per meter and longer bolts. *)
Lemma quantities_le (c1 c2 : string) (w L bl1 bl2 s1 s2 : float) :
  in_ui_range w -> in_length_range L ->
  tight_spacing s1 = true -> tight_spacing s2 = true ->
  normal_in (-55) (-48) bl1 = true -> normal_in (-55) (-48) bl2 = true ->
  fleb bl1 bl2 = true ->
  ((if String.eqb c1 "I" then 2 else 3) <=? (if String.eqb c2 "I" then 2 else 3))
  = true ->
  marginb 2 s2 s1 = true ->
  marginb 6 (if String.eqb c1 "I" then lit 5 10 else fdiv (lit 1 1) s1)
            (if String.eqb c2 "I" then lit 5 10 else fdiv (lit 1 1) s2) = true ->
  exists q1 q2,
    bolt_quantities c1 w L bl1 s1 = Ok q1 /\
    bolt_quantities c2 w L bl2 s2 = Ok q2 /\
    bolts_per_row q1 <= bolts_per_row q2 /\
    fleb (rows_per_meter q1) (rows_per_meter q2) = true /\
    fleb (bolt_density q1) (bolt_density q2) = true /\
    fleb (total_bolts q1) (total_bolts q2) = true /\
    fleb (total_bolt_length q1) (total_bolt_length q2) = true.
Proof.
  intros Hw HL Hs1 Hs2 Hb1 Hb2 Hbl Hk Hms Hmr.
  apply Z.leb_le in Hk. apply marginb_margin in Hms, Hmr.
  apply (fleb_scaled _ _ _ _ _ _ Hb1 Hb2) in Hbl; try lia.
  destruct (bolt_quantities_normal c1 w L bl1 s1 Hs1 Hw HL Hb1)
    as (r1 & f1 & Hr1 & Hr1b & Hf1 & Hf1s & Hrpm1 & Hd1 & Ht1 & Htl1 & ->).
  destruct (bolt_quantities_normal c2 w L bl2 s2 Hs2 Hw HL Hb2)
    as (r2 & f2 & Hr2 & Hr2b & Hf2 & Hf2s & Hrpm2 & Hd2 & Ht2 & Htl2 & ->).
  set (k1 := if String.eqb c1 "I" then 2 else 3) in *.
  set (k2 := if String.eqb c2 "I" then 2 else 3) in *.
  set (rpm1 := if String.eqb c1 "I" then lit 5 10 else fdiv (lit 1 1) s1) in *.
  set (rpm2 := if String.eqb c2 "I" then lit 5 10 else fdiv (lit 1 1) s2) in *.
  pose proof (in_length_range_normal _ HL) as HLn.
  destruct (in_ui_range_normal w Hw) as (Hwn & _ & _).
  pose proof Hs1 as Hn1. apply andb_prop in Hn1 as [Hn1 _].
  pose proof Hs2 as Hn2. apply andb_prop in Hn2 as [Hn2 _].
  assert (Hr : r1 <= r2).
  { destruct (fdiv_normal (-52) (-48) (-53) (-51) w s1 Hwn Hn1) as [Hq1 _]; try lia.
    destruct (fdiv_normal (-52) (-48) (-53) (-51) w s2 Hwn Hn2) as [Hq2 _]; try lia.
    pose proof (fdiv_divisor_le (-52) (-48) (-53) (-51) ltac:(lia) ltac:(lia)
                  w s1 s2 ltac:(lia) ltac:(lia) Hwn Hn1 Hn2 Hms) as Hq.
    destruct (round_monotone _ _ _ _ _ _ Hq1 Hq2 ltac:(lia) ltac:(lia) Hq)
      as (rx & ry & Hrx & Hry & Hxy).
    rewrite Hr1 in Hrx. rewrite Hr2 in Hry.
    apply Ok_inj in Hrx. apply Ok_inj in Hry. subst. assumption. }
  assert (Hf : scaled f1 <= scaled f2).
  { rewrite Hf1s, Hf2s. apply Z.mul_le_mono_nonneg_r; [|lia].
    apply Z.lt_le_incl. apply pow2_pos. lia. }
  pose proof (scaled_pos _ _ _ Hrpm1 ltac:(lia)) as Prpm1.
  assert (Md : margin 4 (fmul f1 rpm1) (fmul f2 rpm2)).
  { apply (fmul_margin_r (-51) (-47) (-54) (-50)); try assumption; lia. }
  assert (Mt : margin 2 (fmul (fmul f1 rpm1) L) (fmul (fmul f2 rpm2) L)).
  { apply (fmul_margin_l (-53) (-43) (-52) (-43)); try assumption; lia. }
  assert (Mtl : margin 0 (fmul (fmul (fmul f1 rpm1) L) bl1)
                         (fmul (fmul (fmul f2 rpm2) L) bl2)).
  { apply (fmul_margin_l (-53) (-32) (-55) (-48)); try assumption; lia. }
  do 2 eexists. split; [reflexivity|]. split; [reflexivity|].
  cbn [bolts_per_row rows_per_meter bolt_density total_bolts total_bolt_length].
  split; [lia|].
  split; [apply (fleb_scaled _ _ _ _ _ _ Hrpm1 Hrpm2); try lia;
          apply (margin_le 6 _ _ _ _ Hrpm2); try lia; assumption|].
  split; [apply (fleb_scaled _ _ _ _ _ _ Hd1 Hd2); try lia;
          apply (margin_le 4 _ _ _ _ Hd2); try lia;
          [apply Z.lt_le_incl; apply (scaled_pos _ _ _ Hd1); lia|assumption]|].
  split; [apply (fleb_scaled _ _ _ _ _ _ Ht1 Ht2); try lia;
          apply (margin_le 2 _ _ _ _ Ht2); try lia;
          [apply Z.lt_le_incl; apply (scaled_pos _ _ _ Ht1); lia|assumption]|].
  apply (fleb_scaled _ _ _ _ _ _ Htl1 Htl2); try lia.
  apply margin_0. assumption.
Qed.

Lemma quantities_refl (c : string) (w L bl s : float) :
  in_ui_range w -> in_length_range L ->
  tight_spacing s = true -> normal_in (-55) (-48) bl = true ->
  exists q,
    bolt_quantities c w L bl s = Ok q /\
    bolts_per_row q <= bolts_per_row q /\
    fleb (rows_per_meter q) (rows_per_meter q) = true /\
    fleb (bolt_density q) (bolt_density q) = true /\
    fleb (total_bolts q) (total_bolts q) = true /\
    fleb (total_bolt_length q) (total_bolt_length q) = true.
Proof.
  intros Hw HL Hs Hb.
  destruct (bolt_quantities_normal c w L bl s Hs Hw HL Hb)
    as (r & f & Hr & Hrb & Hf & Hfs & Hrpm & Hd & Ht & Htl & ->).
  eexists. split; [reflexivity|].
  cbn [bolts_per_row rows_per_meter bolt_density total_bolts total_bolt_length].
  split; [lia|].
  repeat split; eapply fleb_refl_normal; try eassumption; lia.
Qed.

Ltac row_refl Hw HL :=
  match goal with
  | |- exists s1 q1 s2 q2,
        bind (bolt_quantities ?c ?w ?L (max_float ?k (fdiv ?w ?d)) ?sp) _ = _ /\
        bind (bolt_quantities ?c ?w ?L (max_float ?k (fdiv ?w ?d)) ?sp) _ = _ /\ _ =>
      let q := fresh "q" in
      let Hq := fresh "Hq" in
      let Hrest := fresh "Hrest" in
      destruct (quantities_refl c w L (max_float k (fdiv w d)) sp Hw HL
                  ltac:(closed_check)
                  (bolt_length_normal w k d Hw ltac:(closed_check)
                     ltac:(closed_check)))
        as (q & Hq & Hrest);
      rewrite Hq; cbn [bind]; do 4 eexists;
      split; [reflexivity|]; split; [reflexivity|]; exact Hrest
  end.

Ltac row_pair Hw HL :=
  match goal with
  | |- exists s1 q1 s2 q2,
        bind (bolt_quantities ?c1 ?w ?L (max_float ?k1 (fdiv ?w ?d1)) ?sp1) _ = _ /\
        bind (bolt_quantities ?c2 ?w ?L (max_float ?k2 (fdiv ?w ?d2)) ?sp2) _ = _ /\ _ =>
      let q1 := fresh "q" in
      let q2 := fresh "q" in
      let Hq1 := fresh "Hq" in
      let Hq2 := fresh "Hq" in
      let Hrest := fresh "Hrest" in
      destruct (quantities_le c1 c2 w L
                  (max_float k1 (fdiv w d1)) (max_float k2 (fdiv w d2)) sp1 sp2 Hw HL
                  ltac:(closed_check) ltac:(closed_check)
                  (bolt_length_normal w k1 d1 Hw ltac:(closed_check)
                     ltac:(closed_check))
                  (bolt_length_normal w k2 d2 Hw ltac:(closed_check)
                     ltac:(closed_check))
                  (bolt_length_le w k1 d1 k2 d2 Hw
                     ltac:(closed_check) ltac:(closed_check) ltac:(closed_check)
                     ltac:(closed_check) ltac:(closed_check) ltac:(closed_check))
                  ltac:(closed_check) ltac:(closed_check) ltac:(closed_check))
        as (q1 & q2 & Hq1 & Hq2 & Hrest);
      rewrite Hq1, Hq2; cbn [bind]; do 4 eexists;
      split; [reflexivity|]; split; [reflexivity|]; exact Hrest
  end.

(** X15: poorer rock never gets fewer bolts.  For a sidebar width and a
    sidebar tunnel length, the plan of a class with a higher number has at
    least as many bolts per row, rows per meter, bolts per meter, bolts in
    total and metres of bolt in total as the plan of a class with a lower
    number, all roundings included. *)
Theorem poorer_class_more_bolts (c1 c2 : string) (width tunnel_length : float) :
  In c1 rock_classes -> In c2 rock_classes ->
  class_number c1 <= class_number c2 ->
  in_ui_range width -> in_length_range tunnel_length ->
  exists s1 q1 s2 q2,
    support_plan c1 width tunnel_length = Ok (s1, q1) /\
    support_plan c2 width tunnel_length = Ok (s2, q2) /\
    bolts_per_row q1 <= bolts_per_row q2 /\
    fleb (rows_per_meter q1) (rows_per_meter q2) = true /\
    fleb (bolt_density q1) (bolt_density q2) = true /\
    fleb (total_bolts q1) (total_bolts q2) = true /\
    fleb (total_bolt_length q1) (total_bolt_length q2) = true.
Proof.
  intros H1 H2 Hle Hw HL. unfold rock_classes in H1, H2. simpl in H1, H2.
  destruct H1 as [<-|[<-|[<-|[<-|[<-|[]]]]]];
    destruct H2 as [<-|[<-|[<-|[<-|[<-|[]]]]]];
    try (exfalso; revert Hle; vm_compute; intros Hle; apply Hle; reflexivity);
    clear Hle;
    unfold support_plan, support_recommendation;
    cbn [String.eqb Ascii.eqb Bool.eqb];
    rewrite !truediv_nonzero by closed_check;
    cbn [bind bolt_length bolt_spacing];
    first [row_refl Hw HL | row_pair Hw HL].
Qed.

Lemma poorer_class_more_bolts_witness :
  exists s1 q1 s2 q2,
    support_plan "II" (lit 5 1) (lit 100 1) = Ok (s1, q1) /\
    support_plan "V" (lit 5 1) (lit 100 1) = Ok (s2, q2) /\
    bolts_per_row q1 <= bolts_per_row q2 /\
    fleb (rows_per_meter q1) (rows_per_meter q2) = true /\
    fleb (bolt_density q1) (bolt_density q2) = true /\
    fleb (total_bolts q1) (total_bolts q2) = true /\
    fleb (total_bolt_length q1) (total_bolt_length q2) = true.
Proof.
  apply (poorer_class_more_bolts "II" "V" (lit 5 1) (lit 100 1)).
  - unfold rock_classes. simpl. auto 10.
  - unfold rock_classes. simpl. auto 10.
  - vm_compute. discriminate.
  - repeat split; vm_compute; reflexivity.
  - repeat split; vm_compute; reflexivity.
Defined.

(** ** Binary64 rounding is rounding to nearest, ties to even *)

Lemma remainder_class_double_even (r d : Z) :
  0 <= r < d -> remainder_class r (2 * d) = if r =? 0 then 0 else 1.
Proof.
  intros H. unfold remainder_class. destruct (Z.eqb_spec r 0); [reflexivity|].
  destruct (Z.compare_spec (2 * r) (2 * d)); lia.
Qed.

Lemma remainder_class_double_odd (r d : Z) :
  0 <= r < d -> remainder_class (d + r) (2 * d) = if r =? 0 then 2 else 3.
Proof.
  intros H. unfold remainder_class.
  destruct (Z.eqb_spec (d + r) 0); [lia|].
  destruct (Z.eqb_spec r 0);
    destruct (Z.compare_spec (2 * (d + r)) (2 * d)); lia.
Qed.

Lemma remainder_class_zero (r d : Z) :
  0 <= r < d -> (remainder_class r d = 0 <-> r = 0).
Proof.
  intros H. unfold remainder_class. destruct (Z.eqb_spec r 0); [tauto|].
  destruct (2 * r ?= d); split; intros; (discriminate || lia).
Qed.

Lemma shr_1_fields (mrs : shr_record) :
  0 <= shr_m mrs ->
  shr_r (shr_1 mrs) = Z.odd (shr_m mrs) /\
  shr_s (shr_1 mrs) = shr_r mrs || shr_s mrs.
Proof.
  destruct mrs as [m r s]. simpl shr_m. intros Hm.
  destruct m as [|p|p]; [split; reflexivity| |lia].
  destruct p as [p|p|]; split; reflexivity.
Qed.

Lemma loc_code_record (m : Z) (r s : bool) :
  loc_code (loc_of_shr_record (Build_shr_record m r s)) =
  (if r then 2 else 0) + (if s then 1 else 0).
Proof. destruct r, s; reflexivity. Qed.

Lemma shr_1_holds (N D : Z) (mrs : shr_record) :
  0 <= N -> 0 < D -> holds_quotient N D mrs -> holds_quotient N (2 * D) (shr_1 mrs).
Proof.
  intros HN HD [Hm Hc].
  assert (Hq : 0 <= N / D) by (apply Z.div_pos; lia).
  pose proof (Z.mod_pos_bound N D HD) as Hr.
  destruct (shr_1_fields mrs ltac:(lia)) as [Hr1 Hs1].
  pose proof (shr_1_m mrs ltac:(lia)) as Hm1.
  split.
  - rewrite Hm1, Hm. rewrite Z.div_div by lia. f_equal. ring.
  - replace (2 * D) with (D * 2) by ring.
    rewrite Z.rem_mul_r by lia. rewrite Zmod_odd.
    replace (D * 2) with (2 * D) by ring.
    destruct mrs as [m r s]. cbn [shr_m shr_r shr_s] in *.
    rewrite loc_code_record in Hc.
    destruct (shr_1 {| shr_m := m; shr_r := r; shr_s := s |}) as [m1 r1 s1].
    cbn [shr_m shr_r shr_s] in *.
    rewrite loc_code_record. subst r1 s1 m.
    pose proof (remainder_class_zero (N mod D) D Hr) as Hz.
    destruct (Z.odd (N / D)).
    + replace (N mod D + D * 1) with (D + N mod D) by ring.
      rewrite remainder_class_double_odd by assumption.
      destruct (Z.eqb_spec (N mod D) 0) as [E|E].
      * apply Hz in E. rewrite E in Hc. destruct r, s; simpl in *; lia.
      * destruct r, s; simpl in *; try reflexivity.
        exfalso. apply E. apply Hz. lia.
    + replace (N mod D + D * 0) with (N mod D) by ring.
      rewrite remainder_class_double_even by assumption.
      destruct (Z.eqb_spec (N mod D) 0) as [E|E].
      * apply Hz in E. rewrite E in Hc. destruct r, s; simpl in *; lia.
      * destruct r, s; simpl in *; try reflexivity.
        exfalso. apply E. apply Hz. lia.
Qed.

Lemma iter_shr_1_holds (N : Z) (p : positive) :
  0 <= N ->
  forall D mrs, 0 < D -> holds_quotient N D mrs ->
    holds_quotient N (D * 2 ^ Zpos p) (iter_pos shr_1 p mrs).
Proof.
  intros HN. induction p as [p IH|p IH|]; intros D mrs HD H; simpl iter_pos.
  - assert (Hp : 0 < 2 ^ Zpos p) by (apply pow2_pos; lia).
    replace (D * 2 ^ Zpos p~1) with (2 * D * 2 ^ Zpos p * 2 ^ Zpos p).
    + apply IH; [nia|]. apply IH; [lia|]. apply shr_1_holds; assumption.
    + replace (Zpos p~1) with (1 + Zpos p + Zpos p) by lia.
      rewrite !Z.pow_add_r by lia. rewrite Z.pow_1_r. ring.
  - assert (Hp : 0 < 2 ^ Zpos p) by (apply pow2_pos; lia).
    replace (D * 2 ^ Zpos p~0) with (D * 2 ^ Zpos p * 2 ^ Zpos p).
    + apply IH; [nia|]. apply IH; assumption.
    + replace (Zpos p~0) with (Zpos p + Zpos p) by lia.
      rewrite !Z.pow_add_r by lia. ring.
  - replace (D * 2 ^ 1) with (2 * D) by (rewrite Z.pow_1_r; ring).
    apply shr_1_holds; assumption.
Qed.

Lemma shr_holds (N D : Z) (mrs : shr_record) (e k : Z) :
  0 <= N -> 0 < D -> 0 <= k -> holds_quotient N D mrs ->
  holds_quotient N (D * 2 ^ k) (fst (shr mrs e k)).
Proof.
  intros HN HD Hk H. destruct k as [|p|p]; simpl shr; simpl fst; try lia.
  - replace (D * 2 ^ 0) with D by (simpl; ring). assumption.
  - apply iter_shr_1_holds; assumption.
Qed.

Lemma shr_record_of_loc_holds (m : Z) (l : location) :
  0 <= m -> holds_quotient (4 * m + loc_code l) 4 (shr_record_of_loc m l).
Proof.
  intros Hm.
  assert (Hc : 0 <= loc_code l < 4) by (destruct l as [|[| |]]; simpl; lia).
  assert (Hq : (4 * m + loc_code l) / 4 = m)
    by (symmetry; apply Z.div_unique with (r := loc_code l); lia).
  assert (Hr : (4 * m + loc_code l) mod 4 = loc_code l)
    by (symmetry; apply Z.mod_unique with (q := m); lia).
  split.
  - rewrite shr_record_of_loc_m. symmetry. exact Hq.
  - rewrite Hr. destruct l as [|[| |]]; reflexivity.
Qed.

Lemma round_nearest_even_holds (N D : Z) (mrs : shr_record) :
  0 < D -> holds_quotient N D mrs ->
  round_nearest_even (shr_m mrs) (loc_of_shr_record mrs) = round_half_even N D.
Proof.
  intros HD [Hm Hc]. pose proof (Z.mod_pos_bound N D HD) as Hr.
  unfold round_half_even. rewrite Hm. unfold remainder_class in Hc.
  destruct (Z.eqb_spec (N mod D) 0) as [E|E].
  - rewrite E. destruct (Z.compare_spec (2 * 0) D); try lia.
    destruct (loc_of_shr_record mrs) as [|[| |]]; simpl in Hc; try lia. reflexivity.
  - destruct (Z.compare_spec (2 * (N mod D)) D);
      destruct (loc_of_shr_record mrs) as [|[| |]]; simpl in Hc; try lia;
      reflexivity.
Qed.

(** The result of [binary_round_aux] on at least 53 bits: the quotient by
    the dropped power of two, rounded to nearest with ties to even. *)
Lemma round_aux_nearest (m e : Z) (l : location) :
  0 < m -> 53 <= Zdigits2 m -> -1074 <= e + (Zdigits2 m - 53) ->
  binary_round_aux prec emax false m e l =
  pack false
    (round_half_even (4 * m + loc_code l) (4 * 2 ^ (Zdigits2 m - 53)))
    (e + (Zdigits2 m - 53)).
Proof.
  intros Hm Hd He.
  pose proof (truncated_mantissa m Hm Hd) as HT.
  set (k := Zdigits2 m - 53) in *.
  set (T := m / 2 ^ k) in *.
  assert (Hk : 0 < 2 ^ k) by (apply pow2_pos; lia).
  unfold binary_round_aux, shr_fexp.
  rewrite fexp_normal by lia.
  replace (Zdigits2 m + e - 53 - e) with k by lia.
  destruct (shr_m_shift (shr_record_of_loc m l) e k) as [Hm' He'];
    [rewrite shr_record_of_loc_m; lia | lia |].
  rewrite shr_record_of_loc_m in Hm'. fold T in Hm'.
  pose proof (shr_holds (4 * m + loc_code l) 4 (shr_record_of_loc m l) e k
                ltac:(destruct l as [|[| |]]; simpl loc_code; lia) ltac:(lia)
                ltac:(lia) (shr_record_of_loc_holds m l ltac:(lia))) as Hh.
  destruct (shr (shr_record_of_loc m l) e k) as [mrs' e'].
  simpl fst in Hm', Hh. simpl snd in He'. subst e'.
  rewrite (round_nearest_even_holds (4 * m + loc_code l) (4 * 2 ^ k) mrs' ltac:(lia) Hh).
  pose proof (round_nearest_even_cases T (loc_of_shr_record mrs')) as HR.
  rewrite <- Hm' in HR. rewrite (round_nearest_even_holds (4 * m + loc_code l) (4 * 2 ^ k) mrs' ltac:(lia) Hh) in HR.
  rewrite Hm' in HR.
  set (R := round_half_even (4 * m + loc_code l) (4 * 2 ^ k)) in *.
  assert (HRpos : 0 < R) by (assert (0 < 2 ^ 52) by (apply Z.pow_pos_nonneg; lia); lia).
  unfold pack.
  destruct (Z.ltb_spec R (2 ^ 53)) as [Hlt|Hge].
  - assert (HdR : Zdigits2 R = 53)
      by (apply Zdigits2_unique; [assumption|]; simpl (53 - 1); lia).
    rewrite HdR, fexp_normal by lia.
    replace (53 + (e + k) - 53 - (e + k)) with 0 by lia.
    simpl shr. simpl shr_m.
    destruct R as [|p|p]; try lia. reflexivity.
  - assert (HR53 : R = 2 ^ 53) by lia.
    assert (HdR : Zdigits2 R = 54) by (rewrite HR53; reflexivity).
    rewrite HdR, fexp_normal by lia.
    replace (54 + (e + k) - 53 - (e + k)) with 1 by lia.
    rewrite HR53. simpl shr. simpl shr_m.
    replace (e + k + 1 <=? emax - prec) with (e + k + 1 <=? 971) by reflexivity.
    reflexivity.
Qed.

(** *** Rounding is monotone *)

Lemma round_half_even_cross (X1 Z1 X2 Z2 : Z) :
  0 < Z1 -> 0 < Z2 -> X1 * Z2 <= X2 * Z1 ->
  round_half_even X1 Z1 <= round_half_even X2 Z2.
Proof.
  intros H1 H2 H.
  rewrite <- (round_half_even_scale X1 Z1 Z2) by assumption.
  rewrite <- (round_half_even_scale X2 Z2 Z1) by assumption.
  replace (Z2 * Z1) with (Z1 * Z2) by ring.
  apply round_half_even_monotone; [apply Z.mul_pos_pos; assumption|assumption].
Qed.

Lemma pack_scaled (R g : Z) :
  2 ^ 52 <= R <= 2 ^ 53 -> -1074 <= g -> g + 1 <= 971 ->
  exists m' c, pack false R g = S754_finite false m' (g + c) /\
               2 ^ 52 <= Zpos m' < 2 ^ 53 /\ 0 <= c <= 1 /\
               scaled (pack false R g) = R * 2 ^ (g + 1074).
Proof.
  intros HR Hg Hhi.
  destruct (pack_normal R g HR Hhi) as (m' & c & Hp & Hm' & Hc & Hv).
  exists m', c. repeat (split; [assumption|]).
  rewrite Hp, scaled_finite, <- Hv.
  replace (g + c + 1074) with (c + (g + 1074)) by lia.
  rewrite pow2_split by lia. ring.
Qed.

(** Rounding to nearest keeps the order of the exact values [X / Y * 2^e]. *)
Lemma nearest_monotone (X1 Y1 k1 e1 X2 Y2 k2 e2 : Z) :
  0 < Y1 -> 0 < Y2 -> 0 <= k1 -> 0 <= k2 ->
  -2148 <= e1 -> -2148 <= e2 -> -1074 <= e1 + k1 -> -1074 <= e2 + k2 ->
  2 ^ (52 + k1) * Y1 <= X1 < 2 ^ (53 + k1) * Y1 ->
  2 ^ (52 + k2) * Y2 <= X2 < 2 ^ (53 + k2) * Y2 ->
  X1 * 2 ^ (e1 + 2148) * Y2 <= X2 * 2 ^ (e2 + 2148) * Y1 ->
  2 ^ 52 <= round_half_even X1 (Y1 * 2 ^ k1) <= 2 ^ 53 /\
  2 ^ 52 <= round_half_even X2 (Y2 * 2 ^ k2) <= 2 ^ 53 /\
  round_half_even X1 (Y1 * 2 ^ k1) * 2 ^ (e1 + k1 + 1074) <=
  round_half_even X2 (Y2 * 2 ^ k2) * 2 ^ (e2 + k2 + 1074).
Proof.
  intros HY1 HY2 Hk1 Hk2 He1 He2 Hg1 Hg2 HB1 HB2 Hle.
  assert (Hp1 : 0 < 2 ^ k1) by (apply pow2_pos; lia).
  assert (Hp2 : 0 < 2 ^ k2) by (apply pow2_pos; lia).
  assert (HZ1 : 0 < Y1 * 2 ^ k1) by (apply Z.mul_pos_pos; assumption).
  assert (HZ2 : 0 < Y2 * 2 ^ k2) by (apply Z.mul_pos_pos; assumption).
  rewrite !pow2_split in HB1, HB2 by lia.
  assert (HT1 : 2 ^ 52 <= X1 / (Y1 * 2 ^ k1) < 2 ^ 53).
  { split.
    - apply Z.div_le_lower_bound; [assumption|].
      replace (Y1 * 2 ^ k1 * 2 ^ 52) with (2 ^ 52 * 2 ^ k1 * Y1) by ring. lia.
    - apply Z.div_lt_upper_bound; [assumption|].
      replace (Y1 * 2 ^ k1 * 2 ^ 53) with (2 ^ 53 * 2 ^ k1 * Y1) by ring. lia. }
  assert (HT2 : 2 ^ 52 <= X2 / (Y2 * 2 ^ k2) < 2 ^ 53).
  { split.
    - apply Z.div_le_lower_bound; [assumption|].
      replace (Y2 * 2 ^ k2 * 2 ^ 52) with (2 ^ 52 * 2 ^ k2 * Y2) by ring. lia.
    - apply Z.div_lt_upper_bound; [assumption|].
      replace (Y2 * 2 ^ k2 * 2 ^ 53) with (2 ^ 53 * 2 ^ k2 * Y2) by ring. lia. }
  pose proof (round_half_even_bounds X1 (Y1 * 2 ^ k1) HZ1) as HR1.
  pose proof (round_half_even_bounds X2 (Y2 * 2 ^ k2) HZ2) as HR2.
  set (R1 := round_half_even X1 (Y1 * 2 ^ k1)) in *.
  set (R2 := round_half_even X2 (Y2 * 2 ^ k2)) in *.
  split; [lia|]. split; [lia|].
  assert (HYY : 0 < Y1 * Y2) by (apply Z.mul_pos_pos; assumption).
  destruct (Z.lt_trichotomy (e1 + k1) (e2 + k2)) as [Hlt|[Heq|Hgt]].
  - apply Z.le_trans with (2 ^ 53 * 2 ^ (e1 + k1 + 1074)).
    { apply Z.mul_le_mono_nonneg_r; [|lia]. apply Z.lt_le_incl, pow2_pos. lia. }
    apply Z.le_trans with (2 ^ 52 * 2 ^ (e2 + k2 + 1074)).
    { rewrite <- !pow2_split by lia. apply Z.pow_le_mono_r; lia. }
    apply Z.mul_le_mono_nonneg_r; [|lia]. apply Z.lt_le_incl, pow2_pos. lia.
  - rewrite Heq. apply Z.mul_le_mono_nonneg_r;
      [apply Z.lt_le_incl, pow2_pos; lia|].
    apply round_half_even_cross; try assumption.
    assert (HG : 0 < 2 ^ (e2 + k2 + 2148)) by (apply pow2_pos; lia).
    apply Z.mul_le_mono_pos_r with (2 ^ (e2 + k2 + 2148)); [assumption|].
    assert (E1 : 2 ^ (e1 + 2148) * 2 ^ k1 = 2 ^ (e2 + k2 + 2148))
      by (rewrite <- pow2_split by lia; f_equal; lia).
    assert (E2 : 2 ^ (e2 + 2148) * 2 ^ k2 = 2 ^ (e2 + k2 + 2148))
      by (rewrite <- pow2_split by lia; f_equal; lia).
    replace (X1 * (Y2 * 2 ^ k2) * 2 ^ (e2 + k2 + 2148))
      with (X1 * 2 ^ (e1 + 2148) * Y2 * (2 ^ k1 * 2 ^ k2))
      by (rewrite <- E1; ring).
    replace (X2 * (Y1 * 2 ^ k1) * 2 ^ (e2 + k2 + 2148))
      with (X2 * 2 ^ (e2 + 2148) * Y1 * (2 ^ k1 * 2 ^ k2))
      by (rewrite <- E2; ring).
    apply Z.mul_le_mono_nonneg_r; [|assumption].
    apply Z.lt_le_incl, Z.mul_pos_pos; assumption.
  - exfalso.
    assert (Hq1 : 0 < 2 ^ (e1 + 2148)) by (apply pow2_pos; lia).
    assert (Hq2 : 0 < 2 ^ (e2 + 2148)) by (apply pow2_pos; lia).
    assert (L1 : 2 ^ (52 + (e1 + k1) + 2148) * (Y1 * Y2)
                 <= X1 * 2 ^ (e1 + 2148) * Y2).
    { assert (S1 : 2 ^ (52 + (e1 + k1) + 2148) = 2 ^ 52 * 2 ^ k1 * 2 ^ (e1 + 2148))
        by (rewrite <- !pow2_split by lia; f_equal; lia).
      rewrite S1.
      replace (2 ^ 52 * 2 ^ k1 * 2 ^ (e1 + 2148) * (Y1 * Y2))
        with (2 ^ 52 * 2 ^ k1 * Y1 * (2 ^ (e1 + 2148) * Y2)) by ring.
      replace (X1 * 2 ^ (e1 + 2148) * Y2) with (X1 * (2 ^ (e1 + 2148) * Y2)) by ring.
      apply Z.mul_le_mono_nonneg_r; [|lia].
      apply Z.lt_le_incl, Z.mul_pos_pos; assumption. }
    assert (L2 : X2 * 2 ^ (e2 + 2148) * Y1
                 < 2 ^ (53 + (e2 + k2) + 2148) * (Y1 * Y2)).
    { assert (S2 : 2 ^ (53 + (e2 + k2) + 2148) = 2 ^ 53 * 2 ^ k2 * 2 ^ (e2 + 2148))
        by (rewrite <- !pow2_split by lia; f_equal; lia).
      rewrite S2.
      replace (2 ^ 53 * 2 ^ k2 * 2 ^ (e2 + 2148) * (Y1 * Y2))
        with (2 ^ 53 * 2 ^ k2 * Y2 * (2 ^ (e2 + 2148) * Y1)) by ring.
      replace (X2 * 2 ^ (e2 + 2148) * Y1) with (X2 * (2 ^ (e2 + 2148) * Y1)) by ring.
      apply Z.mul_lt_mono_pos_r; [|lia]. apply Z.mul_pos_pos; assumption. }
    assert (L3 : 2 ^ (53 + (e2 + k2) + 2148) <= 2 ^ (52 + (e1 + k1) + 2148))
      by (apply Z.pow_le_mono_r; lia).
    assert (2 ^ (53 + (e2 + k2) + 2148) * (Y1 * Y2)
            <= 2 ^ (52 + (e1 + k1) + 2148) * (Y1 * Y2))
      by (apply Z.mul_le_mono_nonneg_r; lia).
    lia.
Qed.

(** *** Products *)

Lemma fmul_nearest (lo1 hi1 lo2 hi2 : Z) (ma mb : positive) (ea eb : Z) :
  2 ^ 52 <= Zpos ma < 2 ^ 53 -> 2 ^ 52 <= Zpos mb < 2 ^ 53 ->
  -1074 <= ea + eb + 52 ->
  exists k,
    52 <= k <= 53 /\
    2 ^ (52 + k) * 1 <= Zpos ma * Zpos mb < 2 ^ (53 + k) * 1 /\
    fmul (S754_finite false ma ea) (S754_finite false mb eb) =
    pack false (round_half_even (Zpos ma * Zpos mb) (1 * 2 ^ k)) (ea + eb + k).
Proof.
  intros Hma Hmb Hlo. unfold fmul, SFmul. simpl xorb.
  set (m := Zpos (ma * mb)).
  assert (Hm : m = Zpos ma * Zpos mb) by (unfold m; apply Pos2Z.inj_mul).
  assert (Hmpos : 0 < m) by (unfold m; lia).
  assert (Hmr : 2 ^ 104 <= m < 2 ^ 106).
  { rewrite Hm. change (2 ^ 104) with (2 ^ 52 * 2 ^ 52).
    change (2 ^ 106) with (2 ^ 53 * 2 ^ 53). split.
    - apply Z.mul_le_mono_nonneg; lia.
    - apply Z.mul_lt_mono_nonneg; lia. }
  pose proof (Zdigits2_range m 104 106 Hmpos ltac:(lia) Hmr) as Hd.
  pose proof (Zdigits2_bounds m Hmpos) as Hb.
  exists (Zdigits2 m - 53). split; [lia|]. split.
  - rewrite !Z.mul_1_r. rewrite <- Hm.
    replace (52 + (Zdigits2 m - 53)) with (Zdigits2 m - 1) by lia.
    replace (53 + (Zdigits2 m - 53)) with (Zdigits2 m) by lia. exact Hb.
  - rewrite round_aux_nearest by lia. cbn [loc_code].
    rewrite Z.add_0_r, Z.mul_1_l, <- Hm.
    replace (4 * m) with (m * 4) by ring.
    replace (4 * 2 ^ (Zdigits2 m - 53)) with (2 ^ (Zdigits2 m - 53) * 4) by ring.
    rewrite round_half_even_scale by (try apply pow2_pos; lia).
    reflexivity.
Qed.

Lemma fmul_monotone_l (lo1 hi1 lo2 hi2 : Z) (a1 a2 b : float) :
  normal_in lo1 hi1 a1 = true -> normal_in lo1 hi1 a2 = true ->
  normal_in lo2 hi2 b = true ->
  -1074 <= lo1 -> -1074 <= lo2 -> -1074 <= lo1 + lo2 + 52 ->
  hi1 + hi2 + 54 <= 971 ->
  scaled a1 <= scaled a2 ->
  scaled (fmul a1 b) <= scaled (fmul a2 b).
Proof.
  intros Ha1 Ha2 Hb Hl1 Hl2 Hlo Hhi Hle.
  destruct (normal_in_inv _ _ _ Ha1) as (m1 & e1 & -> & Hm1 & He1).
  destruct (normal_in_inv _ _ _ Ha2) as (m2 & e2 & -> & Hm2 & He2).
  destruct (normal_in_inv _ _ _ Hb) as (mb & eb & -> & Hmb & Heb).
  rewrite !scaled_finite in Hle.
  destruct (fmul_nearest lo1 hi1 lo2 hi2 m1 mb e1 eb Hm1 Hmb ltac:(lia))
    as (k1 & Hk1 & HB1 & ->).
  destruct (fmul_nearest lo1 hi1 lo2 hi2 m2 mb e2 eb Hm2 Hmb ltac:(lia))
    as (k2 & Hk2 & HB2 & ->).
  destruct (nearest_monotone (Zpos m1 * Zpos mb) 1 k1 (e1 + eb)
              (Zpos m2 * Zpos mb) 1 k2 (e2 + eb))
    as (HR1 & HR2 & Hmono); try lia.
  { rewrite !Z.mul_1_r.
    assert (P1 : 2 ^ (e1 + eb + 2148) = 2 ^ (e1 + 1074) * 2 ^ (eb + 1074))
      by (rewrite <- pow2_split by lia; f_equal; lia).
    assert (P2 : 2 ^ (e2 + eb + 2148) = 2 ^ (e2 + 1074) * 2 ^ (eb + 1074))
      by (rewrite <- pow2_split by lia; f_equal; lia).
    rewrite P1, P2.
    replace (Zpos m1 * Zpos mb * (2 ^ (e1 + 1074) * 2 ^ (eb + 1074)))
      with (Zpos m1 * 2 ^ (e1 + 1074) * (Zpos mb * 2 ^ (eb + 1074))) by ring.
    replace (Zpos m2 * Zpos mb * (2 ^ (e2 + 1074) * 2 ^ (eb + 1074)))
      with (Zpos m2 * 2 ^ (e2 + 1074) * (Zpos mb * 2 ^ (eb + 1074))) by ring.
    apply Z.mul_le_mono_nonneg_r; [|assumption].
    apply Z.mul_nonneg_nonneg; [lia|]. apply Z.lt_le_incl, pow2_pos. lia. }
  destruct (pack_scaled _ (e1 + eb + k1) HR1 ltac:(lia) ltac:(lia))
    as (? & ? & _ & _ & _ & ->).
  destruct (pack_scaled _ (e2 + eb + k2) HR2 ltac:(lia) ltac:(lia))
    as (? & ? & _ & _ & _ & ->).
  exact Hmono.
Qed.

Lemma fmul_comm_normal (lo1 hi1 lo2 hi2 : Z) (a b : float) :
  normal_in lo1 hi1 a = true -> normal_in lo2 hi2 b = true ->
  fmul a b = fmul b a.
Proof.
  intros Ha Hb.
  destruct (normal_in_inv _ _ _ Ha) as (ma & ea & -> & _).
  destruct (normal_in_inv _ _ _ Hb) as (mb & eb & -> & _).
  unfold fmul, SFmul. rewrite Pos.mul_comm, Z.add_comm. reflexivity.
Qed.

Lemma fmul_monotone (lo1 hi1 lo2 hi2 : Z) (a1 a2 b1 b2 : float) :
  normal_in lo1 hi1 a1 = true -> normal_in lo1 hi1 a2 = true ->
  normal_in lo2 hi2 b1 = true -> normal_in lo2 hi2 b2 = true ->
  -1074 <= lo1 -> -1074 <= lo2 -> -1074 <= lo1 + lo2 + 52 ->
  hi1 + hi2 + 54 <= 971 ->
  scaled a1 <= scaled a2 -> scaled b1 <= scaled b2 ->
  scaled (fmul a1 b1) <= scaled (fmul a2 b2).
Proof.
  intros Ha1 Ha2 Hb1 Hb2 Hl1 Hl2 Hlo Hhi Ha Hb.
  apply Z.le_trans with (scaled (fmul a2 b1)).
  - apply (fmul_monotone_l lo1 hi1 lo2 hi2); assumption.
  - rewrite (fmul_comm_normal _ _ _ _ a2 b1 Ha2 Hb1).
    rewrite (fmul_comm_normal _ _ _ _ a2 b2 Ha2 Hb2).
    apply (fmul_monotone_l lo2 hi2 lo1 hi1); try assumption; lia.
Qed.

(** *** Quotients *)

Lemma fdiv_core_exact (ma mb : positive) (ea eb : Z) :
  2 ^ 52 <= Zpos ma < 2 ^ 53 -> 2 ^ 52 <= Zpos mb < 2 ^ 53 ->
  -1074 <= ea - eb - 53 ->
  SFdiv_core_binary prec emax (Zpos ma) ea (Zpos mb) eb =
  (Zpos ma * 2 ^ 53 / Zpos mb, ea - eb - 53,
   new_location (Zpos mb) ((Zpos ma * 2 ^ 53) mod Zpos mb)).
Proof.
  intros Hma Hmb He. unfold SFdiv_core_binary.
  change (Zdigits2 (Zpos ma)) with (Zpos (digits2_pos ma)).
  change (Zdigits2 (Zpos mb)) with (Zpos (digits2_pos mb)).
  rewrite (digits2_pos_unique ma 53), (digits2_pos_unique mb 53)
    by (simpl (53 - 1); lia).
  replace (53 + ea - (53 + eb)) with (ea - eb) by lia.
  rewrite fexp_normal by lia.
  rewrite Z.min_l by lia.
  replace (ea - eb - (ea - eb - 53)) with 53 by lia.
  cbv beta iota zeta.
  rewrite Z.shiftl_mul_pow2 by lia.
  unfold Z.div, Z.modulo.
  destruct (Z.div_eucl (Zpos ma * 2 ^ 53) (Zpos mb)) as [q r].
  reflexivity.
Qed.

Lemma new_location_class (d r : Z) :
  0 <= r < d -> loc_code (new_location d r) = remainder_class r d.
Proof.
  intros Hr. unfold new_location, remainder_class.
  destruct (Z.even d) eqn:Hev.
  - unfold new_location_even. destruct (Z.eqb_spec r 0); [reflexivity|].
    destruct (2 * r ?= d); reflexivity.
  - unfold new_location_odd. destruct (Z.eqb_spec r 0); [reflexivity|].
    assert (Hodd : Z.odd d = true) by (rewrite <- Z.negb_even, Hev; reflexivity).
    apply Z.odd_spec in Hodd. destruct Hodd as [j Hj].
    destruct (Z.compare_spec (2 * r + 1) d);
      destruct (Z.compare_spec (2 * r) d); simpl; lia.
Qed.

(** The quotient and the position of its remainder round like the exact
    fraction. *)
Lemma round_half_even_class (X Y k : Z) :
  0 <= X -> 0 < Y -> 0 <= k ->
  round_half_even (4 * (X / Y) + remainder_class (X mod Y) Y) (4 * 2 ^ k) =
  round_half_even X (Y * 2 ^ k).
Proof.
  intros HX HY Hk.
  assert (HP : 0 < 2 ^ k) by (apply pow2_pos; lia).
  set (P := 2 ^ k) in *.
  pose proof (Z.div_mod X Y ltac:(lia)) as HXY.
  pose proof (Z.mod_pos_bound X Y HY) as Hr.
  assert (Hq : 0 <= X / Y) by (apply Z.div_pos; lia).
  set (q := X / Y) in *. set (r := X mod Y) in *.
  pose proof (Z.div_mod q P ltac:(lia)) as HqP.
  pose proof (Z.mod_pos_bound q P HP) as Hqm.
  assert (HqT : 0 <= q / P) by (apply Z.div_pos; lia).
  set (qT := q / P) in *. set (qm := q mod P) in *.
  assert (Hc : 0 <= remainder_class r Y <= 3).
  { unfold remainder_class. destruct (r =? 0); [lia|].
    destruct (2 * r ?= Y); lia. }
  set (c := remainder_class r Y) in *.
  assert (HYqm : 0 <= Y * qm <= Y * (P - 1))
    by (split; [apply Z.mul_nonneg_nonneg; lia|apply Z.mul_le_mono_nonneg_l; lia]).
  assert (D1 : (4 * q + c) / (4 * P) = qT)
    by (symmetry; apply Z.div_unique with (r := 4 * qm + c); lia).
  assert (M1 : (4 * q + c) mod (4 * P) = 4 * qm + c)
    by (symmetry; apply Z.mod_unique with (q := qT); lia).
  assert (D2 : X / (Y * P) = qT).
  { symmetry. apply Z.div_unique with (r := Y * qm + r); [nia|].
    rewrite HXY, HqP. ring. }
  assert (M2 : X mod (Y * P) = Y * qm + r).
  { symmetry. apply Z.mod_unique with (q := qT); [nia|].
    rewrite HXY, HqP. ring. }
  unfold round_half_even. rewrite D1, M1, D2, M2.
  assert (Hcmp : (2 * (4 * qm + c) ?= 4 * P) = (2 * (Y * qm + r) ?= Y * P)).
  { set (h := P - 2 * qm).
    assert (E2 : Y * P - 2 * (Y * qm) = Y * h) by (unfold h; ring).
    assert (Hz : c = 0 <-> r = 0) by (apply remainder_class_zero; assumption).
    destruct (Z_le_gt_dec h 0) as [Hh|Hh].
    - assert (Y * h <= 0) by (apply Z.mul_nonneg_nonpos; lia).
      destruct (Z.eq_dec r 0) as [Er|Er].
      + assert (c = 0) by tauto.
        destruct (Z.eq_dec h 0) as [Eh|Eh].
        * assert (Y * h = 0) by (rewrite Eh; ring).
          destruct (Z.compare_spec (2 * (4 * qm + c)) (4 * P));
            destruct (Z.compare_spec (2 * (Y * qm + r)) (Y * P));
            first [reflexivity | exfalso; unfold h in *; lia].
        * assert (Y * h < 0) by (apply Z.mul_pos_neg; lia).
          destruct (Z.compare_spec (2 * (4 * qm + c)) (4 * P));
            destruct (Z.compare_spec (2 * (Y * qm + r)) (Y * P));
            first [reflexivity | exfalso; unfold h in *; lia].
      + assert (c <> 0) by tauto.
        destruct (Z.compare_spec (2 * (4 * qm + c)) (4 * P));
          destruct (Z.compare_spec (2 * (Y * qm + r)) (Y * P));
          first [reflexivity | exfalso; unfold h in *; lia].
    - destruct (Z.eq_dec h 1) as [Eh|Eh].
      + assert (Y * h = Y) by (rewrite Eh; ring).
        unfold c, remainder_class in *.
        destruct (Z.eqb_spec r 0).
        * destruct (Z.compare_spec (2 * (4 * qm + 0)) (4 * P));
            destruct (Z.compare_spec (2 * (Y * qm + r)) (Y * P));
            first [reflexivity | exfalso; unfold h in *; lia].
        * destruct (Z.compare_spec (2 * r) Y);
            match goal with
            | |- (2 * (4 * qm + ?c0) ?= _) = _ =>
                destruct (Z.compare_spec (2 * (4 * qm + c0)) (4 * P))
            end;
            destruct (Z.compare_spec (2 * (Y * qm + r)) (Y * P));
            first [reflexivity | exfalso; unfold h in *; lia].
      + assert (Y * 2 <= Y * h) by (apply Z.mul_le_mono_nonneg_l; lia).
        destruct (Z.compare_spec (2 * (4 * qm + c)) (4 * P));
          destruct (Z.compare_spec (2 * (Y * qm + r)) (Y * P));
          first [reflexivity | exfalso; unfold h in *; lia]. }
  rewrite Hcmp. reflexivity.
Qed.

Lemma fdiv_nearest (ma mb : positive) (ea eb : Z) :
  2 ^ 52 <= Zpos ma < 2 ^ 53 -> 2 ^ 52 <= Zpos mb < 2 ^ 53 ->
  -1074 <= ea - eb - 53 ->
  exists k,
    0 <= k <= 1 /\
    2 ^ (52 + k) * Zpos mb <= Zpos ma * 2 ^ 53 < 2 ^ (53 + k) * Zpos mb /\
    fdiv (S754_finite false ma ea) (S754_finite false mb eb) =
    pack false (round_half_even (Zpos ma * 2 ^ 53) (Zpos mb * 2 ^ k))
      (ea - eb - 53 + k).
Proof.
  intros Hma Hmb He. unfold fdiv, SFdiv. simpl xorb.
  rewrite (fdiv_core_exact ma mb ea eb Hma Hmb He).
  set (X := Zpos ma * 2 ^ 53).
  set (q := X / Zpos mb).
  assert (HX : 0 <= X) by (unfold X; lia).
  assert (Hqm : q * Zpos mb <= X < (q + 1) * Zpos mb).
  { pose proof (Z.div_mod X (Zpos mb) ltac:(lia)).
    pose proof (Z.mod_pos_bound X (Zpos mb) ltac:(lia)). unfold q. lia. }
  assert (Hqr : 2 ^ 52 <= q < 2 ^ 54).
  { unfold q, X. split.
    - apply Z.div_le_lower_bound; [lia|].
      apply Z.le_trans with (2 ^ 53 * 2 ^ 52); [|].
      + apply Z.mul_le_mono_nonneg_r; lia.
      + rewrite Z.mul_comm. apply Z.mul_le_mono_nonneg_r; lia.
    - apply Z.div_lt_upper_bound; [lia|].
      apply Z.lt_le_trans with (2 ^ 53 * 2 ^ 53).
      + apply Z.mul_lt_mono_pos_r; lia.
      + change (2 ^ 53 * 2 ^ 53) with (2 ^ 52 * 2 ^ 54).
        apply Z.mul_le_mono_nonneg_r; lia. }
  assert (Hqpos : 0 < q) by lia.
  pose proof (Zdigits2_range q 52 54 Hqpos ltac:(lia) Hqr) as Hd.
  pose proof (Zdigits2_bounds q Hqpos) as Hb.
  exists (Zdigits2 q - 53). split; [lia|]. split.
  - replace (52 + (Zdigits2 q - 53)) with (Zdigits2 q - 1) by lia.
    replace (53 + (Zdigits2 q - 53)) with (Zdigits2 q) by lia.
    split.
    + apply Z.le_trans with (q * Zpos mb); [|lia].
      apply Z.mul_le_mono_nonneg_r; lia.
    + apply Z.lt_le_trans with ((q + 1) * Zpos mb); [lia|].
      apply Z.mul_le_mono_nonneg_r; lia.
  - rewrite round_aux_nearest by lia.
    rewrite new_location_class by (apply Z.mod_pos_bound; lia).
    pose proof (round_half_even_class X (Zpos mb) (Zdigits2 q - 53) HX
                  ltac:(lia) ltac:(lia)) as Hrc.
    fold q in Hrc. rewrite Hrc. reflexivity.
Qed.

(** A larger dividend never gives a smaller quotient. *)
Lemma fdiv_monotone (lo1 hi1 lo2 hi2 : Z) (a1 a2 b : float) :
  normal_in lo1 hi1 a1 = true -> normal_in lo1 hi1 a2 = true ->
  normal_in lo2 hi2 b = true ->
  -1074 <= lo1 -> -1074 <= lo2 -> -1074 <= lo1 - hi2 - 53 ->
  hi1 - lo2 - 51 <= 971 -> hi2 <= 971 ->
  scaled a1 <= scaled a2 ->
  scaled (fdiv a1 b) <= scaled (fdiv a2 b).
Proof.
  intros Ha1 Ha2 Hb Hl1 Hl2 Hlo Hhi Hhi2 Hle.
  destruct (normal_in_inv _ _ _ Ha1) as (m1 & e1 & -> & Hm1 & He1).
  destruct (normal_in_inv _ _ _ Ha2) as (m2 & e2 & -> & Hm2 & He2).
  destruct (normal_in_inv _ _ _ Hb) as (mb & eb & -> & Hmb & Heb).
  rewrite !scaled_finite in Hle.
  destruct (fdiv_nearest m1 mb e1 eb Hm1 Hmb ltac:(lia)) as (k1 & Hk1 & HB1 & ->).
  destruct (fdiv_nearest m2 mb e2 eb Hm2 Hmb ltac:(lia)) as (k2 & Hk2 & HB2 & ->).
  destruct (nearest_monotone (Zpos m1 * 2 ^ 53) (Zpos mb) k1 (e1 - eb - 53)
              (Zpos m2 * 2 ^ 53) (Zpos mb) k2 (e2 - eb - 53))
    as (HR1 & HR2 & Hmono); try lia.
  { assert (Q : 0 < 2 ^ (1074 - eb - 53)) by (apply pow2_pos; lia).
    assert (P1 : 2 ^ (e1 - eb - 53 + 2148) = 2 ^ (e1 + 1074) * 2 ^ (1074 - eb - 53))
      by (rewrite <- pow2_split by lia; f_equal; lia).
    assert (P2 : 2 ^ (e2 - eb - 53 + 2148) = 2 ^ (e2 + 1074) * 2 ^ (1074 - eb - 53))
      by (rewrite <- pow2_split by lia; f_equal; lia).
    rewrite P1, P2.
    replace (Zpos m1 * 2 ^ 53 * (2 ^ (e1 + 1074) * 2 ^ (1074 - eb - 53)) * Zpos mb)
      with (Zpos m1 * 2 ^ (e1 + 1074) * (2 ^ 53 * 2 ^ (1074 - eb - 53) * Zpos mb))
      by ring.
    replace (Zpos m2 * 2 ^ 53 * (2 ^ (e2 + 1074) * 2 ^ (1074 - eb - 53)) * Zpos mb)
      with (Zpos m2 * 2 ^ (e2 + 1074) * (2 ^ 53 * 2 ^ (1074 - eb - 53) * Zpos mb))
      by ring.
    apply Z.mul_le_mono_nonneg_r; [|assumption].
    apply Z.mul_nonneg_nonneg; [|lia]. apply Z.mul_nonneg_nonneg; lia. }
  destruct (pack_scaled _ (e1 - eb - 53 + k1) HR1 ltac:(lia) ltac:(lia))
    as (? & ? & _ & _ & _ & ->).
  destruct (pack_scaled _ (e2 - eb - 53 + k2) HR2 ltac:(lia) ltac:(lia))
    as (? & ? & _ & _ & _ & ->).
  exact Hmono.
Qed.

(** ** A larger excavation never gets less support *)

Lemma fleb_ui (w1 w2 : float) :
  in_ui_range w1 -> in_ui_range w2 -> fleb w1 w2 = true ->
  scaled w1 <= scaled w2.
Proof.
  intros H1 H2 H.
  destruct (in_ui_range_normal w1 H1) as (N1 & _).
  destruct (in_ui_range_normal w2 H2) as (N2 & _).
  apply (fleb_scaled _ _ _ _ _ _ N1 N2); try lia. assumption.
Qed.

Lemma bolt_length_monotone (w1 w2 k d : float) :
  in_ui_range w1 -> in_ui_range w2 -> scaled w1 <= scaled w2 ->
  normal_in (-51) (-50) k = true -> normal_in (-51) (-50) d = true ->
  fleb (max_float k (fdiv w1 d)) (max_float k (fdiv w2 d)) = true.
Proof.
  intros H1 H2 Hle Hk Hd.
  destruct (in_ui_range_normal w1 H1) as (N1 & _).
  destruct (in_ui_range_normal w2 H2) as (N2 & _).
  destruct (fdiv_normal (-52) (-48) (-51) (-50) w1 d N1 Hd) as [Hq1 _]; try lia.
  destruct (fdiv_normal (-52) (-48) (-51) (-50) w2 d N2 Hd) as [Hq2 _]; try lia.
  pose proof (fdiv_monotone (-52) (-48) (-51) (-50) w1 w2 d N1 N2 Hd
                ltac:(lia) ltac:(lia) ltac:(lia) ltac:(lia) ltac:(lia) Hle) as Hq.
  pose proof (normal_in_weaken _ _ (-55) (-48) _ Hk ltac:(lia) ltac:(lia)) as Hk'.
  apply (fleb_scaled (-55) (-48) (-55) (-48));
    try (apply max_float_normal; assumption); try lia.
  rewrite (max_float_scaled _ _ _ _ _ _ Hk' Hq1) by lia.
  rewrite (max_float_scaled _ _ _ _ _ _ Hk' Hq2) by lia.
  lia.
Qed.

Lemma quantities_monotone (c : string) (w1 w2 L1 L2 bl1 bl2 s : float) :
  in_ui_range w1 -> in_ui_range w2 -> scaled w1 <= scaled w2 ->
  in_length_range L1 -> in_length_range L2 -> fleb L1 L2 = true ->
  tight_spacing s = true ->
  normal_in (-55) (-48) bl1 = true -> normal_in (-55) (-48) bl2 = true ->
  fleb bl1 bl2 = true ->
  exists q1 q2,
    bolt_quantities c w1 L1 bl1 s = Ok q1 /\
    bolt_quantities c w2 L2 bl2 s = Ok q2 /\
    bolts_per_row q1 <= bolts_per_row q2 /\
    rows_per_meter q1 = rows_per_meter q2 /\
    fleb (bolt_density q1) (bolt_density q2) = true /\
    fleb (total_bolts q1) (total_bolts q2) = true /\
    fleb (total_bolt_length q1) (total_bolt_length q2) = true.
Proof.
  intros Hw1 Hw2 Hw HL1 HL2 HL Hs Hb1 Hb2 Hbl.
  apply (fleb_scaled _ _ _ _ _ _ Hb1 Hb2) in Hbl; try lia.
  pose proof (in_length_range_normal _ HL1) as HL1n.
  pose proof (in_length_range_normal _ HL2) as HL2n.
  apply (fleb_scaled _ _ _ _ _ _ HL1n HL2n) in HL; try lia.
  destruct (bolt_quantities_normal c w1 L1 bl1 s Hs Hw1 HL1 Hb1)
    as (r1 & f1 & Hr1 & Hr1b & Hf1 & Hf1s & Hrpm & Hd1 & Ht1 & Htl1 & ->).
  destruct (bolt_quantities_normal c w2 L2 bl2 s Hs Hw2 HL2 Hb2)
    as (r2 & f2 & Hr2 & Hr2b & Hf2 & Hf2s & _ & Hd2 & Ht2 & Htl2 & ->).
  set (k := if String.eqb c "I" then 2 else 3) in *.
  set (rpm := if String.eqb c "I" then lit 5 10 else fdiv (lit 1 1) s) in *.
  destruct (in_ui_range_normal w1 Hw1) as (Hw1n & _).
  destruct (in_ui_range_normal w2 Hw2) as (Hw2n & _).
  pose proof Hs as Hn. apply andb_prop in Hn as [Hn _].
  assert (Hr : r1 <= r2).
  { destruct (fdiv_normal (-52) (-48) (-53) (-51) w1 s Hw1n Hn) as [Hq1 _]; try lia.
    destruct (fdiv_normal (-52) (-48) (-53) (-51) w2 s Hw2n Hn) as [Hq2 _]; try lia.
    pose proof (fdiv_monotone (-52) (-48) (-53) (-51) w1 w2 s Hw1n Hw2n Hn
                  ltac:(lia) ltac:(lia) ltac:(lia) ltac:(lia) ltac:(lia) Hw) as Hq.
    destruct (round_monotone _ _ _ _ _ _ Hq1 Hq2 ltac:(lia) ltac:(lia) Hq)
      as (rx & ry & Hrx & Hry & Hxy).
    rewrite Hr1 in Hrx. rewrite Hr2 in Hry.
    apply Ok_inj in Hrx. apply Ok_inj in Hry. subst. assumption. }
  assert (Hf : scaled f1 <= scaled f2).
  { rewrite Hf1s, Hf2s. apply Z.mul_le_mono_nonneg_r; [|lia].
    apply Z.lt_le_incl. apply pow2_pos. lia. }
  assert (Md : scaled (fmul f1 rpm) <= scaled (fmul f2 rpm)).
  { apply (fmul_monotone_l (-51) (-47) (-54) (-50)); try assumption; lia. }
  assert (Mt : scaled (fmul (fmul f1 rpm) L1) <= scaled (fmul (fmul f2 rpm) L2)).
  { apply (fmul_monotone (-53) (-43) (-52) (-43)); try assumption; lia. }
  assert (Mtl : scaled (fmul (fmul (fmul f1 rpm) L1) bl1)
                <= scaled (fmul (fmul (fmul f2 rpm) L2) bl2)).
  { apply (fmul_monotone (-53) (-32) (-55) (-48)); try assumption; lia. }
  do 2 eexists. split; [reflexivity|]. split; [reflexivity|].
  cbn [bolts_per_row rows_per_meter bolt_density total_bolts total_bolt_length].
  split; [lia|]. split; [reflexivity|].
  split; [apply (fleb_scaled _ _ _ _ _ _ Hd1 Hd2); lia|].
  split; [apply (fleb_scaled _ _ _ _ _ _ Ht1 Ht2); lia|].
  apply (fleb_scaled _ _ _ _ _ _ Htl1 Htl2); lia.
Qed.

Ltac row_monotone Hw1 Hw2 Hw HL1 HL2 HL :=
  match goal with
  | |- exists s1 q1 s2 q2,
        bind (bolt_quantities ?c ?w1 ?L1 (max_float ?k (fdiv ?w1 ?d)) ?sp) _ = _ /\
        bind (bolt_quantities ?c ?w2 ?L2 (max_float ?k (fdiv ?w2 ?d)) ?sp) _ = _ /\ _ =>
      let q1 := fresh "q" in
      let q2 := fresh "q" in
      let Hq1 := fresh "Hq" in
      let Hq2 := fresh "Hq" in
      let Hrest := fresh "Hrest" in
      let Hbl := fresh "Hbl" in
      pose proof (bolt_length_monotone w1 w2 k d Hw1 Hw2 Hw
                    ltac:(closed_check) ltac:(closed_check)) as Hbl;
      destruct (quantities_monotone c w1 w2 L1 L2
                  (max_float k (fdiv w1 d)) (max_float k (fdiv w2 d)) sp
                  Hw1 Hw2 Hw HL1 HL2 HL ltac:(closed_check)
                  (bolt_length_normal w1 k d Hw1 ltac:(closed_check)
                     ltac:(closed_check))
                  (bolt_length_normal w2 k d Hw2 ltac:(closed_check)
                     ltac:(closed_check))
                  Hbl)
        as (q1 & q2 & Hq1 & Hq2 & Hrest);
      rewrite Hq1, Hq2; cbn [bind]; do 4 eexists;
      split; [reflexivity|]; split; [reflexivity|];
      cbn [fst snd bolt_length bolt_spacing];
      split; [exact Hbl|]; split; [reflexivity|]; exact Hrest
  end.

(** X16: a larger excavation never gets less support.  Within a class, for
    sidebar widths w1 <= w2 and sidebar tunnel lengths L1 <= L2, the plan for
    (w2, L2) has bolts at least as long, the same spacing and rows per meter,
    and at least as many bolts per row, bolts per meter, bolts in total and
    metres of bolt in total as the plan for (w1, L1): every float operation
    involved rounds to nearest, which keeps the order. *)
Theorem larger_excavation_more_support
  (rock_class : string) (w1 w2 L1 L2 : float) :
  In rock_class rock_classes ->
  in_ui_range w1 -> in_ui_range w2 -> fleb w1 w2 = true ->
  in_length_range L1 -> in_length_range L2 -> fleb L1 L2 = true ->
  exists s1 q1 s2 q2,
    support_plan rock_class w1 L1 = Ok (s1, q1) /\
    support_plan rock_class w2 L2 = Ok (s2, q2) /\
    fleb (bolt_length s1) (bolt_length s2) = true /\
    bolt_spacing s1 = bolt_spacing s2 /\
    bolts_per_row q1 <= bolts_per_row q2 /\
    rows_per_meter q1 = rows_per_meter q2 /\
    fleb (bolt_density q1) (bolt_density q2) = true /\
    fleb (total_bolts q1) (total_bolts q2) = true /\
    fleb (total_bolt_length q1) (total_bolt_length q2) = true.
Proof.
  intros Hin Hw1 Hw2 Hle HL1 HL2 HL.
  pose proof (fleb_ui w1 w2 Hw1 Hw2 Hle) as Hw.
  unfold rock_classes in Hin. simpl in Hin.
  destruct Hin as [<-|[<-|[<-|[<-|[<-|[]]]]]];
    unfold support_plan, support_recommendation;
    cbn [String.eqb Ascii.eqb Bool.eqb];
    rewrite !truediv_nonzero by closed_check;
    cbn [bind bolt_length bolt_spacing];
    row_monotone Hw1 Hw2 Hw HL1 HL2 HL.
Qed.

Lemma larger_excavation_more_support_witness :
  exists s1 q1 s2 q2,
    support_plan "III" (lit 45 10) (lit 100 1) = Ok (s1, q1) /\
    support_plan "III" (lit 12 1) (lit 250 1) = Ok (s2, q2) /\
    fleb (bolt_length s1) (bolt_length s2) = true /\
    bolt_spacing s1 = bolt_spacing s2 /\
    bolts_per_row q1 <= bolts_per_row q2 /\
    rows_per_meter q1 = rows_per_meter q2 /\
    fleb (bolt_density q1) (bolt_density q2) = true /\
    fleb (total_bolts q1) (total_bolts q2) = true /\
    fleb (total_bolt_length q1) (total_bolt_length q2) = true.
Proof.
  apply (larger_excavation_more_support "III" (lit 45 10) (lit 12 1)
           (lit 100 1) (lit 250 1)).
  - unfold rock_classes. simpl. auto 10.
  - repeat split; vm_compute; reflexivity.
  - repeat split; vm_compute; reflexivity.
  - vm_compute. reflexivity.
  - repeat split; vm_compute; reflexivity.
  - repeat split; vm_compute; reflexivity.
  - vm_compute. reflexivity.
Defined.

(** *** The picture *)

Lemma int_quotient_monotone (s x1 x2 : float) :
  table_spacing s = true -> in_ui_range x1 -> in_ui_range x2 ->
  scaled x1 <= scaled x2 ->
  exists r1 r2, int (fdiv x1 s) = Ok r1 /\ int (fdiv x2 s) = Ok r2 /\
                0 <= r1 <= r2 /\ r2 <= 50.
Proof.
  intros Hs H1 H2 Hle.
  destruct (int_quotient s x1 Hs H1) as (r1 & Hr1 & Hr1b).
  destruct (int_quotient s x2 Hs H2) as (r2 & Hr2 & Hr2b).
  exists r1, r2. split; [assumption|]. split; [assumption|].
  split; [|lia]. split; [lia|].
  destruct (quotient_bound s x1 Hs H1) as [Hq1 _].
  destruct (quotient_bound s x2 Hs H2) as [Hq2 _].
  apply andb_prop in Hs as [Hn _].
  destruct (in_ui_range_normal x1 H1) as (N1 & _).
  destruct (in_ui_range_normal x2 H2) as (N2 & _).
  pose proof (fdiv_monotone (-52) (-48) (-53) (-51) x1 x2 s N1 N2 Hn
                ltac:(lia) ltac:(lia) ltac:(lia) ltac:(lia) ltac:(lia) Hle) as Hq.
  rewrite (int_scaled _ _ _ Hq1 ltac:(lia)) in Hr1.
  rewrite (int_scaled _ _ _ Hq2 ltac:(lia)) in Hr2.
  apply Ok_inj in Hr1. apply Ok_inj in Hr2. subst r1 r2.
  apply Z.div_le_mono; [apply pow2_pos; lia|assumption].
Qed.

(** X17: a larger excavation never shows fewer bolts.  Within a class, for
    sidebar widths w1 <= w2 and heights h1 <= h2 the picture for (w2, h2) has
    at least as many bolt positions as the picture for (w1, h1). *)
Theorem larger_excavation_more_positions
  (rock_class : string) (w1 w2 h1 h2 tunnel_length : float) :
  In rock_class rock_classes ->
  in_ui_range w1 -> in_ui_range w2 -> fleb w1 w2 = true ->
  in_ui_range h1 -> in_ui_range h2 -> fleb h1 h2 = true ->
  exists plan1 l1 plan2 l2,
    support_tab rock_class w1 h1 tunnel_length = Ok (plan1, l1) /\
    support_tab rock_class w2 h2 tunnel_length = Ok (plan2, l2) /\
    (List.length l1 <= List.length l2)%nat.
Proof.
  intros Hin Hw1 Hw2 Hwle Hh1 Hh2 Hhle.
  pose proof (fleb_ui w1 w2 Hw1 Hw2 Hwle) as Hw.
  pose proof (fleb_ui h1 h2 Hh1 Hh2 Hhle) as Hh.
  destruct (table_row rock_class w1 Hin) as (s1 & Hs1 & Hts1).
  destruct (table_row rock_class w2 Hin) as (s2 & Hs2 & Hts2).
  assert (Hsp : bolt_spacing s1 = bolt_spacing s2).
  { unfold rock_classes in Hin. simpl in Hin.
    destruct Hin as [<-|[<-|[<-|[<-|[<-|[]]]]]];
      unfold support_recommendation in Hs1, Hs2;
      cbn [String.eqb Ascii.eqb Bool.eqb] in Hs1, Hs2;
      rewrite truediv_nonzero in Hs1, Hs2 by closed_check;
      cbn [bind] in Hs1, Hs2; apply Ok_inj in Hs1; apply Ok_inj in Hs2;
      subst s1 s2; reflexivity. }
  destruct (bolt_quantities_ui rock_class w1 tunnel_length (bolt_length s1)
              (bolt_spacing s1) Hts1 Hw1) as (r1 & f1 & _ & _ & Hq1).
  destruct (bolt_quantities_ui rock_class w2 tunnel_length (bolt_length s2)
              (bolt_spacing s2) Hts2 Hw2) as (r2 & f2 & _ & _ & Hq2).
  match type of Hq1 with _ = Ok ?v => set (q1 := v) in Hq1 end.
  match type of Hq2 with _ = Ok ?v => set (q2 := v) in Hq2 end.
  destruct (bolt_positions_inside rock_class w1 h1 (bolt_spacing s1) Hts1 Hw1 Hh1)
    as (l1 & Hl1 & _).
  destruct (bolt_positions_inside rock_class w2 h2 (bolt_spacing s2) Hts2 Hw2 Hh2)
    as (l2 & Hl2 & _).
  exists (s1, q1), l1, (s2, q2), l2.
  split; [unfold support_tab, support_plan; rewrite Hs1; cbn [bind]; rewrite Hq1;
          cbn [bind fst]; rewrite Hl1; reflexivity|].
  split; [unfold support_tab, support_plan; rewrite Hs2; cbn [bind]; rewrite Hq2;
          cbn [bind fst]; rewrite Hl2; reflexivity|].
  rewrite <- Hsp in *. clear Hsp Hts2.
  destruct (String.eqb_spec rock_class "I") as [HI|HI].
  - subst rock_class.
    rewrite (class_I_length _ _ _ _ Hl1), (class_I_length _ _ _ _ Hl2). lia.
  - apply String.eqb_neq in HI.
    destruct (bolt_positions_grid_inv _ _ _ _ _ HI Hl1)
      as (rh1 & rw1 & _ & Hrh1 & Hrw1 & Hg1).
    destruct (bolt_positions_grid_inv _ _ _ _ _ HI Hl2)
      as (rh2 & rw2 & _ & Hrh2 & Hrw2 & Hg2).
    destruct (int_quotient_monotone _ w1 w2 Hts1 Hw1 Hw2 Hw)
      as (a1 & a2 & Ha1 & Ha2 & Hab & _).
    destruct (int_quotient_monotone _ h1 h2 Hts1 Hh1 Hh2 Hh)
      as (b1 & b2 & Hb1 & Hb2 & Hbb & _).
    rewrite Hrw1 in Ha1. rewrite Hrw2 in Ha2. rewrite Hrh1 in Hb1. rewrite Hrh2 in Hb2.
    apply Ok_inj in Ha1. apply Ok_inj in Ha2. apply Ok_inj in Hb1. apply Ok_inj in Hb2.
    subst a1 a2 b1 b2.
    pose proof (grid_length _ _ _ _ _ _ Hg1) as Hlen1.
    pose proof (grid_length _ _ _ _ _ _ Hg2) as Hlen2.
    apply Nat2Z.inj_le. rewrite Hlen1, Hlen2.
    apply Z.mul_le_mono_nonneg; try lia;
      destruct (mem rock_class ["II"; "III"]); try lia;
      destruct (mem rock_class ["IV"; "V"]); lia.
Qed.

Lemma larger_excavation_more_positions_witness :
  exists plan1 l1 plan2 l2,
    support_tab "IV" (lit 5 1) (lit 35 10) (lit 100 1) = Ok (plan1, l1) /\
    support_tab "IV" (lit 55 10) (lit 4 1) (lit 100 1) = Ok (plan2, l2) /\
    (List.length l1 <= List.length l2)%nat.
Proof.
  apply (larger_excavation_more_positions "IV" (lit 5 1) (lit 55 10)
           (lit 35 10) (lit 4 1) (lit 100 1)).
  - unfold rock_classes. simpl. auto 10.
  - repeat split; vm_compute; reflexivity.
  - repeat split; vm_compute; reflexivity.
  - vm_compute. reflexivity.
  - repeat split; vm_compute; reflexivity.
  - repeat split; vm_compute; reflexivity.
  - vm_compute. reflexivity.
Defined.
